(** * A two-level TLB with LRU replacement and cascading write-back

    Shallow embedding of [src/tlb.c] and the properties of its
    translate / invalidate entry points.

    Conventions of the embedding.
    - [va_t] and [pa_dram_t] are typedefs of constants.h, which is not
      part of the sources; the code converts both to and from
      [uint64_t], and they are taken as 64-bit unsigned.  Values of the
      three types are carried as [Z] in the range [0, 2^64).  Casts
      between them are the identity on that range and are not written;
      the operations that can leave the range ([++] on a counter, [<<]
      in [compose_pa]) and the narrowing cast to [uint32_t] have their
      wrap-around written out.  The latencies are [time_ns_t] values and
      are passed to the clock as they are.
    - C [int] slot indices are [Z]; the sentinel [-1] of the [find]
      functions is kept.  The two arrays are lists; a [for] loop over
      the slots is a recursion on the number of iterations left, reading
      the slot at the running index.  Reading a slot beyond the end of
      the list gives the all-zero entry and writing one is dropped; this
      only arises for a state whose arrays are shorter than their
      declared sizes, which no sequence of operations produces.
    - [TLB_L1_SIZE], [TLB_L2_SIZE], [PAGE_SIZE_BITS] and the two
      latencies come from constants.h, which is not part of the sources:
      they are parameters of the development.
    - The module-level globals are the fields of [state]; every function
      takes the state and returns the new one.
    - The clock, the write-back sink and the page-table resolver live in
      other translation units.  Calls to them are recorded, in program
      order, in the [trace] field; the value returned by the resolver is
      given by a function of the call history and the arguments, so that
      a resolver with a state of its own is covered.  The resolver is
      opaque: it does not call back into this module. *)

From stdpp Require Import base list.
From Stdlib Require Import ZArith Lia Bool.

Local Open Scope Z_scope.

(** ** Data model *)

Definition wrap64 (z : Z) : Z := z mod 2 ^ 64.
Definition wrap32 (z : Z) : Z := z mod 2 ^ 32.

Inductive op_t : Type := OP_READ | OP_WRITE.

Definition op_is_write (op : op_t) : bool :=
  match op with OP_WRITE => true | OP_READ => false end.

Record tlb_entry_t : Type := mk_entry {
  valid : bool;
  dirty : bool;
  last_access : Z;
  virtual_page_number : Z;
  physical_page_number : Z
}.

(** The all-zero entry that [memset] leaves in every slot. *)
Definition zero_entry : tlb_entry_t := mk_entry false false 0 0 0.

(** Calls made to the collaborators of the module. *)
Inductive event : Type :=
| EvTime (ns : Z)                  (* increment_time(ns) *)
| EvWriteBack (pa : Z)             (* write_back_tlb_entry(pa) *)
| EvPageTable (va : Z) (op : op_t) (* page_table_translate(va, op) *).

Record state : Type := mk_state {
  tlb_l1 : list tlb_entry_t;
  tlb_l2 : list tlb_entry_t;
  tlb_l1_hits : Z;
  tlb_l1_misses : Z;
  tlb_l1_invalidations : Z;
  tlb_l2_hits : Z;
  tlb_l2_misses : Z;
  tlb_l2_invalidations : Z;
  lru_tick : Z;
  lru_tick2 : Z;
  trace : list event
}.

(** Field assignments on the globals. *)
Definition set_tlb_l1 (a : list tlb_entry_t) (s : state) : state :=
  mk_state a (tlb_l2 s) (tlb_l1_hits s) (tlb_l1_misses s)
    (tlb_l1_invalidations s) (tlb_l2_hits s) (tlb_l2_misses s)
    (tlb_l2_invalidations s) (lru_tick s) (lru_tick2 s) (trace s).
Definition set_tlb_l2 (a : list tlb_entry_t) (s : state) : state :=
  mk_state (tlb_l1 s) a (tlb_l1_hits s) (tlb_l1_misses s)
    (tlb_l1_invalidations s) (tlb_l2_hits s) (tlb_l2_misses s)
    (tlb_l2_invalidations s) (lru_tick s) (lru_tick2 s) (trace s).
Definition set_l1_hits (c : Z) (s : state) : state :=
  mk_state (tlb_l1 s) (tlb_l2 s) c (tlb_l1_misses s)
    (tlb_l1_invalidations s) (tlb_l2_hits s) (tlb_l2_misses s)
    (tlb_l2_invalidations s) (lru_tick s) (lru_tick2 s) (trace s).
Definition set_l1_misses (c : Z) (s : state) : state :=
  mk_state (tlb_l1 s) (tlb_l2 s) (tlb_l1_hits s) c
    (tlb_l1_invalidations s) (tlb_l2_hits s) (tlb_l2_misses s)
    (tlb_l2_invalidations s) (lru_tick s) (lru_tick2 s) (trace s).
Definition set_l1_invalidations (c : Z) (s : state) : state :=
  mk_state (tlb_l1 s) (tlb_l2 s) (tlb_l1_hits s) (tlb_l1_misses s)
    c (tlb_l2_hits s) (tlb_l2_misses s)
    (tlb_l2_invalidations s) (lru_tick s) (lru_tick2 s) (trace s).
Definition set_l2_hits (c : Z) (s : state) : state :=
  mk_state (tlb_l1 s) (tlb_l2 s) (tlb_l1_hits s) (tlb_l1_misses s)
    (tlb_l1_invalidations s) c (tlb_l2_misses s)
    (tlb_l2_invalidations s) (lru_tick s) (lru_tick2 s) (trace s).
Definition set_l2_misses (c : Z) (s : state) : state :=
  mk_state (tlb_l1 s) (tlb_l2 s) (tlb_l1_hits s) (tlb_l1_misses s)
    (tlb_l1_invalidations s) (tlb_l2_hits s) c
    (tlb_l2_invalidations s) (lru_tick s) (lru_tick2 s) (trace s).
Definition set_l2_invalidations (c : Z) (s : state) : state :=
  mk_state (tlb_l1 s) (tlb_l2 s) (tlb_l1_hits s) (tlb_l1_misses s)
    (tlb_l1_invalidations s) (tlb_l2_hits s) (tlb_l2_misses s)
    c (lru_tick s) (lru_tick2 s) (trace s).
Definition set_lru_tick (c : Z) (s : state) : state :=
  mk_state (tlb_l1 s) (tlb_l2 s) (tlb_l1_hits s) (tlb_l1_misses s)
    (tlb_l1_invalidations s) (tlb_l2_hits s) (tlb_l2_misses s)
    (tlb_l2_invalidations s) c (lru_tick2 s) (trace s).
Definition set_lru_tick2 (c : Z) (s : state) : state :=
  mk_state (tlb_l1 s) (tlb_l2 s) (tlb_l1_hits s) (tlb_l1_misses s)
    (tlb_l1_invalidations s) (tlb_l2_hits s) (tlb_l2_misses s)
    (tlb_l2_invalidations s) (lru_tick s) c (trace s).

(** A call to a collaborator appends its record to the trace. *)
Definition emit (e : event) (s : state) : state :=
  mk_state (tlb_l1 s) (tlb_l2 s) (tlb_l1_hits s) (tlb_l1_misses s)
    (tlb_l1_invalidations s) (tlb_l2_hits s) (tlb_l2_misses s)
    (tlb_l2_invalidations s) (lru_tick s) (lru_tick2 s) (trace s ++ [e]).

(** Several calls in a row. *)
Definition emits (evs : list event) (s : state) : state :=
  mk_state (tlb_l1 s) (tlb_l2 s) (tlb_l1_hits s) (tlb_l1_misses s)
    (tlb_l1_invalidations s) (tlb_l2_hits s) (tlb_l2_misses s)
    (tlb_l2_invalidations s) (lru_tick s) (lru_tick2 s) (trace s ++ evs).

Definition increment_time (ns : Z) : state -> state := emit (EvTime ns).
Definition write_back_tlb_entry (pa : Z) : state -> state :=
  emit (EvWriteBack pa).

(** ** Arrays of entries *)

(** [a[i]] read, and [a[i].field = ...] writes. *)
Definition entry_at (a : list tlb_entry_t) (i : Z) : tlb_entry_t :=
  default zero_entry (a !! Z.to_nat i).

Definition entry_upd (f : tlb_entry_t -> tlb_entry_t)
    (a : list tlb_entry_t) (i : Z) : list tlb_entry_t :=
  alter f (Z.to_nat i) a.

(** [valid = false; dirty = false; last_access = 0] *)
Definition reset_entry (e : tlb_entry_t) : tlb_entry_t :=
  mk_entry false false 0 (virtual_page_number e) (physical_page_number e).

(** The update-in-place branch of the insert functions. *)
Definition refresh_entry (ppn : Z) (d : bool) (t : Z) (e : tlb_entry_t)
    : tlb_entry_t :=
  mk_entry true (dirty e || d) t (virtual_page_number e) ppn.

(** The new-entry branch of the insert functions. *)
Definition fill_entry (vpn ppn : Z) (d : bool) (t : Z) (_ : tlb_entry_t)
    : tlb_entry_t :=
  mk_entry true d t vpn ppn.

(** Hit path of translate: [last_access = t; if write then dirty = true]. *)
Definition touch_entry (op : op_t) (t : Z) (e : tlb_entry_t) : tlb_entry_t :=
  mk_entry (valid e) (if op_is_write op then true else dirty e) t
    (virtual_page_number e) (physical_page_number e).

(** The slot test shared by the find and the invalidate loops. *)
Definition holds (vpn : Z) (e : tlb_entry_t) : bool :=
  valid e && (virtual_page_number e =? vpn).

(** [for (i = i0; i < i0 + n; ++i) if (a[i].valid && a[i].vpn == vpn)
    return i;  return -1;] *)
Fixpoint find_loop (a : list tlb_entry_t) (vpn : Z) (n : nat) (i : Z) : Z :=
  match n with
  | O => -1
  | S n' => if holds vpn (entry_at a i) then i
            else find_loop a vpn n' (i + 1)
  end.

(** First loop of victim selection: the early [return i] on an invalid
    slot; [None] when the loop runs to its end. *)
Fixpoint free_loop (a : list tlb_entry_t) (n : nat) (i : Z) : option Z :=
  match n with
  | O => None
  | S n' => if negb (valid (entry_at a i)) then Some i
            else free_loop a n' (i + 1)
  end.

(** Second loop of victim selection, with the two locals [victim] and
    [best]. *)
Fixpoint lru_loop (a : list tlb_entry_t) (n : nat) (i victim best : Z) : Z :=
  match n with
  | O => victim
  | S n' =>
      if last_access (entry_at a i) <? best
      then lru_loop a n' (i + 1) i (last_access (entry_at a i))
      else lru_loop a n' (i + 1) victim best
  end.

Definition choose_victim (a : list tlb_entry_t) (size : nat) : Z :=
  match free_loop a size 0 with
  | Some i => i
  | None => lru_loop a (size - 1) 1 0 (last_access (entry_at a 0))
  end.

(** Array-level reading of the two insert functions: the array of the
    level after [insert(vpn, ppn, d)] stamped with tick [t]. *)
Definition insert_array (a : list tlb_entry_t) (size : nat)
    (vpn ppn : Z) (d : bool) (t : Z) : list tlb_entry_t :=
  let idx := find_loop a vpn size 0 in
  if 0 <=? idx then entry_upd (refresh_entry ppn d t) a idx
  else
    let victim := choose_victim a size in
    entry_upd (fill_entry vpn ppn d t) (entry_upd reset_entry a victim) victim.

(** One insertion request, and a run of insertions on a level whose
    logical clock stands at [t]. *)
Record insert_req : Type := mk_req {
  req_vpn : Z;
  req_ppn : Z;
  req_dirty : bool
}.

Fixpoint insert_all_array (a : list tlb_entry_t) (size : nat) (t : Z)
    (xs : list insert_req) : list tlb_entry_t :=
  match xs with
  | [] => a
  | x :: xs' =>
      insert_all_array
        (insert_array a size (req_vpn x) (req_ppn x) (req_dirty x)
           (wrap64 (t + 1)))
        size (wrap64 (t + 1)) xs'
  end.

(** ** Predicates on a level *)

(** Every slot is invalid. *)
Definition all_invalid (a : list tlb_entry_t) : Prop :=
  forall (i : nat) (e : tlb_entry_t), a !! i = Some e -> valid e = false.

(** The first slots of the array hold the VPNs [vs], in that order, with
    stamps [t0 + 1], [t0 + 2], ...; the slots after them are invalid. *)
Definition filled (a : list tlb_entry_t) (size : nat) (vs : list Z) (t0 : Z)
    : Prop :=
  length a = size /\ (length vs <= size)%nat /\
  (forall (i : nat) (v : Z), vs !! i = Some v ->
     exists e, a !! i = Some e /\ valid e = true /\
       virtual_page_number e = v /\ last_access e = t0 + 1 + Z.of_nat i) /\
  (forall (i : nat) (e : tlb_entry_t),
     (length vs <= i)%nat -> a !! i = Some e -> valid e = false).

(** No two valid slots hold the same VPN. *)
Definition unique_vpn (a : list tlb_entry_t) : Prop :=
  forall (i j : nat) (e1 e2 : tlb_entry_t),
    a !! i = Some e1 -> a !! j = Some e2 ->
    valid e1 = true -> valid e2 = true ->
    virtual_page_number e1 = virtual_page_number e2 -> i = j.

(** Every invalid slot has [dirty = false] and [last_access = 0]. *)
Definition invalid_clean (a : list tlb_entry_t) : Prop :=
  forall (i : nat) (e : tlb_entry_t),
    a !! i = Some e -> valid e = false ->
    dirty e = false /\ last_access e = 0.

(** Every invalid slot is all-zero, VPN and PPN included. *)
Definition invalid_zeroed (a : list tlb_entry_t) : Prop :=
  forall (i : nat) (e : tlb_entry_t),
    a !! i = Some e -> valid e = false -> e = zero_entry.

(** Slot [m] is the lowest-index invalid slot among the first [size]. *)
Definition first_free (a : list tlb_entry_t) (size m : nat) : Prop :=
  (m < size)%nat /\ valid (entry_at a (Z.of_nat m)) = false /\
  forall j : nat, (j < m)%nat -> valid (entry_at a (Z.of_nat j)) = true.

(** Slot [m] has the smallest [last_access] among the first [size], and
    every slot before it has a strictly larger one. *)
Definition first_lru (a : list tlb_entry_t) (size m : nat) : Prop :=
  (m < size)%nat /\
  forall j : nat, (j < size)%nat ->
    last_access (entry_at a (Z.of_nat m)) <=
      last_access (entry_at a (Z.of_nat j)) /\
    ((j < m)%nat ->
     last_access (entry_at a (Z.of_nat m)) <
       last_access (entry_at a (Z.of_nat j))).

(** The event is a call to the write-back sink. *)
Definition is_writeback (ev : event) : Prop :=
  exists pa, ev = EvWriteBack pa.

(** No valid slot of the array holds [vpn]. *)
Definition absent (vpn : Z) (a : list tlb_entry_t) : Prop :=
  forall (i : nat) (e : tlb_entry_t), a !! i = Some e -> holds vpn e = false.

(** What the operations keep true of a level of [size] slots. *)
Definition level_ok (size : nat) (a : list tlb_entry_t) : Prop :=
  length a = size /\ unique_vpn a /\ invalid_clean a.

(** A resolver for the worked scenarios: frame = page + 100, offset
    kept. *)
Definition example_resolver (_ : list event) (va : Z) (_ : op_t) : Z :=
  va + 409600.

(** ** The module *)

Section TLB.

Variable PAGE_SIZE_BITS : Z.
Variable TLB_L1_SIZE : nat.
Variable TLB_L2_SIZE : nat.
Variable TLB_L1_LATENCY_NS : Z.
Variable TLB_L2_LATENCY_NS : Z.
(** Result of the resolver, given the calls made so far. *)
Variable page_table_translate : list event -> Z -> op_t -> Z.

(** Modelled from the spec: the macro [PAGE_OFFSET_MASK] of constants.h
    is not in the sources; the offset is "the low page-size bits" of the
    address. *)
Definition PAGE_OFFSET_MASK : Z := Z.ones PAGE_SIZE_BITS.

Definition va_to_vpn (va : Z) : Z := Z.shiftr va PAGE_SIZE_BITS.

Definition va_offset (va : Z) : Z := wrap32 (Z.land va PAGE_OFFSET_MASK).

Definition pa_to_ppn (pa : Z) : Z := Z.shiftr pa PAGE_SIZE_BITS.

Definition compose_pa (ppn off : Z) : Z :=
  Z.lor (wrap64 (Z.shiftl ppn PAGE_SIZE_BITS)) off.

Definition tlb_init (s : state) : state :=
  mk_state (replicate TLB_L1_SIZE zero_entry)
           (replicate TLB_L2_SIZE zero_entry)
           0 0 0 0 0 0 0 0 (trace s).

Definition l1_find (vpn : Z) (s : state) : Z :=
  find_loop (tlb_l1 s) vpn TLB_L1_SIZE 0.

Definition l2_find (vpn : Z) (s : state) : Z :=
  find_loop (tlb_l2 s) vpn TLB_L2_SIZE 0.

Definition l1_choose_victim (s : state) : Z :=
  choose_victim (tlb_l1 s) TLB_L1_SIZE.

Definition l2_choose_victim (s : state) : Z :=
  choose_victim (tlb_l2 s) TLB_L2_SIZE.

Definition l2_evict_entry (idx : Z) (s : state) : state :=
  if idx <? 0 then s
  else
    let e := entry_at (tlb_l2 s) idx in
    let s1 :=
      if valid e && dirty e
      then write_back_tlb_entry (compose_pa (physical_page_number e) 0) s
      else s in
    set_tlb_l2 (entry_upd reset_entry (tlb_l2 s1) idx) s1.

Definition l2_insert (vpn ppn : Z) (d : bool) (s : state) : state :=
  let idx := l2_find vpn s in
  if 0 <=? idx then
    let t := wrap64 (lru_tick2 s + 1) in
    set_tlb_l2 (entry_upd (refresh_entry ppn d t) (tlb_l2 s) idx)
      (set_lru_tick2 t s)
  else
    let victim := l2_choose_victim s in
    let s1 := l2_evict_entry victim s in
    let t := wrap64 (lru_tick2 s1 + 1) in
    set_tlb_l2 (entry_upd (fill_entry vpn ppn d t) (tlb_l2 s1) victim)
      (set_lru_tick2 t s1).

Definition l1_evict_entry (idx : Z) (s : state) : state :=
  if idx <? 0 then s
  else
    let e := entry_at (tlb_l1 s) idx in
    let s1 :=
      if valid e && dirty e
      then l2_insert (virtual_page_number e) (physical_page_number e) true s
      else s in
    set_tlb_l1 (entry_upd reset_entry (tlb_l1 s1) idx) s1.

Definition l1_insert (vpn ppn : Z) (d : bool) (s : state) : state :=
  let idx := l1_find vpn s in
  if 0 <=? idx then
    let t := wrap64 (lru_tick s + 1) in
    set_tlb_l1 (entry_upd (refresh_entry ppn d t) (tlb_l1 s) idx)
      (set_lru_tick t s)
  else
    let victim := l1_choose_victim s in
    let s1 := l1_evict_entry victim s in
    let t := wrap64 (lru_tick s1 + 1) in
    set_tlb_l1 (entry_upd (fill_entry vpn ppn d t) (tlb_l1 s1) victim)
      (set_lru_tick t s1).

(** Body of the L1 loop of [tlb_invalidate] at a matching slot; the loop
    leaves through [break] after it. *)
Definition invalidate_l1_slot (i : Z) (s : state) : state :=
  let e := entry_at (tlb_l1 s) i in
  let s1 :=
    if dirty e
    then l2_insert (virtual_page_number e) (physical_page_number e) true s
    else s in
  let s2 := set_tlb_l1 (entry_upd reset_entry (tlb_l1 s1) i) s1 in
  set_l1_invalidations (wrap64 (tlb_l1_invalidations s2 + 1)) s2.

Fixpoint invalidate_l1_loop (vpn : Z) (n : nat) (i : Z) (s : state) : state :=
  match n with
  | O => s
  | S n' => if holds vpn (entry_at (tlb_l1 s) i) then invalidate_l1_slot i s
            else invalidate_l1_loop vpn n' (i + 1) s
  end.

Definition invalidate_l2_slot (i : Z) (s : state) : state :=
  let e := entry_at (tlb_l2 s) i in
  let s1 :=
    if dirty e
    then write_back_tlb_entry (compose_pa (physical_page_number e) 0) s
    else s in
  let s2 := set_tlb_l2 (entry_upd reset_entry (tlb_l2 s1) i) s1 in
  set_l2_invalidations (wrap64 (tlb_l2_invalidations s2 + 1)) s2.

Fixpoint invalidate_l2_loop (vpn : Z) (n : nat) (i : Z) (s : state) : state :=
  match n with
  | O => s
  | S n' => if holds vpn (entry_at (tlb_l2 s) i) then invalidate_l2_slot i s
            else invalidate_l2_loop vpn n' (i + 1) s
  end.

Definition tlb_invalidate (vpn : Z) (s : state) : state :=
  let s0 := increment_time (TLB_L1_LATENCY_NS + TLB_L2_LATENCY_NS) s in
  let s1 := invalidate_l1_loop vpn TLB_L1_SIZE 0 s0 in
  invalidate_l2_loop vpn TLB_L2_SIZE 0 s1.

Definition tlb_translate (virtual_address : Z) (op : op_t) (s : state)
    : Z * state :=
  let s := increment_time TLB_L1_LATENCY_NS s in
  let vpn := va_to_vpn virtual_address in
  let off := va_offset virtual_address in
  let idx1 := l1_find vpn s in
  if 0 <=? idx1 then
    let s := set_l1_hits (wrap64 (tlb_l1_hits s + 1)) s in
    let t := wrap64 (lru_tick s + 1) in
    let s := set_lru_tick t s in
    let s := set_tlb_l1 (entry_upd (touch_entry op t) (tlb_l1 s) idx1) s in
    let ppn := physical_page_number (entry_at (tlb_l1 s) idx1) in
    (compose_pa ppn off, s)
  else
    let s := set_l1_misses (wrap64 (tlb_l1_misses s + 1)) s in
    let s := increment_time TLB_L2_LATENCY_NS s in
    let idx2 := l2_find vpn s in
    if 0 <=? idx2 then
      let s := set_l2_hits (wrap64 (tlb_l2_hits s + 1)) s in
      let t := wrap64 (lru_tick2 s + 1) in
      let s := set_lru_tick2 t s in
      let s := set_tlb_l2 (entry_upd (touch_entry op t) (tlb_l2 s) idx2) s in
      let ppn := physical_page_number (entry_at (tlb_l2 s) idx2) in
      let s := l1_insert vpn ppn (op_is_write op) s in
      (compose_pa ppn off, s)
    else
      let s := set_l2_misses (wrap64 (tlb_l2_misses s + 1)) s in
      let pa := page_table_translate (trace s) virtual_address op in
      let s := emit (EvPageTable virtual_address op) s in
      let ppn := pa_to_ppn pa in
      let s := l1_insert vpn ppn (op_is_write op) s in
      let s := l2_insert vpn ppn (op_is_write op) s in
      (pa, s).

(** ** Operation sequences *)

Inductive operation : Type :=
| Initialize
| Translate (va : Z) (op : op_t)
| Invalidate (vpn : Z).

Definition step (o : operation) (s : state) : state :=
  match o with
  | Initialize => tlb_init s
  | Translate va op => snd (tlb_translate va op s)
  | Invalidate vpn => tlb_invalidate vpn s
  end.

Definition run (ops : list operation) (s : state) : state :=
  foldl (fun s o => step o s) s ops.

(** State of the globals at program start: zero-initialised storage. *)
Definition initial_state : state :=
  mk_state (replicate TLB_L1_SIZE zero_entry)
           (replicate TLB_L2_SIZE zero_entry)
           0 0 0 0 0 0 0 0 [].

Definition reachable (s : state) : Prop :=
  exists ops, s = run ops initial_state.

(** ** Readings of the helpers used in the statements *)

(** Sink calls made by [l2_evict_entry idx] on the array [a]. *)
Definition l2_evict_writeback (a : list tlb_entry_t) (idx : Z) : list event :=
  if valid (entry_at a idx) && dirty (entry_at a idx)
  then [EvWriteBack (compose_pa (physical_page_number (entry_at a idx)) 0)]
  else [].

(** Sink calls made by [l2_insert vpn _ _] on the array [a]: none when
    the VPN is updated in place, otherwise those of evicting the victim. *)
Definition l2_insert_writeback (a : list tlb_entry_t) (vpn : Z) : list event :=
  if 0 <=? find_loop a vpn TLB_L2_SIZE 0 then []
  else l2_evict_writeback a (choose_victim a TLB_L2_SIZE).

(** What [l1_insert vpn _ _] does outside L1: nothing when the VPN is
    updated in place or the victim is not valid and dirty, otherwise the
    insertion of the victim into L2. *)
Definition l1_insert_spill (vpn : Z) (s : state) : state :=
  if 0 <=? l1_find vpn s then s
  else
    let e := entry_at (tlb_l1 s) (l1_choose_victim s) in
    if valid e && dirty e
    then l2_insert (virtual_page_number e) (physical_page_number e) true s
    else s.

(** The six statistics, in the order L1 hits, L1 misses, L1
    invalidations, L2 hits, L2 misses, L2 invalidations. *)
Definition counters (s : state) : list Z :=
  [tlb_l1_hits s; tlb_l1_misses s; tlb_l1_invalidations s;
   tlb_l2_hits s; tlb_l2_misses s; tlb_l2_invalidations s].

(** A run of insertions on each level. *)
Definition l1_insert_all (xs : list insert_req) (s : state) : state :=
  foldl (fun s x => l1_insert (req_vpn x) (req_ppn x) (req_dirty x) s) s xs.

Definition l2_insert_all (xs : list insert_req) (s : state) : state :=
  foldl (fun s x => l2_insert (req_vpn x) (req_ppn x) (req_dirty x) s) s xs.

(** A relation holding between each statistic of [s] and the same
    statistic of [s']. *)
Definition counters_rel (R : Z -> Z -> Prop) (s s' : state) : Prop :=
  Forall2 R (counters s) (counters s').

(** Both arrays have their declared size, hold each VPN at most once
    among their valid slots, and keep invalid slots clean. *)
Definition tlb_ok (s : state) : Prop :=
  level_ok TLB_L1_SIZE (tlb_l1 s) /\ level_ok TLB_L2_SIZE (tlb_l2 s).

(** ** Accessors, and measures on the trace of calls *)

Definition get_total_tlb_l1_hits (s : state) : Z := tlb_l1_hits s.
Definition get_total_tlb_l1_misses (s : state) : Z := tlb_l1_misses s.
Definition get_total_tlb_l1_invalidations (s : state) : Z :=
  tlb_l1_invalidations s.
Definition get_total_tlb_l2_hits (s : state) : Z := tlb_l2_hits s.
Definition get_total_tlb_l2_misses (s : state) : Z := tlb_l2_misses s.
Definition get_total_tlb_l2_invalidations (s : state) : Z :=
  tlb_l2_invalidations s.

(** Time charged to the clock by the calls of a trace. *)
Fixpoint time_charged (tr : list event) : Z :=
  match tr with
  | [] => 0
  | EvTime ns :: tr' => ns + time_charged tr'
  | _ :: tr' => time_charged tr'
  end.

(** Addresses handed to the write-back sink, in call order. *)
Fixpoint sink_calls (tr : list event) : list Z :=
  match tr with
  | [] => []
  | EvWriteBack pa :: tr' => pa :: sink_calls tr'
  | _ :: tr' => sink_calls tr'
  end.

(** Arguments of the calls to the resolver, in call order. *)
Fixpoint resolver_calls (tr : list event) : list (Z * op_t) :=
  match tr with
  | [] => []
  | EvPageTable va op :: tr' => (va, op) :: resolver_calls tr'
  | _ :: tr' => resolver_calls tr'
  end.

(** Numbers of translate and of invalidate operations of a sequence. *)
Fixpoint count_translate (ops : list operation) : nat :=
  match ops with
  | [] => O
  | Translate _ _ :: ops' => S (count_translate ops')
  | _ :: ops' => count_translate ops'
  end.

Fixpoint count_invalidate (ops : list operation) : nat :=
  match ops with
  | [] => O
  | Invalidate _ :: ops' => S (count_invalidate ops')
  | _ :: ops' => count_invalidate ops'
  end.

(** The operation is no write access. *)
Definition is_read_operation (o : operation) : Prop :=
  match o with
  | Translate _ OP_WRITE => False
  | _ => True
  end.

(** ** Readings of the paths of [tlb_translate] *)

(** Sink calls made by [l1_insert vpn _ _]: those of inserting a valid
    dirty victim into L2, when the VPN is new to L1. *)
Definition l1_insert_writeback (vpn : Z) (s : state) : list event :=
  if 0 <=? l1_find vpn s then []
  else
    let e := entry_at (tlb_l1 s) (l1_choose_victim s) in
    if valid e && dirty e
    then l2_insert_writeback (tlb_l2 s) (virtual_page_number e)
    else [].

(** The state after the L1 miss has been recorded and the L2 latency
    charged. *)
Definition l1_miss_state (s : state) : state :=
  increment_time TLB_L2_LATENCY_NS
    (set_l1_misses (wrap64 (tlb_l1_misses s + 1))
       (increment_time TLB_L1_LATENCY_NS s)).

(** The state after an L2 hit on slot [idx2], before the insertion into
    L1. *)
Definition l2_hit_state (op : op_t) (idx2 : Z) (s : state) : state :=
  let s1 := set_l2_hits (wrap64 (tlb_l2_hits s + 1)) (l1_miss_state s) in
  let t := wrap64 (lru_tick2 s1 + 1) in
  set_tlb_l2 (entry_upd (touch_entry op t) (tlb_l2 s1) idx2)
    (set_lru_tick2 t s1).

(** The state after the L2 miss and the call to the resolver, before
    the two insertions. *)
Definition l2_miss_state (va : Z) (op : op_t) (s : state) : state :=
  emit (EvPageTable va op)
    (set_l2_misses (wrap64 (tlb_l2_misses s + 1)) (l1_miss_state s)).

(** What a scan for [vpn] over the first [size] slots returns: -1 when
    none of them holds it, otherwise the lowest slot that does. *)
Definition find_result (a : list tlb_entry_t) (size : nat) (vpn r : Z)
    : Prop :=
  (r = -1 /\
   forall j : nat, (j < size)%nat ->
     holds vpn (entry_at a (Z.of_nat j)) = false) \/
  (exists m : nat, r = Z.of_nat m /\ (m < size)%nat /\
     holds vpn (entry_at a (Z.of_nat m)) = true /\
     forall j : nat, (j < m)%nat ->
       holds vpn (entry_at a (Z.of_nat j)) = false).

(** No slot of the array is dirty. *)
Definition no_dirty (a : list tlb_entry_t) : Prop :=
  forall (i : nat) (e : tlb_entry_t), a !! i = Some e -> dirty e = false.

(** The level can take [vpn] without evicting a valid entry: it holds
    the VPN already, or one of its slots is invalid. *)
Definition has_room (a : list tlb_entry_t) (size : nat) (vpn : Z) : Prop :=
  0 <= find_loop a vpn size 0 \/
  exists j : nat, (j < size)%nat /\ valid (entry_at a (Z.of_nat j)) = false.

(** The stamps of the valid slots are positive, at most the clock [t]
    of the level, and pairwise distinct. *)
Definition stamps_ok (a : list tlb_entry_t) (t : Z) : Prop :=
  (forall (i : nat) (e : tlb_entry_t),
     a !! i = Some e -> valid e = true -> 0 < last_access e <= t) /\
  (forall (i j : nat) (e1 e2 : tlb_entry_t),
     a !! i = Some e1 -> a !! j = Some e2 ->
     valid e1 = true -> valid e2 = true ->
     last_access e1 = last_access e2 -> i = j).

(** * Basic facts about arrays and the scanning loops *)

Lemma entry_at_nat (a : list tlb_entry_t) (k : nat) :
  entry_at a (Z.of_nat k) = default zero_entry (a !! k).
Proof. unfold entry_at. by rewrite Nat2Z.id. Qed.

Lemma entry_at_lookup (a : list tlb_entry_t) (k : nat) (e : tlb_entry_t) :
  a !! k = Some e -> entry_at a (Z.of_nat k) = e.
Proof. intros H. rewrite entry_at_nat, H. done. Qed.

Lemma entry_at_valid_lookup (a : list tlb_entry_t) (k : nat) :
  valid (entry_at a (Z.of_nat k)) = true ->
  a !! k = Some (entry_at a (Z.of_nat k)).
Proof.
  rewrite entry_at_nat. destruct (a !! k) as [e|]; simpl; [done|discriminate].
Qed.

Lemma holds_true (vpn : Z) (e : tlb_entry_t) :
  holds vpn e = true <-> valid e = true /\ virtual_page_number e = vpn.
Proof.
  unfold holds. rewrite andb_true_iff, Z.eqb_eq. tauto.
Qed.

Lemma holds_false (vpn : Z) (e : tlb_entry_t) :
  holds vpn e = false <-> ~ (valid e = true /\ virtual_page_number e = vpn).
Proof.
  rewrite <- holds_true. destruct (holds vpn e); split; congruence.
Qed.

Lemma length_entry_upd f (a : list tlb_entry_t) (i : Z) :
  length (entry_upd f a i) = length a.
Proof. apply length_alter. Qed.

Lemma lookup_entry_upd f (a : list tlb_entry_t) (i : Z) (j : nat) :
  entry_upd f a i !! j =
  if decide (Z.to_nat i = j) then f <$> a !! j else a !! j.
Proof.
  unfold entry_upd. rewrite list_lookup_alter.
  destruct (decide (Z.to_nat i = j)); by subst.
Qed.

(** Outcome of a [find] scan started at slot [k] over [n] slots. *)
Lemma find_loop_spec (a : list tlb_entry_t) (vpn : Z) (n k : nat) :
  (find_loop a vpn n (Z.of_nat k) = -1 /\
   forall j e, (k <= j < k + n)%nat -> a !! j = Some e -> holds vpn e = false)
  \/
  (exists m e, find_loop a vpn n (Z.of_nat k) = Z.of_nat m /\
     (k <= m < k + n)%nat /\ a !! m = Some e /\ holds vpn e = true /\
     forall j e', (k <= j < m)%nat -> a !! j = Some e' ->
                  holds vpn e' = false).
Proof.
  revert k. induction n as [|n IH]; intros k; simpl.
  - left. split; [done|]. intros j e Hj. lia.
  - destruct (holds vpn (entry_at a (Z.of_nat k))) eqn:Hk.
    + right. exists k, (entry_at a (Z.of_nat k)).
      apply holds_true in Hk as Hk'. destruct Hk' as [Hv _].
      split; [done|]. split; [lia|].
      split; [by apply entry_at_valid_lookup|].
      split; [done|]. intros j e' Hj. lia.
    + replace (Z.of_nat k + 1) with (Z.of_nat (S k)) by lia.
      destruct (IH (S k)) as [[Hr Hall]|(m & e & Hr & Hm & Hl & Hh & Hall)].
      * left. split; [done|]. intros j e Hj Hl.
        destruct (decide (j = k)) as [->|Hne].
        -- by rewrite (entry_at_lookup _ _ _ Hl) in Hk.
        -- apply (Hall j e); [lia|done].
      * right. exists m, e. split; [done|]. split; [lia|].
        split; [done|]. split; [done|]. intros j e' Hj Hl'.
        destruct (decide (j = k)) as [->|Hne].
        -- by rewrite (entry_at_lookup _ _ _ Hl') in Hk.
        -- apply (Hall j e'); [lia|done].
Qed.

Lemma find_loop_ge (a : list tlb_entry_t) (vpn : Z) (n k : nat) :
  -1 <= find_loop a vpn n (Z.of_nat k).
Proof.
  destruct (find_loop_spec a vpn n k) as [[-> _]|(m & e & -> & _)]; lia.
Qed.

Lemma find_loop_absent (a : list tlb_entry_t) (vpn : Z) (n k : nat) :
  absent vpn a -> find_loop a vpn n (Z.of_nat k) = -1.
Proof.
  intros Ha.
  destruct (find_loop_spec a vpn n k) as [[Hr _]|(m & e & _ & _ & Hl & Hh & _)];
    [done|].
  apply Ha in Hl. congruence.
Qed.

Lemma find_absent (a : list tlb_entry_t) (vpn : Z) (n : nat) :
  absent vpn a -> find_loop a vpn n 0 = -1.
Proof. apply (find_loop_absent a vpn n 0). Qed.

Lemma find_loop_none_absent (a : list tlb_entry_t) (vpn : Z) :
  find_loop a vpn (length a) 0 = -1 -> absent vpn a.
Proof.
  intros Hr i e Hi.
  destruct (find_loop_spec a vpn (length a) 0)
    as [[_ Hall]|(m & e' & Hm & _)]; change (Z.of_nat 0) with 0 in *.
  - apply (Hall i e); [|done]. apply lookup_lt_Some in Hi. lia.
  - lia.
Qed.

(** The scan stops at [m] when [m] is the only slot holding [vpn]. *)
Lemma find_loop_only (a : list tlb_entry_t) (vpn : Z) (n m : nat)
    (e : tlb_entry_t) :
  (m < n)%nat -> a !! m = Some e -> holds vpn e = true ->
  (forall j e', j <> m -> a !! j = Some e' -> holds vpn e' = false) ->
  find_loop a vpn n 0 = Z.of_nat m.
Proof.
  intros Hm Hl Hh Hothers.
  destruct (find_loop_spec a vpn n 0)
    as [[_ Hall]|(m' & e' & Hr & Hm' & Hl' & Hh' & _)];
    change (Z.of_nat 0) with 0 in *.
  - rewrite (Hall m e) in Hh; [done|lia|done].
  - rewrite Hr. destruct (decide (m' = m)) as [->|Hne]; [done|].
    rewrite (Hothers m' e' Hne Hl') in Hh'. done.
Qed.

(** The scan depends only on which slots hold [vpn]. *)
Lemma find_loop_ext (a b : list tlb_entry_t) (vpn : Z) (n : nat) (i : Z) :
  (forall j, holds vpn (entry_at a j) = holds vpn (entry_at b j)) ->
  find_loop a vpn n i = find_loop b vpn n i.
Proof.
  intros Hab. revert i. induction n as [|n IH]; intros i; simpl; [done|].
  by rewrite Hab, IH.
Qed.

Lemma free_loop_spec (a : list tlb_entry_t) (n k : nat) :
  match free_loop a n (Z.of_nat k) with
  | Some r =>
      exists m : nat, r = Z.of_nat m /\ (k <= m < k + n)%nat /\
        valid (entry_at a (Z.of_nat m)) = false /\
        forall j : nat, (k <= j < m)%nat ->
                        valid (entry_at a (Z.of_nat j)) = true
  | None =>
      forall j : nat, (k <= j < k + n)%nat ->
                      valid (entry_at a (Z.of_nat j)) = true
  end.
Proof.
  revert k. induction n as [|n IH]; intros k; simpl.
  - intros j Hj. lia.
  - destruct (valid (entry_at a (Z.of_nat k))) eqn:Hk; simpl.
    + replace (Z.of_nat k + 1) with (Z.of_nat (S k)) by lia.
      specialize (IH (S k)).
      destruct (free_loop a n (Z.of_nat (S k))) as [r|].
      * destruct IH as (m & -> & Hm & Hinv & Hall).
        exists m. split; [done|]. split; [lia|]. split; [done|].
        intros j Hj. destruct (decide (j = k)) as [->|Hne]; [done|].
        apply Hall. lia.
      * intros j Hj. destruct (decide (j = k)) as [->|Hne]; [done|].
        apply IH. lia.
    + exists k. split; [done|]. split; [lia|]. split; [done|].
      intros j Hj. lia.
Qed.

Lemma lru_loop_spec (a : list tlb_entry_t) (n k v : nat) :
  first_lru a k v ->
  exists m : nat,
    lru_loop a n (Z.of_nat k) (Z.of_nat v)
      (last_access (entry_at a (Z.of_nat v))) = Z.of_nat m /\
    first_lru a (k + n) m.
Proof.
  revert k v. induction n as [|n IH]; intros k v Hv; simpl.
  - exists v. split; [done|]. by rewrite Nat.add_0_r.
  - destruct Hv as [Hvk Hmin].
    replace (Z.of_nat k + 1) with (Z.of_nat (S k)) by lia.
    replace (k + S n)%nat with (S k + n)%nat by lia.
    destruct (last_access (entry_at a (Z.of_nat k)) <?
              last_access (entry_at a (Z.of_nat v))) eqn:Hlt.
    + apply Z.ltb_lt in Hlt. apply IH. split; [lia|].
      intros j Hj. destruct (decide (j = k)) as [->|Hne].
      * split; [lia|lia].
      * destruct (Hmin j) as [Hle _]; [lia|]. split; [lia|]. intros _. lia.
    + apply Z.ltb_ge in Hlt. apply IH. split; [lia|].
      intros j Hj. destruct (decide (j = k)) as [->|Hne].
      * split; [lia|]. intros Hkv. lia.
      * apply Hmin. lia.
Qed.

Lemma free_or_full (a : list tlb_entry_t) (size : nat) :
  (exists j : nat, (j < size)%nat /\
                   valid (entry_at a (Z.of_nat j)) = false) \/
  (forall j : nat, (j < size)%nat ->
                   valid (entry_at a (Z.of_nat j)) = true).
Proof.
  pose proof (free_loop_spec a size 0) as Hfree.
  change (Z.of_nat 0) with 0 in Hfree.
  destruct (free_loop a size 0) as [r|].
  - destruct Hfree as (m & _ & Hm & Hinv & _). left. exists m.
    split; [lia|done].
  - right. intros j Hj. apply Hfree. lia.
Qed.

(** Victim selection on a level of [size] slots. *)
Lemma choose_victim_spec (a : list tlb_entry_t) (size : nat) :
  (0 < size)%nat ->
  exists m : nat, choose_victim a size = Z.of_nat m /\
    ((exists j : nat, (j < size)%nat /\
                      valid (entry_at a (Z.of_nat j)) = false) ->
     first_free a size m) /\
    ((forall j : nat, (j < size)%nat ->
                      valid (entry_at a (Z.of_nat j)) = true) ->
     first_lru a size m).
Proof.
  intros Hsz. unfold choose_victim.
  pose proof (free_loop_spec a size 0) as Hfree.
  change (Z.of_nat 0) with 0 in Hfree.
  destruct (free_loop a size 0) as [r|].
  - destruct Hfree as (m & -> & Hm & Hinv & Hall).
    exists m. split; [done|]. split.
    + intros _. split; [lia|]. split; [done|]. intros j Hj. apply Hall. lia.
    + intros Hval. rewrite Hval in Hinv by lia. discriminate.
  - destruct (lru_loop_spec a (size - 1) 1 0) as (m & Hm & Hlru).
    { split; [lia|]. intros j Hj. assert (j = 0%nat) as -> by lia.
      split; [lia|]. intros. lia. }
    exists m. split; [exact Hm|].
    replace (1 + (size - 1))%nat with size in Hlru by lia. split.
    + intros (j & Hj & Hinv). rewrite Hfree in Hinv by lia. discriminate.
    + intros _. exact Hlru.
Qed.

Lemma choose_victim_range (a : list tlb_entry_t) (size : nat) :
  (0 < size)%nat ->
  exists m : nat, choose_victim a size = Z.of_nat m /\ (m < size)%nat.
Proof.
  intros Hsz. destruct (choose_victim_spec a size Hsz) as (m & Hm & Hf & Hl).
  exists m. split; [done|].
  destruct (free_or_full a size) as [Hex|Hall].
  - by destruct (Hf Hex).
  - by destruct (Hl Hall).
Qed.

Lemma choose_victim_nonneg (a : list tlb_entry_t) (size : nat) :
  0 <= choose_victim a size.
Proof.
  destruct size as [|n]; [done|].
  destruct (choose_victim_range a (S n)) as (m & -> & _); lia.
Qed.

(** ** Slot updates and the level predicates *)

Lemma unique_vpn_upd f (a : list tlb_entry_t) (i : Z) :
  (forall e, a !! Z.to_nat i = Some e -> valid (f e) = true ->
             valid e = true /\
             virtual_page_number (f e) = virtual_page_number e) ->
  unique_vpn a -> unique_vpn (entry_upd f a i).
Proof.
  intros Hf Hu j k e1 e2. rewrite !lookup_entry_upd.
  destruct (decide (Z.to_nat i = j)) as [<-|Hj];
    destruct (decide (Z.to_nat i = k)) as [<-|Hk]; [done|..].
  - destruct (a !! Z.to_nat i) as [e|] eqn:He; [|done].
    simpl. intros [= <-] H2 V1 V2 Hvpn.
    destruct (Hf e eq_refl V1) as [Ve Hsame].
    apply (Hu _ _ e e2 He H2 Ve V2). congruence.
  - destruct (a !! Z.to_nat i) as [e|] eqn:He; [|done].
    simpl. intros H1 [= <-] V1 V2 Hvpn.
    destruct (Hf e eq_refl V2) as [Ve Hsame].
    apply (Hu _ _ e1 e H1 He V1 Ve). congruence.
  - apply Hu.
Qed.

Lemma invalid_clean_upd f (a : list tlb_entry_t) (i : Z) :
  (forall e, a !! Z.to_nat i = Some e -> valid (f e) = false ->
             dirty (f e) = false /\ last_access (f e) = 0) ->
  invalid_clean a -> invalid_clean (entry_upd f a i).
Proof.
  intros Hf Hc j e. rewrite lookup_entry_upd.
  destruct (decide (Z.to_nat i = j)) as [<-|Hj]; [|apply Hc].
  destruct (a !! Z.to_nat i) as [e0|] eqn:He; [|done].
  simpl. intros [= <-]. by apply Hf.
Qed.

Lemma level_ok_upd f (size : nat) (a : list tlb_entry_t) (i : Z) :
  (forall e, a !! Z.to_nat i = Some e ->
     (valid (f e) = true ->
        valid e = true /\
        virtual_page_number (f e) = virtual_page_number e) /\
     (valid (f e) = false ->
        dirty (f e) = false /\ last_access (f e) = 0)) ->
  level_ok size a -> level_ok size (entry_upd f a i).
Proof.
  intros Hf (Hlen & Hu & Hc). split; [|split].
  - by rewrite length_entry_upd.
  - apply unique_vpn_upd; [|done]. intros e He. by apply Hf.
  - apply invalid_clean_upd; [|done]. intros e He. by apply Hf.
Qed.

Lemma level_ok_reset (size : nat) (a : list tlb_entry_t) (i : Z) :
  level_ok size a -> level_ok size (entry_upd reset_entry a i).
Proof. apply level_ok_upd. intros e _. simpl. split; [done|]. done. Qed.

Lemma level_ok_touch (size : nat) (a : list tlb_entry_t) (vpn : Z)
    (op : op_t) (t : Z) :
  0 <= find_loop a vpn size 0 ->
  level_ok size a ->
  level_ok size (entry_upd (touch_entry op t) a (find_loop a vpn size 0)).
Proof.
  intros Hfound. apply level_ok_upd. intros e He.
  destruct (find_loop_spec a vpn size 0)
    as [[Hr _]|(m & e' & Hr & _ & Hl & Hh & _)];
    change (Z.of_nat 0) with 0 in Hr; [lia|].
  rewrite Hr, Nat2Z.id in He. rewrite Hl in He. injection He as <-.
  apply holds_true in Hh as [Hv _]. simpl. rewrite Hv. split; [done|done].
Qed.

Lemma level_ok_replicate (size : nat) :
  level_ok size (replicate size zero_entry).
Proof.
  split; [apply length_replicate|]. split.
  - intros i j e1 e2 H1 _ V1. apply lookup_replicate in H1 as [-> _].
    discriminate.
  - intros i e H _. apply lookup_replicate in H as [-> _]. done.
Qed.

(** *** The two branches of an insertion *)

Lemma insert_array_fresh (a : list tlb_entry_t) (size : nat)
    (vpn ppn : Z) (d : bool) (t : Z) :
  length a = size -> (0 < size)%nat -> absent vpn a ->
  exists m : nat,
    choose_victim a size = Z.of_nat m /\ (m < size)%nat /\
    insert_array a size vpn ppn d t =
      entry_upd (fill_entry vpn ppn d t)
        (entry_upd reset_entry a (Z.of_nat m)) (Z.of_nat m) /\
    insert_array a size vpn ppn d t !! m = Some (mk_entry true d t vpn ppn) /\
    find_loop (insert_array a size vpn ppn d t) vpn size 0 = Z.of_nat m.
Proof.
  intros Hlen Hsz Ha.
  destruct (choose_victim_range a size Hsz) as (m & Hm & Hlt).
  assert (Heq : insert_array a size vpn ppn d t =
      entry_upd (fill_entry vpn ppn d t)
        (entry_upd reset_entry a (Z.of_nat m)) (Z.of_nat m)).
  { unfold insert_array.
    rewrite (find_absent a vpn size Ha).
    change (0 <=? -1) with false. cbv iota zeta. by rewrite Hm. }
  assert (Hlk : insert_array a size vpn ppn d t !! m =
                Some (mk_entry true d t vpn ppn)).
  { rewrite Heq, !lookup_entry_upd, Nat2Z.id.
    destruct (decide (m = m)); [|done].
    destruct (lookup_lt_is_Some_2 a m) as [e0 He]; [lia|]. by rewrite He. }
  exists m. split; [done|]. split; [done|]. split; [done|]. split; [done|].
  apply (find_loop_only _ _ _ _ _ Hlt Hlk).
  - apply holds_true. by split.
  - intros j e' Hj. rewrite Heq, !lookup_entry_upd, Nat2Z.id.
    destruct (decide (m = j)); [congruence|]. apply Ha.
Qed.

Lemma insert_array_inplace (a : list tlb_entry_t) (size : nat)
    (vpn ppn : Z) (d : bool) (t : Z) (m : nat) :
  find_loop a vpn size 0 = Z.of_nat m ->
  insert_array a size vpn ppn d t =
    entry_upd (refresh_entry ppn d t) a (Z.of_nat m) /\
  find_loop (insert_array a size vpn ppn d t) vpn size 0 = Z.of_nat m /\
  insert_array a size vpn ppn d t !! m =
    Some (refresh_entry ppn d t (entry_at a (Z.of_nat m))) /\
  holds vpn (entry_at a (Z.of_nat m)) = true.
Proof.
  intros Hr.
  assert (Heq : insert_array a size vpn ppn d t =
                entry_upd (refresh_entry ppn d t) a (Z.of_nat m)).
  { unfold insert_array. rewrite Hr.
    assert (Hle : (0 <=? Z.of_nat m) = true) by (apply Z.leb_le; lia).
    by rewrite Hle. }
  destruct (find_loop_spec a vpn size 0)
    as [[Hr' _]|(m' & e & Hr' & _ & Hl & Hh & _)];
    change (Z.of_nat 0) with 0 in *; [lia|].
  assert (m' = m) as -> by lia.
  split; [done|]. split; [|split].
  - rewrite <- Hr. rewrite Heq. apply find_loop_ext. intros j.
    unfold entry_at. rewrite lookup_entry_upd, Nat2Z.id.
    destruct (decide (m = Z.to_nat j)) as [<-|]; [|done].
    rewrite Hl. simpl. unfold holds. simpl.
    apply holds_true in Hh as [Hv _]. by rewrite Hv.
  - rewrite Heq, lookup_entry_upd, Nat2Z.id.
    destruct (decide (m = m)); [|done].
    by rewrite (entry_at_lookup _ _ _ Hl), Hl.
  - by rewrite (entry_at_lookup _ _ _ Hl).
Qed.

(** Inserting one VPN does not bring another one in. *)
Lemma insert_array_absent (a : list tlb_entry_t) (size : nat)
    (vpn vpn' ppn : Z) (d : bool) (t : Z) :
  vpn' <> vpn -> absent vpn a ->
  absent vpn (insert_array a size vpn' ppn d t).
Proof.
  intros Hne Ha i e. unfold insert_array.
  destruct (find_loop_spec a vpn' size 0)
    as [[Hr _]|(m & e' & Hr & _ & Hl & Hh & _)];
    change (Z.of_nat 0) with 0 in *; rewrite Hr.
  - change (0 <=? -1) with false. cbv iota zeta.
    rewrite !lookup_entry_upd.
    destruct (decide (Z.to_nat (choose_victim a size) = i)); [|apply Ha].
    destruct (a !! i); [|done]. simpl. intros [= <-].
    apply holds_false. simpl. intros [_ Hvpn]. done.
  - assert (Hle : (0 <=? Z.of_nat m) = true) by (apply Z.leb_le; lia).
    rewrite Hle, lookup_entry_upd, Nat2Z.id.
    destruct (decide (m = i)) as [<-|]; [|apply Ha].
    rewrite Hl. simpl. intros [= <-]. apply holds_false. simpl.
    apply holds_true in Hh as [_ Hh]. intros [_ Hvpn]. congruence.
Qed.

Lemma level_ok_insert (size : nat) (a : list tlb_entry_t)
    (vpn ppn : Z) (d : bool) (t : Z) :
  level_ok size a -> level_ok size (insert_array a size vpn ppn d t).
Proof.
  intros Hok. unfold insert_array.
  destruct (find_loop_spec a vpn size 0)
    as [[Hr Hnone]|(m & e' & Hr & _ & Hl & Hh & _)];
    change (Z.of_nat 0) with 0 in Hr; rewrite Hr.
  - change (0 <=? -1) with false. cbv iota.
    pose proof (level_ok_reset size a (choose_victim a size) Hok)
      as (Hlen & Hu & Hc).
    split; [by rewrite length_entry_upd|]. split.
    + destruct Hok as (Hlen0 & Hu0 & _).
      assert (Hother : forall k e, a !! k = Some e -> holds vpn e = false).
      { intros k e Hk. apply (Hnone k e); [|done].
        apply lookup_lt_Some in Hk. lia. }
      intros i j e1 e2. rewrite !lookup_entry_upd.
      destruct (decide (Z.to_nat (choose_victim a size) = i)) as [<-|Hi];
        destruct (decide (Z.to_nat (choose_victim a size) = j)) as [<-|Hj];
        [done|..].
      * destruct (a !! Z.to_nat (choose_victim a size)); [|done].
        simpl. intros [= <-] H2 _ V2 Hvpn. simpl in Hvpn.
        apply Hother in H2. apply holds_false in H2.
        destruct H2. by split.
      * destruct (a !! Z.to_nat (choose_victim a size)); [|done].
        simpl. intros H1 [= <-] V1 _ Hvpn. simpl in Hvpn.
        apply Hother in H1. apply holds_false in H1.
        destruct H1. by split.
      * apply Hu0.
    + apply invalid_clean_upd; [|done]. intros e _. simpl. discriminate.
  - assert (Hle : (0 <=? Z.of_nat m) = true) by (apply Z.leb_le; lia).
    rewrite Hle.
    apply level_ok_upd; [|done]. intros e He.
    rewrite Nat2Z.id, Hl in He. injection He as <-.
    apply holds_true in Hh as [Hv _]. simpl. split; [done|discriminate].
Qed.

(** ** The functions of the module, one equation each *)

Lemma emits_nil (s : state) : emits [] s = s.
Proof. destruct s. unfold emits. simpl. by rewrite app_nil_r. Qed.

Lemma l2_evict_entry_eq (idx : Z) (s : state) :
  0 <= idx ->
  l2_evict_entry idx s =
  set_tlb_l2 (entry_upd reset_entry (tlb_l2 s) idx)
    (emits (l2_evict_writeback (tlb_l2 s) idx) s).
Proof.
  intros Hidx. unfold l2_evict_entry, l2_evict_writeback.
  assert (Hlt : (idx <? 0) = false) by (apply Z.ltb_ge; lia). rewrite Hlt.
  destruct (valid (entry_at (tlb_l2 s) idx) && dirty (entry_at (tlb_l2 s) idx));
    [reflexivity|].
  by rewrite emits_nil.
Qed.

Lemma l2_insert_eq (vpn ppn : Z) (d : bool) (s : state) :
  l2_insert vpn ppn d s =
  set_tlb_l2
    (insert_array (tlb_l2 s) TLB_L2_SIZE vpn ppn d (wrap64 (lru_tick2 s + 1)))
    (set_lru_tick2 (wrap64 (lru_tick2 s + 1))
       (emits (l2_insert_writeback (tlb_l2 s) vpn) s)).
Proof.
  unfold l2_insert, insert_array, l2_insert_writeback, l2_find,
    l2_choose_victim.
  destruct (0 <=? find_loop (tlb_l2 s) vpn TLB_L2_SIZE 0).
  - by rewrite emits_nil.
  - rewrite l2_evict_entry_eq by apply choose_victim_nonneg. reflexivity.
Qed.

Lemma l1_insert_spill_l1 (vpn : Z) (s : state) :
  tlb_l1 (l1_insert_spill vpn s) = tlb_l1 s /\
  lru_tick (l1_insert_spill vpn s) = lru_tick s.
Proof.
  unfold l1_insert_spill. repeat case_match; try done.
  by rewrite l2_insert_eq.
Qed.

Lemma l1_insert_eq (vpn ppn : Z) (d : bool) (s : state) :
  l1_insert vpn ppn d s =
  set_tlb_l1
    (insert_array (tlb_l1 s) TLB_L1_SIZE vpn ppn d (wrap64 (lru_tick s + 1)))
    (set_lru_tick (wrap64 (lru_tick s + 1)) (l1_insert_spill vpn s)).
Proof.
  unfold l1_insert, insert_array, l1_insert_spill, l1_find, l1_choose_victim,
    l1_evict_entry.
  destruct (0 <=? find_loop (tlb_l1 s) vpn TLB_L1_SIZE 0); [reflexivity|].
  assert (Hlt : (choose_victim (tlb_l1 s) TLB_L1_SIZE <? 0) = false)
    by (apply Z.ltb_ge, choose_victim_nonneg).
  rewrite Hlt.
  destruct (valid (entry_at (tlb_l1 s) (choose_victim (tlb_l1 s) TLB_L1_SIZE))
            && dirty (entry_at (tlb_l1 s)
                               (choose_victim (tlb_l1 s) TLB_L1_SIZE)));
    [|reflexivity].
  rewrite l2_insert_eq. reflexivity.
Qed.

Lemma invalidate_l1_loop_eq (vpn : Z) (n k : nat) (s : state) :
  invalidate_l1_loop vpn n (Z.of_nat k) s =
  if 0 <=? find_loop (tlb_l1 s) vpn n (Z.of_nat k)
  then invalidate_l1_slot (find_loop (tlb_l1 s) vpn n (Z.of_nat k)) s
  else s.
Proof.
  revert k. induction n as [|n IH]; intros k; simpl; [done|].
  destruct (holds vpn (entry_at (tlb_l1 s) (Z.of_nat k))).
  - assert (Hle : (0 <=? Z.of_nat k) = true) by (apply Z.leb_le; lia).
    by rewrite Hle.
  - replace (Z.of_nat k + 1) with (Z.of_nat (S k)) by lia. apply IH.
Qed.

Lemma invalidate_l2_loop_eq (vpn : Z) (n k : nat) (s : state) :
  invalidate_l2_loop vpn n (Z.of_nat k) s =
  if 0 <=? find_loop (tlb_l2 s) vpn n (Z.of_nat k)
  then invalidate_l2_slot (find_loop (tlb_l2 s) vpn n (Z.of_nat k)) s
  else s.
Proof.
  revert k. induction n as [|n IH]; intros k; simpl; [done|].
  destruct (holds vpn (entry_at (tlb_l2 s) (Z.of_nat k))).
  - assert (Hle : (0 <=? Z.of_nat k) = true) by (apply Z.leb_le; lia).
    by rewrite Hle.
  - replace (Z.of_nat k + 1) with (Z.of_nat (S k)) by lia. apply IH.
Qed.

(** [tlb_invalidate] with its two loops resolved to the slot they stop
    at. *)
Lemma tlb_invalidate_eq (vpn : Z) (s : state) :
  tlb_invalidate vpn s =
  let s0 := increment_time (TLB_L1_LATENCY_NS + TLB_L2_LATENCY_NS) s in
  let s1 := if 0 <=? l1_find vpn s0
            then invalidate_l1_slot (l1_find vpn s0) s0 else s0 in
  if 0 <=? l2_find vpn s1
  then invalidate_l2_slot (l2_find vpn s1) s1 else s1.
Proof.
  unfold tlb_invalidate.
  rewrite (invalidate_l2_loop_eq vpn TLB_L2_SIZE 0).
  rewrite (invalidate_l1_loop_eq vpn TLB_L1_SIZE 0).
  reflexivity.
Qed.

(** ** Preservation of [tlb_ok] *)

Lemma tlb_ok_l2_insert (vpn ppn : Z) (d : bool) (s : state) :
  tlb_ok s -> tlb_ok (l2_insert vpn ppn d s).
Proof.
  intros [H1 H2]. rewrite l2_insert_eq. split; simpl; [done|].
  by apply level_ok_insert.
Qed.

Lemma tlb_ok_l1_insert_spill (vpn : Z) (s : state) :
  tlb_ok s -> tlb_ok (l1_insert_spill vpn s).
Proof.
  intros Hok. unfold l1_insert_spill. repeat case_match; try done.
  by apply tlb_ok_l2_insert.
Qed.

Lemma tlb_ok_l1_insert (vpn ppn : Z) (d : bool) (s : state) :
  tlb_ok s -> tlb_ok (l1_insert vpn ppn d s).
Proof.
  intros Hok. rewrite l1_insert_eq.
  destruct (tlb_ok_l1_insert_spill vpn s Hok) as [H1 H2].
  destruct (l1_insert_spill_l1 vpn s) as [Ha _].
  split; simpl; [|done]. apply level_ok_insert. destruct Hok. done.
Qed.

Lemma tlb_ok_invalidate_l1_slot (i : Z) (s : state) :
  tlb_ok s -> tlb_ok (invalidate_l1_slot i s).
Proof.
  intros Hok. unfold invalidate_l1_slot.
  destruct (dirty (entry_at (tlb_l1 s) i)).
  - destruct (tlb_ok_l2_insert
                (virtual_page_number (entry_at (tlb_l1 s) i))
                (physical_page_number (entry_at (tlb_l1 s) i)) true s Hok)
      as [H1 H2].
    split; simpl; [|done]. by apply level_ok_reset.
  - destruct Hok as [H1 H2]. split; simpl; [|done]. by apply level_ok_reset.
Qed.

Lemma tlb_ok_invalidate_l2_slot (i : Z) (s : state) :
  tlb_ok s -> tlb_ok (invalidate_l2_slot i s).
Proof.
  intros [H1 H2]. unfold invalidate_l2_slot.
  destruct (dirty (entry_at (tlb_l2 s) i)); split; simpl; try done;
    by apply level_ok_reset.
Qed.

Lemma tlb_ok_invalidate (vpn : Z) (s : state) :
  tlb_ok s -> tlb_ok (tlb_invalidate vpn s).
Proof.
  intros Hok. rewrite tlb_invalidate_eq. cbv zeta.
  assert (H0 : tlb_ok
                 (increment_time (TLB_L1_LATENCY_NS + TLB_L2_LATENCY_NS) s))
    by exact Hok.
  repeat case_match;
    auto using tlb_ok_invalidate_l1_slot, tlb_ok_invalidate_l2_slot.
Qed.

Lemma tlb_ok_init (s : state) : tlb_ok (tlb_init s).
Proof. split; apply level_ok_replicate. Qed.

Lemma tlb_ok_translate (va : Z) (op : op_t) (s : state) :
  tlb_ok s -> tlb_ok (snd (tlb_translate va op s)).
Proof.
  intros [H1 H2]. unfold tlb_translate. cbv zeta.
  destruct (0 <=? l1_find (va_to_vpn va) (increment_time TLB_L1_LATENCY_NS s))
    eqn:Hf1.
  - split; simpl; [|done]. apply level_ok_touch; [|done].
    by apply Z.leb_le in Hf1.
  - match goal with |- context [0 <=? l2_find ?v ?st] =>
      destruct (0 <=? l2_find v st) eqn:Hf2 end.
    + simpl. apply tlb_ok_l1_insert. split; simpl; [done|].
      apply level_ok_touch; [|done]. by apply Z.leb_le in Hf2.
    + simpl. apply tlb_ok_l2_insert, tlb_ok_l1_insert. by split.
Qed.

Lemma tlb_ok_step (o : operation) (s : state) :
  tlb_ok s -> tlb_ok (step o s).
Proof.
  destruct o; simpl; auto using tlb_ok_init, tlb_ok_translate,
    tlb_ok_invalidate.
Qed.

Lemma tlb_ok_run (ops : list operation) (s : state) :
  tlb_ok s -> tlb_ok (run ops s).
Proof.
  revert s. induction ops as [|o ops IH]; intros s Hok; [done|].
  simpl. apply IH. by apply tlb_ok_step.
Qed.

Lemma tlb_ok_initial : tlb_ok initial_state.
Proof. split; apply level_ok_replicate. Qed.

Lemma tlb_ok_reachable (s : state) : reachable s -> tlb_ok s.
Proof. intros [ops ->]. apply tlb_ok_run, tlb_ok_initial. Qed.

(** ** What a reset leaves in the slot *)

Lemma entry_at_upd_reset (a : list tlb_entry_t) (i : Z) :
  entry_at (entry_upd reset_entry a i) i = reset_entry (entry_at a i).
Proof.
  unfold entry_at. rewrite lookup_entry_upd.
  destruct (decide (Z.to_nat i = Z.to_nat i)); [|done].
  by destruct (a !! Z.to_nat i).
Qed.

Lemma absent_after_reset (a : list tlb_entry_t) (vpn : Z) (size : nat) :
  unique_vpn a -> 0 <= find_loop a vpn size 0 ->
  absent vpn (entry_upd reset_entry a (find_loop a vpn size 0)).
Proof.
  intros Hu Hf j e.
  destruct (find_loop_spec a vpn size 0)
    as [[Hr _]|(m & e' & Hr & _ & Hl & Hh & _)];
    change (Z.of_nat 0) with 0 in *; [lia|].
  rewrite Hr, lookup_entry_upd, Nat2Z.id.
  destruct (decide (m = j)) as [<-|Hne].
  - rewrite Hl. simpl. by intros [= <-].
  - intros Hj. apply holds_false. intros [Hv Hvpn]. apply Hne.
    apply holds_true in Hh as [Hv' Hvpn'].
    apply (Hu m j e' e Hl Hj Hv' Hv). congruence.
Qed.

(** After [tlb_invalidate vpn] no valid slot of either level holds
    [vpn]. *)
Lemma tlb_invalidate_gone (vpn : Z) (s : state) :
  tlb_ok s ->
  absent vpn (tlb_l1 (tlb_invalidate vpn s)) /\
  absent vpn (tlb_l2 (tlb_invalidate vpn s)).
Proof.
  intros Hok. rewrite tlb_invalidate_eq. cbv zeta.
  set (s0 := increment_time (TLB_L1_LATENCY_NS + TLB_L2_LATENCY_NS) s).
  assert (Hok0 : tlb_ok s0) by exact Hok.
  set (s1 := if 0 <=? l1_find vpn s0
             then invalidate_l1_slot (l1_find vpn s0) s0 else s0).
  assert (Hok1 : tlb_ok s1).
  { subst s1. destruct (0 <=? l1_find vpn s0);
      [by apply tlb_ok_invalidate_l1_slot|done]. }
  assert (Ha1 : absent vpn (tlb_l1 s1)).
  { subst s1. destruct (0 <=? l1_find vpn s0) eqn:Hf.
    - apply Z.leb_le in Hf. unfold invalidate_l1_slot.
      destruct Hok0 as [(_ & Hu & _) _].
      destruct (dirty (entry_at (tlb_l1 s0) (l1_find vpn s0))); simpl;
        [rewrite l2_insert_eq; simpl|]; by apply absent_after_reset.
    - apply Z.leb_gt in Hf. destruct Hok0 as [(Hlen & _) _].
      apply find_loop_none_absent. rewrite Hlen.
      pose proof (find_loop_ge (tlb_l1 s0) vpn TLB_L1_SIZE 0) as Hge.
      change (Z.of_nat 0) with 0 in Hge. unfold l1_find in Hf. lia. }
  destruct (0 <=? l2_find vpn s1) eqn:Hf.
  - apply Z.leb_le in Hf. unfold invalidate_l2_slot.
    destruct Hok1 as [_ (_ & Hu & _)].
    destruct (dirty (entry_at (tlb_l2 s1) (l2_find vpn s1))); simpl;
      (split; [done|by apply absent_after_reset]).
  - apply Z.leb_gt in Hf. destruct Hok1 as [_ (Hlen & _)].
    split; [done|].
    apply find_loop_none_absent. rewrite Hlen.
    pose proof (find_loop_ge (tlb_l2 s1) vpn TLB_L2_SIZE 0) as Hge.
    change (Z.of_nat 0) with 0 in Hge. unfold l2_find in Hf. lia.
Qed.

Lemma tlb_invalidate_l1_slot_reset (vpn : Z) (s : state) :
  0 <= l1_find vpn s ->
  tlb_l1 (tlb_invalidate vpn s) =
  entry_upd reset_entry (tlb_l1 s) (l1_find vpn s).
Proof.
  intros Hf. rewrite tlb_invalidate_eq. cbv zeta.
  set (s0 := increment_time (TLB_L1_LATENCY_NS + TLB_L2_LATENCY_NS) s).
  change (l1_find vpn s0) with (l1_find vpn s).
  assert (Hle : (0 <=? l1_find vpn s) = true) by (apply Z.leb_le; done).
  rewrite Hle.
  assert (H1 : tlb_l1 (invalidate_l1_slot (l1_find vpn s) s0) =
               entry_upd reset_entry (tlb_l1 s) (l1_find vpn s)).
  { unfold invalidate_l1_slot.
    destruct (dirty (entry_at (tlb_l1 s0) (l1_find vpn s))); simpl;
      [by rewrite l2_insert_eq|done]. }
  destruct (0 <=? l2_find vpn (invalidate_l1_slot (l1_find vpn s) s0));
    [|done].
  unfold invalidate_l2_slot.
  by destruct (dirty (entry_at (tlb_l2 _) _)).
Qed.

(** ** Calls made by the insert functions *)

Lemma length_insert_array (a : list tlb_entry_t) (size : nat)
    (vpn ppn : Z) (d : bool) (t : Z) :
  length (insert_array a size vpn ppn d t) = length a.
Proof.
  unfold insert_array. case_match; by rewrite ?length_entry_upd.
Qed.

Lemma l2_evict_writeback_sink (a : list tlb_entry_t) (idx : Z) :
  Forall is_writeback (l2_evict_writeback a idx) /\
  (length (l2_evict_writeback a idx) <= 1)%nat.
Proof.
  unfold l2_evict_writeback. case_match; simpl.
  - split; [|lia]. constructor; [by eexists|constructor].
  - split; [constructor|lia].
Qed.

Lemma l2_insert_writeback_sink (a : list tlb_entry_t) (vpn : Z) :
  Forall is_writeback (l2_insert_writeback a vpn) /\
  (length (l2_insert_writeback a vpn) <= 1)%nat.
Proof.
  unfold l2_insert_writeback. case_match.
  - split; [constructor|simpl; lia].
  - apply l2_evict_writeback_sink.
Qed.

(** What [l1_insert] does outside L1 when the VPN is new to both
    levels: statistics untouched, sink calls only, and the VPN still
    absent from L2. *)
Lemma l1_insert_spill_fresh (vpn : Z) (s : state) :
  absent vpn (tlb_l1 s) -> absent vpn (tlb_l2 s) ->
  counters (l1_insert_spill vpn s) = counters s /\
  (exists wbs, trace (l1_insert_spill vpn s) = trace s ++ wbs /\
               Forall is_writeback wbs) /\
  absent vpn (tlb_l2 (l1_insert_spill vpn s)) /\
  length (tlb_l2 (l1_insert_spill vpn s)) = length (tlb_l2 s).
Proof.
  intros Ha1 Ha2. unfold l1_insert_spill.
  assert (Hsame : counters s = counters s /\
    (exists wbs, trace s = trace s ++ wbs /\ Forall is_writeback wbs) /\
    absent vpn (tlb_l2 s) /\ length (tlb_l2 s) = length (tlb_l2 s)).
  { split; [done|]. split; [|done]. exists []. by rewrite app_nil_r. }
  destruct (0 <=? l1_find vpn s); [done|].
  set (e := entry_at (tlb_l1 s) (l1_choose_victim s)).
  destruct (valid e && dirty e) eqn:Hvd; [|done].
  apply andb_true_iff in Hvd as [Hv _].
  assert (Hne : virtual_page_number e <> vpn).
  { pose proof (choose_victim_nonneg (tlb_l1 s) TLB_L1_SIZE) as Hge.
    fold (l1_choose_victim s) in Hge.
    assert (Hk : l1_choose_victim s = Z.of_nat (Z.to_nat (l1_choose_victim s)))
      by lia.
    subst e. rewrite Hk in Hv |- *.
    apply entry_at_valid_lookup in Hv as Hl. apply Ha1 in Hl.
    apply holds_false in Hl. intros Heq. apply Hl. by split. }
  rewrite l2_insert_eq. simpl. split; [done|]. split; [|split].
  - eexists. split; [done|]. apply l2_insert_writeback_sink.
  - by apply insert_array_absent.
  - apply length_insert_array.
Qed.

(** After an insertion the level holds the VPN with the given PPN and
    stamp, dirty whenever the insertion was. *)
Lemma insert_array_holds (a : list tlb_entry_t) (size : nat)
    (vpn ppn : Z) (d : bool) (t : Z) :
  length a = size -> (0 < size)%nat ->
  exists (j : nat) (e : tlb_entry_t),
    find_loop (insert_array a size vpn ppn d t) vpn size 0 = Z.of_nat j /\
    insert_array a size vpn ppn d t !! j = Some e /\
    valid e = true /\ virtual_page_number e = vpn /\
    physical_page_number e = ppn /\ last_access e = t /\
    (d = true -> dirty e = true).
Proof.
  intros Hlen Hsz.
  destruct (find_loop_spec a vpn size 0)
    as [[Hr _]|(m & e' & Hr & _ & Hl & Hh & _)];
    change (Z.of_nat 0) with 0 in *.
  - assert (Ha : absent vpn a).
    { apply find_loop_none_absent. by rewrite Hlen. }
    destruct (insert_array_fresh a size vpn ppn d t Hlen Hsz Ha)
      as (m & _ & _ & _ & Hlk & Hfind).
    exists m, (mk_entry true d t vpn ppn). by repeat split.
  - destruct (insert_array_inplace a size vpn ppn d t m Hr)
      as (_ & Hfind & Hlk & Hh').
    exists m, (refresh_entry ppn d t (entry_at a (Z.of_nat m))).
    apply holds_true in Hh' as [_ Hvpn].
    repeat split; try done. simpl. intros ->. apply orb_true_r.
Qed.

(** ** Filling an empty level and the first eviction *)

Lemma find_present (a : list tlb_entry_t) (vpn : Z) (n i : nat)
    (e : tlb_entry_t) :
  (i < n)%nat -> a !! i = Some e -> holds vpn e = true ->
  0 <= find_loop a vpn n 0.
Proof.
  intros Hi Hl Hh.
  destruct (find_loop_spec a vpn n 0)
    as [[_ Hall]|(m & e' & Hr & _)]; change (Z.of_nat 0) with 0 in *.
  - rewrite (Hall i e) in Hh; [done|lia|done].
  - lia.
Qed.

Lemma filled_absent (a : list tlb_entry_t) (size : nat) (vs : list Z)
    (t0 v : Z) :
  filled a size vs t0 -> v ∉ vs -> absent v a.
Proof.
  intros (Hlen & _ & Hin & Hout) Hv i e Hl.
  apply holds_false. intros [Hval Hvpn].
  destruct (decide (i < length vs)%nat) as [Hi|Hi].
  - destruct (lookup_lt_is_Some_2 vs i Hi) as [w Hw].
    destruct (Hin i w Hw) as (e' & Hl' & _ & Hvpn' & _).
    rewrite Hl in Hl'. injection Hl' as <-.
    apply Hv. apply list_elem_of_lookup. exists i. congruence.
  - rewrite (Hout i e) in Hval; [done|lia|done].
Qed.

Lemma filled_victim_free (a : list tlb_entry_t) (size : nat) (vs : list Z)
    (t0 : Z) :
  filled a size vs t0 -> (length vs < size)%nat ->
  choose_victim a size = Z.of_nat (length vs).
Proof.
  intros (Hlen & _ & Hin & Hout) Hlt.
  destruct (choose_victim_spec a size) as (m & Hm & Hfree & _); [lia|].
  rewrite Hm. f_equal.
  destruct (lookup_lt_is_Some_2 a (length vs)) as [e He]; [lia|].
  destruct Hfree as (Hm1 & Hm2 & Hm3).
  { exists (length vs). split; [done|].
    rewrite (entry_at_lookup _ _ _ He). by apply (Hout (length vs)). }
  destruct (decide (m < length vs)%nat) as [Hlo|Hlo].
  - destruct (lookup_lt_is_Some_2 vs m Hlo) as [w Hw].
    destruct (Hin m w Hw) as (e' & Hl' & Hv' & _).
    rewrite (entry_at_lookup _ _ _ Hl') in Hm2. congruence.
  - destruct (decide (m = length vs)) as [|Hne]; [done|].
    specialize (Hm3 (length vs)).
    rewrite (entry_at_lookup _ _ _ He), (Hout _ _ (le_n _) He) in Hm3.
    assert (false = true) by (apply Hm3; lia). done.
Qed.

Lemma filled_victim_lru (a : list tlb_entry_t) (size : nat) (vs : list Z)
    (t0 : Z) :
  filled a size vs t0 -> length vs = size -> (0 < size)%nat ->
  choose_victim a size = 0.
Proof.
  intros (Hlen & _ & Hin & Hout) Hfull Hsz.
  assert (Hslot : forall i : nat, (i < size)%nat ->
            valid (entry_at a (Z.of_nat i)) = true /\
            last_access (entry_at a (Z.of_nat i)) = t0 + 1 + Z.of_nat i).
  { intros i Hi. destruct (lookup_lt_is_Some_2 vs i) as [w Hw]; [lia|].
    destruct (Hin i w Hw) as (e & Hl & Hv & _ & Hla).
    by rewrite (entry_at_lookup _ _ _ Hl). }
  destruct (choose_victim_spec a size Hsz) as (m & Hm & _ & Hlru).
  destruct Hlru as [Hm1 Hm2]; [intros j Hj; by apply Hslot|].
  rewrite Hm. destruct (Hm2 0%nat Hsz) as [Hle _].
  destruct (Hslot m Hm1) as [_ Hlam]. destruct (Hslot 0%nat Hsz) as [_ Hla0].
  rewrite Hlam, Hla0 in Hle. lia.
Qed.

Lemma filled_insert (a : list tlb_entry_t) (size : nat) (vs : list Z)
    (t0 v ppn : Z) (d : bool) :
  filled a size vs t0 -> (length vs < size)%nat -> v ∉ vs ->
  filled (insert_array a size v ppn d (t0 + 1 + Z.of_nat (length vs)))
    size (vs ++ [v]) t0.
Proof.
  intros Hfill Hlt Hv.
  pose proof (filled_absent _ _ _ _ _ Hfill Hv) as Ha.
  pose proof (filled_victim_free _ _ _ _ Hfill Hlt) as Hvic.
  destruct Hfill as (Hlen & _ & Hin & Hout).
  destruct (insert_array_fresh a size v ppn d
              (t0 + 1 + Z.of_nat (length vs)) Hlen) as
    (m & Hm & _ & Heq & Hlk & _); [lia|done|].
  assert (m = length vs) as -> by lia.
  split; [by rewrite length_insert_array|].
  split; [rewrite length_app; simpl; lia|]. split.
  - intros i w Hw. destruct (decide (i = length vs)) as [->|Hne].
    + rewrite lookup_app_r, Nat.sub_diag in Hw by lia. injection Hw as <-.
      eexists. split; [exact Hlk|]. done.
    + assert (Hi : (i < length vs)%nat).
      { apply lookup_lt_Some in Hw. rewrite length_app in Hw. simpl in Hw.
        lia. }
      rewrite lookup_app_l in Hw by done.
      rewrite Heq, !lookup_entry_upd, Nat2Z.id.
      destruct (decide (length vs = i)); [lia|]. by apply Hin.
  - intros i e. rewrite length_app. simpl. intros Hi.
    rewrite Heq, !lookup_entry_upd, Nat2Z.id.
    destruct (decide (length vs = i)); [lia|]. apply Hout. lia.
Qed.

Lemma insert_all_filled (size : nat) (t0 : Z) (xs : list insert_req) :
  forall (a : list tlb_entry_t) (vs : list Z),
  filled a size vs t0 -> (length vs + length xs <= size)%nat ->
  NoDup (vs ++ map req_vpn xs) ->
  0 <= t0 -> t0 + Z.of_nat size < 2 ^ 64 ->
  filled (insert_all_array a size (t0 + Z.of_nat (length vs)) xs) size
    (vs ++ map req_vpn xs) t0.
Proof.
  induction xs as [|x xs IH]; intros a vs Hfill Hlen Hnd Ht0 Hbound.
  - simpl. by rewrite app_nil_r.
  - simpl in Hlen. cbn [insert_all_array map].
    assert (Hw : wrap64 (t0 + Z.of_nat (length vs) + 1) =
                 t0 + 1 + Z.of_nat (length vs)).
    { unfold wrap64. rewrite Z.mod_small; lia. }
    rewrite Hw.
    assert (Hnd' : NoDup ((vs ++ [req_vpn x]) ++ map req_vpn xs))
      by (by rewrite <- app_assoc).
    assert (Hfresh : req_vpn x ∉ vs).
    { apply NoDup_app in Hnd as (_ & Hdisj & _).
      intros Hin. apply (Hdisj _ Hin). constructor. }
    replace (vs ++ req_vpn x :: map req_vpn xs)
      with ((vs ++ [req_vpn x]) ++ map req_vpn xs)
      by (by rewrite <- app_assoc).
    replace (t0 + 1 + Z.of_nat (length vs))
      with (t0 + Z.of_nat (length (vs ++ [req_vpn x]))) at 2
      by (rewrite length_app; simpl; lia).
    apply IH; [|rewrite length_app; simpl; lia|done|done|done].
    apply filled_insert; [done|lia|done].
Qed.

Lemma filled_empty (a : list tlb_entry_t) (t0 : Z) :
  all_invalid a -> filled a (length a) [] t0.
Proof.
  intros Hinv. split; [done|]. split; [simpl; lia|]. split.
  - intros i v Hv. done.
  - intros i e _. apply Hinv.
Qed.

(** On a level of [size] slots, all invalid at the start, [size]
    insertions of distinct VPNs evict nothing, and one more evicts the
    first of them and no other. *)
Lemma first_in_first_out (size : nat) (a : list tlb_entry_t) (t0 t : Z)
    (xs : list insert_req) (x : insert_req) :
  (0 < size)%nat -> length a = size -> all_invalid a ->
  length xs = size -> NoDup (map req_vpn (xs ++ [x])) ->
  0 <= t0 -> t0 + Z.of_nat size < 2 ^ 64 ->
  let aN := insert_all_array a size t0 xs in
  let a' := insert_array aN size (req_vpn x) (req_ppn x) (req_dirty x) t in
  (forall y, y ∈ xs -> 0 <= find_loop aN (req_vpn y) size 0) /\
  (exists x0 rest, xs = x0 :: rest /\
     find_loop a' (req_vpn x0) size 0 = -1 /\
     forall y, y ∈ rest ++ [x] -> 0 <= find_loop a' (req_vpn y) size 0).
Proof.
  intros Hsz Hlen Hinv Hxs Hnd Ht0 Hbound aN a'.
  rewrite map_app in Hnd. simpl in Hnd.
  assert (Hfill : filled aN size (map req_vpn xs) t0).
  { pose proof (insert_all_filled size t0 xs a []) as H. simpl in H.
    rewrite Z.add_0_r in H. apply H; try done.
    - rewrite <- Hlen. by apply filled_empty.
    - lia.
    - by apply NoDup_app in Hnd as [? _]. }
  pose proof Hfill as (HlenN & _ & Hin & _).
  assert (Hslot : forall (i : nat) y, xs !! i = Some y ->
            exists e, aN !! i = Some e /\ holds (req_vpn y) e = true).
  { intros i y Hy.
    destruct (Hin i (req_vpn y)) as (e & Hl & Hv & Hvpn & _).
    { by rewrite list_lookup_fmap, Hy. }
    exists e. split; [done|]. apply holds_true. by split. }
  split.
  - intros y Hy. apply list_elem_of_lookup in Hy as [i Hi].
    destruct (Hslot i y Hi) as (e & Hl & Hh).
    apply (find_present _ _ _ i e); [|done|done].
    apply lookup_lt_Some in Hi. lia.
  - destruct xs as [|x0 rest]; [simpl in Hxs; lia|].
    exists x0, rest. split; [done|].
    assert (Hfresh : req_vpn x ∉ map req_vpn (x0 :: rest)).
    { apply NoDup_app in Hnd as (_ & Hdisj & _).
      intros Hin'. apply (Hdisj _ Hin'). constructor. }
    assert (Hndxs : NoDup (map req_vpn (x0 :: rest)))
      by (by apply NoDup_app in Hnd as [? _]).
    pose proof (filled_absent _ _ _ _ _ Hfill Hfresh) as Ha.
    assert (Hvic : choose_victim aN size = 0).
    { apply (filled_victim_lru _ _ _ _ Hfill); [|done].
      by rewrite length_map. }
    destruct (insert_array_fresh aN size (req_vpn x) (req_ppn x)
                (req_dirty x) t HlenN Hsz Ha)
      as (m & Hm & _ & Heq & Hlk & _).
    assert (m = 0%nat) as -> by lia. fold a' in Heq, Hlk.
    assert (Hkeep : forall i : nat, i <> 0%nat -> a' !! i = aN !! i).
    { intros i Hi. rewrite Heq, !lookup_entry_upd.
      change (Z.to_nat (Z.of_nat 0)) with 0%nat.
      by destruct (decide (0%nat = i)). }
    split.
    + apply find_absent. intros i e Hl. apply holds_false. intros [Hv Hvpn].
      destruct (decide (i = 0%nat)) as [->|Hne].
      * rewrite Hlk in Hl. injection Hl as <-. simpl in Hvpn.
        apply Hfresh. rewrite Hvpn. simpl. constructor.
      * rewrite (Hkeep i Hne) in Hl.
        assert (Hi : (i < length (map req_vpn (x0 :: rest)))%nat).
        { apply lookup_lt_Some in Hl. rewrite length_map. lia. }
        destruct (lookup_lt_is_Some_2 _ i Hi) as [w Hw].
        destruct (Hin i w Hw) as (e' & Hl' & _ & Hvpn' & _).
        rewrite Hl in Hl'. injection Hl' as <-.
        apply Hne.
        apply (NoDup_lookup _ i 0%nat w Hndxs Hw). simpl. congruence.
    + intros y Hy. apply elem_of_app in Hy as [Hy|Hy].
      * apply list_elem_of_lookup in Hy as [i Hi].
        destruct (Hslot (S i) y Hi) as (e & Hl & Hh).
        apply (find_present _ _ _ (S i) e); [| |done].
        -- apply lookup_lt_Some in Hi. simpl in Hxs. lia.
        -- by rewrite Hkeep.
      * apply list_elem_of_singleton in Hy as ->.
        apply (find_present _ _ _ 0%nat _ Hsz Hlk).
        apply holds_true. by split.
Qed.

Lemma l2_insert_all_view (xs : list insert_req) (s : state) :
  tlb_l2 (l2_insert_all xs s) =
  insert_all_array (tlb_l2 s) TLB_L2_SIZE (lru_tick2 s) xs.
Proof.
  revert s. induction xs as [|x xs IH]; intros s; [done|].
  unfold l2_insert_all. cbn [foldl insert_all_array].
  fold (l2_insert_all xs
          (l2_insert (req_vpn x) (req_ppn x) (req_dirty x) s)).
  rewrite IH, l2_insert_eq. reflexivity.
Qed.

Lemma l1_insert_all_view (xs : list insert_req) (s : state) :
  tlb_l1 (l1_insert_all xs s) =
  insert_all_array (tlb_l1 s) TLB_L1_SIZE (lru_tick s) xs.
Proof.
  revert s. induction xs as [|x xs IH]; intros s; [done|].
  unfold l1_insert_all. cbn [foldl insert_all_array].
  fold (l1_insert_all xs
          (l1_insert (req_vpn x) (req_ppn x) (req_dirty x) s)).
  rewrite IH, l1_insert_eq.
  cbn [tlb_l1 lru_tick set_tlb_l1 set_lru_tick]. reflexivity.
Qed.

(** ** Statistics *)

Lemma counters_l2_insert (vpn ppn : Z) (d : bool) (s : state) :
  counters (l2_insert vpn ppn d s) = counters s.
Proof. by rewrite l2_insert_eq. Qed.

Lemma counters_l1_insert (vpn ppn : Z) (d : bool) (s : state) :
  counters (l1_insert vpn ppn d s) = counters s.
Proof.
  rewrite l1_insert_eq.
  change (counters (l1_insert_spill vpn s) = counters s).
  unfold l1_insert_spill. repeat case_match; try done.
  apply counters_l2_insert.
Qed.

(** The three outcomes of a translation on the statistics. *)
Lemma tlb_translate_counters (va : Z) (op : op_t) (s : state) :
  let s' := snd (tlb_translate va op s) in
  let vpn := va_to_vpn va in
  (0 <= l1_find vpn s ->
   counters s' =
     [wrap64 (tlb_l1_hits s + 1); tlb_l1_misses s; tlb_l1_invalidations s;
      tlb_l2_hits s; tlb_l2_misses s; tlb_l2_invalidations s]) /\
  (l1_find vpn s < 0 -> 0 <= l2_find vpn s ->
   counters s' =
     [tlb_l1_hits s; wrap64 (tlb_l1_misses s + 1); tlb_l1_invalidations s;
      wrap64 (tlb_l2_hits s + 1); tlb_l2_misses s; tlb_l2_invalidations s]) /\
  (l1_find vpn s < 0 -> l2_find vpn s < 0 ->
   counters s' =
     [tlb_l1_hits s; wrap64 (tlb_l1_misses s + 1); tlb_l1_invalidations s;
      tlb_l2_hits s; wrap64 (tlb_l2_misses s + 1); tlb_l2_invalidations s]).
Proof.
  intros s' vpn. subst s'. unfold tlb_translate. cbv zeta. fold vpn.
  change (l1_find vpn (increment_time TLB_L1_LATENCY_NS s))
    with (l1_find vpn s).
  match goal with |- context [0 <=? l2_find vpn ?st] =>
    change (l2_find vpn st) with (l2_find vpn s) end.
  destruct (0 <=? l1_find vpn s) eqn:H1;
    [apply Z.leb_le in H1|apply Z.leb_gt in H1].
  - split; [done|]. split; intros; lia.
  - destruct (0 <=? l2_find vpn s) eqn:H2;
      [apply Z.leb_le in H2|apply Z.leb_gt in H2].
    + split; [intros; lia|]. split; [|intros; lia]. intros _ _.
      cbn [snd]. by rewrite counters_l1_insert.
    + split; [intros; lia|]. split; [intros; lia|]. intros _ _.
      cbn [snd]. by rewrite counters_l2_insert, counters_l1_insert.
Qed.

Lemma tlb_invalidate_counters (vpn : Z) (s : state) :
  let s' := tlb_invalidate vpn s in
  exists i1 i2,
    counters s' =
      [tlb_l1_hits s; tlb_l1_misses s; i1;
       tlb_l2_hits s; tlb_l2_misses s; i2] /\
    (i1 = tlb_l1_invalidations s \/
     i1 = wrap64 (tlb_l1_invalidations s + 1)) /\
    (i2 = tlb_l2_invalidations s \/
     i2 = wrap64 (tlb_l2_invalidations s + 1)).
Proof.
  intros s'. subst s'. rewrite tlb_invalidate_eq. cbv zeta.
  set (s0 := increment_time (TLB_L1_LATENCY_NS + TLB_L2_LATENCY_NS) s).
  set (s1 := if 0 <=? l1_find vpn s0
             then invalidate_l1_slot (l1_find vpn s0) s0 else s0).
  assert (H1 : exists i1, counters s1 =
      [tlb_l1_hits s; tlb_l1_misses s; i1;
       tlb_l2_hits s; tlb_l2_misses s; tlb_l2_invalidations s] /\
      (i1 = tlb_l1_invalidations s \/
       i1 = wrap64 (tlb_l1_invalidations s + 1))).
  { subst s1. destruct (0 <=? l1_find vpn s0).
    - exists (wrap64 (tlb_l1_invalidations s + 1)). split; [|by right].
      unfold invalidate_l1_slot.
      destruct (dirty (entry_at (tlb_l1 s0) (l1_find vpn s0)));
        [rewrite l2_insert_eq|]; reflexivity.
    - exists (tlb_l1_invalidations s). split; [done|by left]. }
  destruct H1 as (i1 & Hc1 & Hi1).
  injection Hc1 as Hh1 Hm1 Hv1 Hh2 Hm2 Hv2.
  destruct (0 <=? l2_find vpn s1).
  - exists i1, (wrap64 (tlb_l2_invalidations s + 1)).
    split; [|split; [done|by right]].
    unfold invalidate_l2_slot.
    destruct (dirty (entry_at (tlb_l2 s1) (l2_find vpn s1)));
      unfold counters; cbn; by rewrite Hh1, Hm1, Hv1, Hh2, Hm2, Hv2.
  - exists i1, (tlb_l2_invalidations s).
    split; [|split; [done|by left]].
    unfold counters. by rewrite Hh1, Hm1, Hv1, Hh2, Hm2, Hv2.
Qed.

(** One call moves each statistic by zero or one step. *)
Lemma step_counters (o : operation) (s : state) :
  o <> Initialize ->
  counters_rel (fun c c' => c' = c \/ c' = wrap64 (c + 1)) s (step o s).
Proof.
  intros Ho. unfold counters_rel. destruct o as [|va op|vpn]; [done| |].
  - cbn [step].
    destruct (tlb_translate_counters va op s) as (Ha & Hb & Hc).
    destruct (Z.le_gt_cases 0 (l1_find (va_to_vpn va) s)) as [H1|H1].
    + rewrite (Ha H1). unfold counters.
      repeat (apply Forall2_cons; split); auto.
    + destruct (Z.le_gt_cases 0 (l2_find (va_to_vpn va) s)) as [H2|H2].
      * rewrite (Hb H1 H2). unfold counters.
        repeat (apply Forall2_cons; split); auto.
      * rewrite (Hc H1 H2). unfold counters.
        repeat (apply Forall2_cons; split); auto.
  - cbn [step].
    destruct (tlb_invalidate_counters vpn s) as (i1 & i2 & Hc & H1 & H2).
    rewrite Hc. unfold counters.
    repeat (apply Forall2_cons; split); auto.
Qed.

Lemma run_counters (ops : list operation) :
  forall s,
  Forall (fun o => o <> Initialize) ops ->
  Forall (fun c => 0 <= c /\ c + Z.of_nat (length ops) < 2 ^ 64)
    (counters s) ->
  counters_rel (fun c c' => c <= c' <= c + Z.of_nat (length ops))
    s (run ops s).
Proof.
  induction ops as [|o ops IH]; intros s Hops Hb.
  - unfold counters_rel. simpl.
    repeat (apply Forall2_cons; split); try lia. constructor.
  - apply Forall_cons in Hops as [Ho Hops].
    pose proof (step_counters o s Ho) as Hstep.
    change (run (o :: ops) s) with (run ops (step o s)).
    assert (Hb' : Forall
              (fun c => 0 <= c /\ c + Z.of_nat (length ops) < 2 ^ 64)
              (counters (step o s)) /\
            counters_rel (fun c c' => c <= c' <= c + 1) s (step o s)).
    { unfold counters_rel in *. revert Hb Hstep.
      generalize (counters s) (counters (step o s)).
      intros cs cs' Hb Hstep. induction Hstep as [|c c' cs cs' Hc Hrest IHr].
      - split; constructor.
      - apply Forall_cons in Hb as [[Hc0 Hc1] Hb].
        destruct (IHr Hb) as [IH1 IH2].
        assert (c <= c' <= c + 1).
        { destruct Hc as [->| ->]; [lia|]. unfold wrap64.
          rewrite Z.mod_small; simpl length in Hc1; lia. }
        split; constructor; try done. simpl length in Hc1. lia. }
    destruct Hb' as [Hb' Hone].
    specialize (IH (step o s) Hops Hb').
    unfold counters_rel in *. revert Hone IH.
    generalize (counters s) (counters (step o s))
               (counters (run ops (step o s))).
    intros cs cs' cs'' Hone. revert cs''.
    induction Hone as [|c c' cs cs' Hc Hrest IHr]; intros cs'' H2.
    + inversion H2. constructor.
    + inversion H2 as [|c1 c'' cs1 cs2 Hc2 Hrest2]; subst.
      constructor; [simpl length; lia|]. by apply IHr.
Qed.

(** ** Boolean checks for concrete arrays *)

Lemma absent_forallb (vpn : Z) (a : list tlb_entry_t) :
  forallb (fun e => negb (holds vpn e)) a = true -> absent vpn a.
Proof.
  intros H i e Hl. rewrite forallb_forall in H.
  specialize (H e). rewrite <- list_elem_of_In in H.
  apply negb_true_iff, H, list_elem_of_lookup. by exists i.
Qed.

Lemma all_invalid_forallb (a : list tlb_entry_t) :
  forallb (fun e => negb (valid e)) a = true -> all_invalid a.
Proof.
  intros H i e Hl. rewrite forallb_forall in H.
  specialize (H e). rewrite <- list_elem_of_In in H.
  apply negb_true_iff, H, list_elem_of_lookup. by exists i.
Qed.

(** * Address decomposition *)

Lemma va_split_range (va : Z) :
  0 <= PAGE_SIZE_BITS <= 32 -> 0 <= va < 2 ^ 64 ->
  wrap64 (Z.shiftl (Z.shiftr va PAGE_SIZE_BITS) PAGE_SIZE_BITS) =
    Z.ldiff va (Z.ones PAGE_SIZE_BITS) /\
  wrap32 (Z.land va (Z.ones PAGE_SIZE_BITS)) =
    Z.land va (Z.ones PAGE_SIZE_BITS).
Proof.
  intros Hb Hva.
  assert (Hp : 0 < 2 ^ PAGE_SIZE_BITS) by (apply Z.pow_pos_nonneg; lia).
  split.
  - rewrite <- Z.ldiff_ones_r by lia.
    unfold wrap64. apply Z.mod_small.
    rewrite Z.ldiff_ones_r by lia.
    rewrite Z.shiftr_div_pow2, Z.shiftl_mul_pow2 by lia.
    pose proof (Z.mul_div_le va (2 ^ PAGE_SIZE_BITS) Hp).
    assert (0 <= va / 2 ^ PAGE_SIZE_BITS) by (apply Z.div_pos; lia).
    nia.
  - unfold wrap32. apply Z.mod_small.
    rewrite Z.land_ones by lia.
    pose proof (Z.mod_pos_bound va (2 ^ PAGE_SIZE_BITS) Hp).
    assert (2 ^ PAGE_SIZE_BITS <= 2 ^ 32) by (apply Z.pow_le_mono_r; lia).
    lia.
Qed.

(** C9: rebuilding an address from its page number and its offset gives
    the address back, and the two extractors split the bits of the
    address exactly at PAGE_SIZE_BITS: bit n of the page number is bit
    n + PAGE_SIZE_BITS of the address, and bit n of the offset is bit n
    of the address below PAGE_SIZE_BITS and clear from there on. *)
Theorem compose_pa_va_roundtrip (va : Z) :
  0 <= PAGE_SIZE_BITS <= 32 -> 0 <= va < 2 ^ 64 ->
  compose_pa (va_to_vpn va) (va_offset va) = va /\
  (forall n, 0 <= n ->
     Z.testbit (va_to_vpn va) n = Z.testbit va (n + PAGE_SIZE_BITS)) /\
  (forall n, 0 <= n ->
     Z.testbit (va_offset va) n =
     if n <? PAGE_SIZE_BITS then Z.testbit va n else false).
Proof.
  intros Hb Hva.
  destruct (va_split_range va Hb Hva) as [Hhi Hlo].
  unfold compose_pa, va_to_vpn, va_offset, PAGE_OFFSET_MASK.
  rewrite Hhi, Hlo. split; [apply Z.lor_ldiff_and|]. split.
  - intros n Hn. by rewrite Z.shiftr_spec.
  - intros n Hn. rewrite Z.land_spec.
    destruct (n <? PAGE_SIZE_BITS) eqn:Hlt.
    + rewrite Z.ones_spec_low by lia. apply andb_true_r.
    + rewrite Z.ones_spec_high by lia. apply andb_false_r.
Qed.

(** * Translate: the L1 hit path *)

Lemma find_found_lookup (a : list tlb_entry_t) (vpn : Z) (n : nat) :
  0 <= find_loop a vpn n 0 ->
  exists m : nat, find_loop a vpn n 0 = Z.of_nat m /\ (m < n)%nat /\
    a !! m = Some (entry_at a (Z.of_nat m)) /\
    valid (entry_at a (Z.of_nat m)) = true /\
    virtual_page_number (entry_at a (Z.of_nat m)) = vpn.
Proof.
  intros Hf.
  destruct (find_loop_spec a vpn n 0)
    as [[Hr _]|(m & e & Hr & Hm & Hl & Hh & _)];
    change (Z.of_nat 0) with 0 in *; [lia|].
  exists m. rewrite (entry_at_lookup _ _ _ Hl).
  apply holds_true in Hh as [Hv Hvpn]. repeat split; try done. lia.
Qed.

Lemma entry_at_upd_found f (a : list tlb_entry_t) (m : nat) :
  a !! m = Some (entry_at a (Z.of_nat m)) ->
  entry_at (entry_upd f a (Z.of_nat m)) (Z.of_nat m) =
  f (entry_at a (Z.of_nat m)).
Proof.
  intros Hl. unfold entry_at at 1.
  rewrite lookup_entry_upd, Nat2Z.id.
  destruct (decide (m = m)); [|done]. by rewrite Hl.
Qed.

Lemma tlb_translate_hit_eq (va : Z) (op : op_t) (s : state) :
  0 <= l1_find (va_to_vpn va) s ->
  tlb_translate va op s =
    (compose_pa
       (physical_page_number
          (entry_at (tlb_l1 s) (l1_find (va_to_vpn va) s)))
       (va_offset va),
     mk_state
       (entry_upd (touch_entry op (wrap64 (lru_tick s + 1))) (tlb_l1 s)
          (l1_find (va_to_vpn va) s))
       (tlb_l2 s)
       (wrap64 (tlb_l1_hits s + 1)) (tlb_l1_misses s)
       (tlb_l1_invalidations s) (tlb_l2_hits s) (tlb_l2_misses s)
       (tlb_l2_invalidations s) (wrap64 (lru_tick s + 1)) (lru_tick2 s)
       (trace s ++ [EvTime TLB_L1_LATENCY_NS])).
Proof.
  intros Hf.
  destruct (find_found_lookup (tlb_l1 s) (va_to_vpn va) TLB_L1_SIZE Hf)
    as (m & Hm & _ & Hl & _).
  fold (l1_find (va_to_vpn va) s) in Hm.
  unfold tlb_translate. cbv zeta.
  change (l1_find (va_to_vpn va) (increment_time TLB_L1_LATENCY_NS s))
    with (l1_find (va_to_vpn va) s).
  assert (Hle : (0 <=? l1_find (va_to_vpn va) s) = true)
    by (apply Z.leb_le; exact Hf).
  rewrite Hle. simpl. f_equal. f_equal.
  rewrite Hm. rewrite entry_at_upd_found by done. done.
Qed.

(** A hit leaves the VPN where it was. *)
Lemma l1_find_after_hit (va : Z) (op : op_t) (s : state) :
  0 <= l1_find (va_to_vpn va) s ->
  l1_find (va_to_vpn va) (snd (tlb_translate va op s)) =
  l1_find (va_to_vpn va) s.
Proof.
  intros Hf. rewrite (tlb_translate_hit_eq va op s Hf). cbn [snd].
  unfold l1_find at 1. cbn [tlb_l1]. apply find_loop_ext. intros j.
  unfold entry_at. rewrite lookup_entry_upd.
  destruct (decide (Z.to_nat (l1_find (va_to_vpn va) s) = Z.to_nat j));
    [|done].
  by destruct (tlb_l1 s !! Z.to_nat j).
Qed.

(** Repeating a translation that hits in L1 counts every call. *)
Lemma repeat_hits (va : Z) (op : op_t) (n : nat) :
  forall s,
  0 <= l1_find (va_to_vpn va) s -> 0 <= tlb_l1_hits s < 2 ^ 64 ->
  0 <= l1_find (va_to_vpn va) (run (replicate n (Translate va op)) s) /\
  tlb_l1_hits (run (replicate n (Translate va op)) s) =
    wrap64 (tlb_l1_hits s + Z.of_nat n).
Proof.
  induction n as [|n IH]; intros s Hf Hr.
  - simpl. split; [done|]. unfold wrap64.
    rewrite Z.add_0_r, Z.mod_small; lia.
  - change (run (replicate (S n) (Translate va op)) s)
      with (run (replicate n (Translate va op))
              (snd (tlb_translate va op s))).
    assert (Hh : tlb_l1_hits (snd (tlb_translate va op s)) =
                 wrap64 (tlb_l1_hits s + 1)).
    { by rewrite (tlb_translate_hit_eq va op s Hf). }
    destruct (IH (snd (tlb_translate va op s))) as [Hf' Hh'].
    + by rewrite l1_find_after_hit.
    + rewrite Hh. unfold wrap64. apply Z.mod_pos_bound. lia.
    + split; [done|]. rewrite Hh', Hh. unfold wrap64.
      rewrite Z.add_mod_idemp_l by lia. f_equal. lia.
Qed.

(** The L1 hit counter can be driven to its last value, and the next
    hit wraps it. *)
Lemma hits_wrap_reachable (va : Z) (op : op_t) (n : nat) (s1 : state) :
  0 <= l1_find (va_to_vpn va) s1 -> 0 <= tlb_l1_hits s1 < 2 ^ 64 ->
  tlb_l1_hits s1 + Z.of_nat n = 2 ^ 64 - 1 ->
  tlb_l1_hits (run (replicate n (Translate va op)) s1) = 2 ^ 64 - 1 /\
  tlb_l1_hits
    (run (replicate n (Translate va op) ++ [Translate va op]) s1) = 0.
Proof.
  intros Hf Hr Hn. destruct (repeat_hits va op n s1 Hf Hr) as [Hf' Hh].
  assert (Hlast : tlb_l1_hits (run (replicate n (Translate va op)) s1) =
                  2 ^ 64 - 1).
  { rewrite Hh, Hn. unfold wrap64. apply Z.mod_small. lia. }
  split; [exact Hlast|].
  unfold run at 1. rewrite foldl_app. cbn [foldl step].
  fold (run (replicate n (Translate va op)) s1).
  rewrite (tlb_translate_hit_eq va op _ Hf'). cbn [snd tlb_l1_hits].
  rewrite Hlast. reflexivity.
Qed.

(** C1, as the code has it: on an L1 hit the call charges the L1 latency
    to the clock and touches no other collaborator; the L1 hit counter
    and the L1 logical clock are incremented, the hit slot gets the new
    clock value as its last_access and is marked dirty on a write (its
    dirty flag is kept on a read), every other field of the state,
    all of L2 included, is unchanged, and the result is the cached PPN
    composed with the offset of the request. *)
Theorem tlb_translate_l1_hit (va : Z) (op : op_t) (s : state) :
  0 <= l1_find (va_to_vpn va) s ->
  let idx := l1_find (va_to_vpn va) s in
  let t := wrap64 (lru_tick s + 1) in
  let e := entry_at (tlb_l1 s) idx in
  tlb_translate va op s =
    (compose_pa (physical_page_number e) (va_offset va),
     mk_state (entry_upd (touch_entry op t) (tlb_l1 s) idx) (tlb_l2 s)
       (wrap64 (tlb_l1_hits s + 1)) (tlb_l1_misses s)
       (tlb_l1_invalidations s) (tlb_l2_hits s) (tlb_l2_misses s)
       (tlb_l2_invalidations s) t (lru_tick2 s)
       (trace s ++ [EvTime TLB_L1_LATENCY_NS])) /\
  valid e = true /\ virtual_page_number e = va_to_vpn va /\
  entry_at (tlb_l1 (snd (tlb_translate va op s))) idx =
    mk_entry true (if op_is_write op then true else dirty e) t
      (virtual_page_number e) (physical_page_number e).
Proof.
  intros Hf idx t e.
  destruct (find_found_lookup (tlb_l1 s) (va_to_vpn va) TLB_L1_SIZE Hf)
    as (m & Hm & _ & Hl & Hv & Hvpn).
  fold (l1_find (va_to_vpn va) s) in Hm. fold idx in Hm.
  pose proof (tlb_translate_hit_eq va op s Hf) as Heq.
  fold idx in Heq. fold e in Heq. fold t in Heq.
  split; [exact Heq|]. subst e. rewrite Hm in *.
  split; [done|]. split; [done|].
  rewrite Heq. simpl. rewrite entry_at_upd_found by done.
  unfold touch_entry. by rewrite Hv.
Qed.

(** * Translate: the miss in both levels *)

(** C2: when neither level holds the VPN, the call increments the L2
    miss counter (and the L1 miss counter, no hit counter), calls the
    resolver exactly once, with the address and the access kind of the
    request, all other calls after it being sink calls of evictions;
    both levels then hold the VPN in a valid slot whose PPN is the page
    number of the resolver's result and whose dirty flag is true exactly
    for a write; and the result is the resolver's own result.  The page
    number cached is the resolver's address without its low
    PAGE_SIZE_BITS bits: bit n of it is bit n + PAGE_SIZE_BITS of the
    address, that is, the address divided by the page size, as the VPN
    is the requested address divided by the page size. *)
Theorem tlb_translate_full_miss (va : Z) (op : op_t) (s : state) :
  length (tlb_l1 s) = TLB_L1_SIZE -> length (tlb_l2 s) = TLB_L2_SIZE ->
  (0 < TLB_L1_SIZE)%nat -> (0 < TLB_L2_SIZE)%nat ->
  l1_find (va_to_vpn va) s = -1 -> l2_find (va_to_vpn va) s = -1 ->
  let vpn := va_to_vpn va in
  let tr := trace s ++ [EvTime TLB_L1_LATENCY_NS; EvTime TLB_L2_LATENCY_NS] in
  let pa := page_table_translate tr va op in
  let ppn := pa_to_ppn pa in
  let s' := snd (tlb_translate va op s) in
  fst (tlb_translate va op s) = pa /\
  counters s' =
    [tlb_l1_hits s; wrap64 (tlb_l1_misses s + 1); tlb_l1_invalidations s;
     tlb_l2_hits s; wrap64 (tlb_l2_misses s + 1); tlb_l2_invalidations s] /\
  (exists wbs, trace s' = tr ++ [EvPageTable va op] ++ wbs /\
               Forall is_writeback wbs) /\
  (exists i : nat, l1_find vpn s' = Z.of_nat i /\
     tlb_l1 s' !! i =
       Some (mk_entry true (op_is_write op) (lru_tick s') vpn ppn)) /\
  (exists j : nat, l2_find vpn s' = Z.of_nat j /\
     tlb_l2 s' !! j =
       Some (mk_entry true (op_is_write op) (lru_tick2 s') vpn ppn)) /\
  (forall n, 0 <= n -> Z.testbit ppn n = Z.testbit pa (n + PAGE_SIZE_BITS)) /\
  (0 <= PAGE_SIZE_BITS ->
   ppn = pa / 2 ^ PAGE_SIZE_BITS /\ vpn = va / 2 ^ PAGE_SIZE_BITS).
Proof.
  intros Hlen1 Hlen2 Hsz1 Hsz2 Hf1 Hf2 vpn tr pa ppn s'.
  fold vpn in Hf1, Hf2.
  assert (Hbits : forall n, 0 <= n ->
            Z.testbit ppn n = Z.testbit pa (n + PAGE_SIZE_BITS)).
  { intros n Hn. subst ppn. unfold pa_to_ppn. by apply Z.shiftr_spec. }
  assert (Hdiv : 0 <= PAGE_SIZE_BITS ->
            ppn = pa / 2 ^ PAGE_SIZE_BITS /\ vpn = va / 2 ^ PAGE_SIZE_BITS).
  { intros Hb. subst ppn vpn. unfold pa_to_ppn, va_to_vpn.
    split; by apply Z.shiftr_div_pow2. }
  assert (Ha1 : absent vpn (tlb_l1 s)).
  { apply find_loop_none_absent. by rewrite Hlen1. }
  assert (Ha2 : absent vpn (tlb_l2 s)).
  { apply find_loop_none_absent. by rewrite Hlen2. }
  set (sA := emit (EvPageTable va op)
               (set_l2_misses (wrap64 (tlb_l2_misses s + 1))
                  (increment_time TLB_L2_LATENCY_NS
                     (set_l1_misses (wrap64 (tlb_l1_misses s + 1))
                        (increment_time TLB_L1_LATENCY_NS s))))).
  assert (Heq : tlb_translate va op s =
                (pa, l2_insert vpn ppn (op_is_write op)
                       (l1_insert vpn ppn (op_is_write op) sA))).
  { unfold tlb_translate. cbv zeta. fold vpn.
    change (l1_find vpn (increment_time TLB_L1_LATENCY_NS s))
      with (l1_find vpn s). rewrite Hf1.
    change (0 <=? -1) with false. cbv iota.
    match goal with |- context [0 <=? l2_find vpn ?st] =>
      change (l2_find vpn st) with (l2_find vpn s) end.
    rewrite Hf2. change (0 <=? -1) with false. cbv iota.
    cbn [trace set_l2_misses increment_time emit set_l1_misses].
    rewrite <- app_assoc. reflexivity. }
  subst s'. rewrite Heq. cbn [fst snd]. split; [done|].
  destruct (l1_insert_spill_fresh vpn sA Ha1 Ha2)
    as (Hc & (wbs1 & Htr1 & Hwb1) & Habs & Hlen).
  set (s1 := l1_insert vpn ppn (op_is_write op) sA).
  assert (Hs1 : s1 = set_tlb_l1
      (insert_array (tlb_l1 s) TLB_L1_SIZE vpn ppn (op_is_write op)
         (wrap64 (lru_tick s + 1)))
      (set_lru_tick (wrap64 (lru_tick s + 1)) (l1_insert_spill vpn sA))).
  { subst s1. rewrite l1_insert_eq. reflexivity. }
  destruct (insert_array_fresh (tlb_l1 s) TLB_L1_SIZE vpn ppn
              (op_is_write op) (wrap64 (lru_tick s + 1)) Hlen1 Hsz1 Ha1)
    as (m1 & _ & _ & _ & Hlk1 & Hfind1).
  assert (Hlen2' : length (tlb_l2 s1) = TLB_L2_SIZE).
  { rewrite Hs1. cbn [tlb_l2 set_tlb_l1 set_lru_tick]. by rewrite Hlen. }
  assert (Habs' : absent vpn (tlb_l2 s1)).
  { rewrite Hs1. exact Habs. }
  destruct (insert_array_fresh (tlb_l2 s1) TLB_L2_SIZE vpn ppn
              (op_is_write op) (wrap64 (lru_tick2 s1 + 1)) Hlen2' Hsz2 Habs')
    as (m2 & _ & _ & _ & Hlk2 & Hfind2).
  rewrite l2_insert_eq.
  cbn [counters tlb_l1 tlb_l2 tlb_l1_hits tlb_l1_misses tlb_l1_invalidations
       tlb_l2_hits tlb_l2_misses tlb_l2_invalidations lru_tick lru_tick2
       trace set_tlb_l2 set_lru_tick2 emits l1_find l2_find].
  split; [|split; [|split; [|split; [|split; [exact Hbits|exact Hdiv]]]]].
  - rewrite Hs1. exact Hc.
  - exists (wbs1 ++ l2_insert_writeback (tlb_l2 s1) vpn). split.
    + rewrite Hs1 at 1. cbn [trace set_tlb_l1 set_lru_tick].
      rewrite Htr1. subst sA tr.
      cbn [trace set_l2_misses increment_time emit set_l1_misses].
      by rewrite <- !app_assoc.
    + apply Forall_app. split; [done|]. apply l2_insert_writeback_sink.
  - exists m1. unfold l1_find. rewrite Hs1.
    cbn [tlb_l1 lru_tick set_tlb_l1 set_lru_tick].
    split; [exact Hfind1|]. exact Hlk1.
  - exists m2. unfold l2_find.
    cbn [tlb_l2 set_tlb_l2]. split; [exact Hfind2|exact Hlk2].
Qed.

(** * Eviction *)

(** C3, as the code has it.  Evicting a valid dirty L1 slot inserts its
    (VPN, PPN) pair into L2 with dirty = true and makes no sink call for
    that pair; the only sink call that can happen during it is the one
    L2 makes when the insertion has to evict a valid dirty L2 victim
    (none when L2 already holds the VPN), and afterwards L2 holds the
    pair in a valid dirty slot.  Evicting a valid dirty L2 slot calls
    the sink exactly once, with the slot's PPN composed with offset 0.
    Evicting a slot that is not both valid and dirty calls nothing, and
    for L1 leaves L2 as it is. *)
Theorem eviction_routing (idx : Z) (s : state) :
  0 <= idx ->
  let e1 := entry_at (tlb_l1 s) idx in
  let e2 := entry_at (tlb_l2 s) idx in
  (valid e1 && dirty e1 = true ->
     let s' := l1_evict_entry idx s in
     s' = set_tlb_l1 (entry_upd reset_entry (tlb_l1 s) idx)
            (l2_insert (virtual_page_number e1) (physical_page_number e1)
               true s) /\
     trace s' =
       trace s ++ l2_insert_writeback (tlb_l2 s) (virtual_page_number e1) /\
     (length (tlb_l2 s) = TLB_L2_SIZE -> (0 < TLB_L2_SIZE)%nat ->
      exists (j : nat) (e : tlb_entry_t),
        l2_find (virtual_page_number e1) s' = Z.of_nat j /\
        tlb_l2 s' !! j = Some e /\ valid e = true /\ dirty e = true /\
        virtual_page_number e = virtual_page_number e1 /\
        physical_page_number e = physical_page_number e1)) /\
  (valid e2 && dirty e2 = true ->
     trace (l2_evict_entry idx s) =
       trace s ++ [EvWriteBack (compose_pa (physical_page_number e2) 0)]) /\
  (valid e1 && dirty e1 = false ->
     trace (l1_evict_entry idx s) = trace s /\
     tlb_l2 (l1_evict_entry idx s) = tlb_l2 s) /\
  (valid e2 && dirty e2 = false ->
     trace (l2_evict_entry idx s) = trace s).
Proof.
  intros Hidx e1 e2.
  assert (Hlt : (idx <? 0) = false) by (apply Z.ltb_ge; lia).
  split; [|split; [|split]].
  - intros Hvd s'.
    assert (Hs' : s' =
      set_tlb_l1 (entry_upd reset_entry (tlb_l1 s) idx)
        (l2_insert (virtual_page_number e1) (physical_page_number e1)
           true s)).
    { subst s'. unfold l1_evict_entry. rewrite Hlt. fold e1. rewrite Hvd.
      rewrite l2_insert_eq. reflexivity. }
    split; [exact Hs'|]. rewrite Hs', l2_insert_eq. split; [reflexivity|].
    intros Hlen Hsz.
    destruct (insert_array_holds (tlb_l2 s) TLB_L2_SIZE
                (virtual_page_number e1) (physical_page_number e1) true
                (wrap64 (lru_tick2 s + 1)) Hlen Hsz)
      as (j & e & Hfind & Hlk & Hv & Hvpn & Hppn & _ & Hd).
    exists j, e. repeat split; try done. by apply Hd.
  - intros Hvd. rewrite l2_evict_entry_eq by done.
    unfold l2_evict_writeback. fold e2. by rewrite Hvd.
  - intros Hvd. unfold l1_evict_entry. rewrite Hlt. fold e1.
    by rewrite Hvd.
  - intros Hvd. rewrite l2_evict_entry_eq by done.
    unfold l2_evict_writeback. fold e2. rewrite Hvd. simpl.
    apply app_nil_r.
Qed.

(** * Invalidate *)

(** C8: invalidating a VPN that no valid slot of either level holds
    charges the clock the sum of the two access latencies and changes
    nothing else: both arrays, the six counters and the two logical
    clocks are as before, and the only call made is the clock charge,
    so nothing reaches the write-back sink. *)
Theorem tlb_invalidate_absent (vpn : Z) (s : state) :
  absent vpn (tlb_l1 s) -> absent vpn (tlb_l2 s) ->
  let s' := tlb_invalidate vpn s in
  trace s' = trace s ++ [EvTime (TLB_L1_LATENCY_NS + TLB_L2_LATENCY_NS)] /\
  counters s' = counters s /\
  tlb_l1 s' = tlb_l1 s /\ tlb_l2 s' = tlb_l2 s /\
  lru_tick s' = lru_tick s /\ lru_tick2 s' = lru_tick2 s.
Proof.
  intros H1 H2 s'.
  assert (Heq : s' =
    increment_time (TLB_L1_LATENCY_NS + TLB_L2_LATENCY_NS) s).
  { subst s'. rewrite tlb_invalidate_eq. cbv zeta.
    assert (E1 : l1_find vpn
              (increment_time (TLB_L1_LATENCY_NS + TLB_L2_LATENCY_NS) s) = -1)
      by (apply find_absent; exact H1).
    rewrite E1. change (0 <=? -1) with false. cbv iota.
    assert (E2 : l2_find vpn
              (increment_time (TLB_L1_LATENCY_NS + TLB_L2_LATENCY_NS) s) = -1)
      by (apply find_absent; exact H2).
    by rewrite E2. }
  by rewrite Heq.
Qed.

(** C10: when a valid dirty L1 slot holds the VPN and no valid L2 slot
    does, the L1 part of the call first inserts the L1 copy into L2 as
    a dirty entry, in the slot L2's victim selection gives (any sink
    call made so far is the one of evicting that L2 victim); the L2 scan
    then stops at that slot, hands the composed address of the PPN at
    offset 0 to the sink once, resets the slot and increments the L2
    invalidation counter, the L1 slot having been reset and the L1
    invalidation counter incremented before. *)
Theorem tlb_invalidate_dirty_l1_only (vpn : Z) (s : state) :
  length (tlb_l2 s) = TLB_L2_SIZE -> (0 < TLB_L2_SIZE)%nat ->
  0 <= l1_find vpn s ->
  dirty (entry_at (tlb_l1 s) (l1_find vpn s)) = true ->
  absent vpn (tlb_l2 s) ->
  let i := l1_find vpn s in
  let ppn := physical_page_number (entry_at (tlb_l1 s) i) in
  let v := l2_choose_victim s in
  let s0 := increment_time (TLB_L1_LATENCY_NS + TLB_L2_LATENCY_NS) s in
  let s1 := invalidate_l1_slot i s0 in
  let s' := tlb_invalidate vpn s in
  (0 <= v /\ l2_find vpn s1 = v /\
   entry_at (tlb_l2 s1) v =
     mk_entry true true (wrap64 (lru_tick2 s + 1)) vpn ppn /\
   trace s1 =
     trace s ++ [EvTime (TLB_L1_LATENCY_NS + TLB_L2_LATENCY_NS)] ++
     l2_evict_writeback (tlb_l2 s) v) /\
  (s' = invalidate_l2_slot v s1 /\
   trace s' = trace s1 ++ [EvWriteBack (compose_pa ppn 0)] /\
   entry_at (tlb_l2 s') v = mk_entry false false 0 vpn ppn /\
   entry_at (tlb_l1 s') i = reset_entry (entry_at (tlb_l1 s) i) /\
   tlb_l1_invalidations s' = wrap64 (tlb_l1_invalidations s + 1) /\
   tlb_l2_invalidations s' = wrap64 (tlb_l2_invalidations s + 1)).
Proof.
  intros Hlen Hsz Hf Hd Ha i ppn v s0 s1 s'.
  destruct (find_found_lookup (tlb_l1 s) vpn TLB_L1_SIZE Hf)
    as (m & Hm & _ & Hl & Hv & Hvpn).
  fold (l1_find vpn s) in Hm. fold i in Hm.
  destruct (insert_array_fresh (tlb_l2 s) TLB_L2_SIZE vpn ppn true
              (wrap64 (lru_tick2 s + 1)) Hlen Hsz Ha)
    as (m2 & Hm2 & Hlt2 & Heq2 & Hlk2 & Hfind2).
  fold (l2_choose_victim s) in Hm2. fold v in Hm2.
  (* the state between the two loops *)
  assert (Hs1 : s1 =
    set_l1_invalidations (wrap64 (tlb_l1_invalidations s + 1))
      (set_tlb_l1 (entry_upd reset_entry (tlb_l1 s) i)
         (l2_insert vpn ppn true s0))).
  { subst s1. unfold invalidate_l1_slot.
    change (tlb_l1 s0) with (tlb_l1 s).
    fold i in Hd. rewrite Hd. subst ppn. rewrite Hm, Hvpn.
    rewrite l2_insert_eq. reflexivity. }
  assert (Hl2 : tlb_l2 s1 =
    insert_array (tlb_l2 s) TLB_L2_SIZE vpn ppn true
      (wrap64 (lru_tick2 s + 1))).
  { rewrite Hs1, l2_insert_eq. reflexivity. }
  assert (Htr : trace s1 =
    trace s ++ [EvTime (TLB_L1_LATENCY_NS + TLB_L2_LATENCY_NS)] ++
    l2_evict_writeback (tlb_l2 s) v).
  { rewrite Hs1, l2_insert_eq. simpl.
    unfold l2_insert_writeback. rewrite (find_absent _ _ _ Ha).
    change (0 <=? -1) with false. cbv iota.
    by rewrite <- app_assoc. }
  assert (Hfind : l2_find vpn s1 = v).
  { unfold l2_find. by rewrite Hl2, Hfind2, Hm2. }
  assert (He2 : entry_at (tlb_l2 s1) v =
                mk_entry true true (wrap64 (lru_tick2 s + 1)) vpn ppn).
  { rewrite Hl2, Hm2. by apply entry_at_lookup. }
  split.
  { split; [lia|]. split; [done|]. split; [done|done]. }
  assert (Hs' : s' = invalidate_l2_slot v s1).
  { subst s'. rewrite tlb_invalidate_eq. cbv zeta. fold s0.
    change (l1_find vpn s0) with i.
    assert (Hle : (0 <=? i) = true) by (apply Z.leb_le; done).
    rewrite Hle. fold s1. rewrite Hfind.
    assert (Hle2 : (0 <=? v) = true) by (apply Z.leb_le; lia).
    by rewrite Hle2. }
  split; [done|]. rewrite Hs'. clear Hs'. clearbody s1.
  unfold invalidate_l2_slot. rewrite He2.
  cbn [dirty physical_page_number].
  split; [reflexivity|]. split.
  { cbn [tlb_l2 set_l2_invalidations set_tlb_l2 write_back_tlb_entry emit].
    rewrite entry_at_upd_reset, He2. done. }
  split.
  { cbn [tlb_l1 set_l2_invalidations set_tlb_l2 write_back_tlb_entry emit].
    rewrite Hs1.
    cbn [tlb_l1 set_l1_invalidations set_tlb_l1].
    apply entry_at_upd_reset. }
  rewrite Hs1, l2_insert_eq. split; reflexivity.
Qed.

(** * Invariants of the reachable states *)

(** C4: after any sequence of initialize, translate and invalidate
    operations run from the initialized state, no two valid slots of L1
    hold the same VPN, and no two valid slots of L2 do. *)
Theorem reachable_unique_vpn (ops : list operation) :
  unique_vpn (tlb_l1 (run ops initial_state)) /\
  unique_vpn (tlb_l2 (run ops initial_state)).
Proof.
  destruct (tlb_ok_run ops initial_state tlb_ok_initial)
    as [(_ & H1 & _) (_ & H2 & _)].
  by split.
Qed.

(** The arrays after an invalidation. *)
Lemma tlb_l2_invalidate_l2_slot (i : Z) (s : state) :
  tlb_l2 (invalidate_l2_slot i s) = entry_upd reset_entry (tlb_l2 s) i.
Proof. unfold invalidate_l2_slot. by destruct (dirty _). Qed.

Lemma tlb_l1_invalidate (vpn : Z) (s : state) :
  tlb_l1 (tlb_invalidate vpn s) =
  if 0 <=? l1_find vpn s
  then entry_upd reset_entry (tlb_l1 s) (l1_find vpn s) else tlb_l1 s.
Proof.
  destruct (0 <=? l1_find vpn s) eqn:Hf.
  - apply tlb_invalidate_l1_slot_reset. by apply Z.leb_le.
  - rewrite tlb_invalidate_eq. cbv zeta.
    change (l1_find vpn (increment_time _ s)) with (l1_find vpn s).
    rewrite Hf. case_match; [|done].
    unfold invalidate_l2_slot. by destruct (dirty _).
Qed.

(** The page is absent from L1 or clean there: L2 changes only by the
    reset of the slot that held it. *)
Lemma tlb_l2_invalidate_clean (vpn : Z) (s : state) :
  l1_find vpn s < 0 \/
  dirty (entry_at (tlb_l1 s) (l1_find vpn s)) = false ->
  tlb_l2 (tlb_invalidate vpn s) =
  if 0 <=? l2_find vpn s
  then entry_upd reset_entry (tlb_l2 s) (l2_find vpn s) else tlb_l2 s.
Proof.
  intros Hl1. rewrite tlb_invalidate_eq. cbv zeta.
  set (s0 := increment_time (TLB_L1_LATENCY_NS + TLB_L2_LATENCY_NS) s).
  set (s1 := if 0 <=? l1_find vpn s0
             then invalidate_l1_slot (l1_find vpn s0) s0 else s0).
  assert (Hl2 : tlb_l2 s1 = tlb_l2 s).
  { subst s1. change (l1_find vpn s0) with (l1_find vpn s).
    destruct (0 <=? l1_find vpn s) eqn:Hf; [|done].
    apply Z.leb_le in Hf. destruct Hl1 as [Hl1|Hl1]; [lia|].
    unfold invalidate_l1_slot. change (tlb_l1 s0) with (tlb_l1 s).
    by rewrite Hl1. }
  assert (Hj : l2_find vpn s1 = l2_find vpn s)
    by (unfold l2_find; by rewrite Hl2).
  rewrite Hj. destruct (0 <=? l2_find vpn s); [|done].
  by rewrite tlb_l2_invalidate_l2_slot, Hl2.
Qed.

(** The page is dirty in L1: the L2 slot that the L1 write-back fills
    (the one holding the page, else L2's victim) is the slot that the
    L2 scan resets, so it ends invalid with the page's VPN and the PPN
    of the L1 slot. *)
Lemma tlb_l2_invalidate_dirty (vpn : Z) (s : state) :
  length (tlb_l2 s) = TLB_L2_SIZE -> (0 < TLB_L2_SIZE)%nat ->
  0 <= l1_find vpn s ->
  dirty (entry_at (tlb_l1 s) (l1_find vpn s)) = true ->
  let j := if 0 <=? l2_find vpn s then l2_find vpn s
           else l2_choose_victim s in
  let ppn := physical_page_number (entry_at (tlb_l1 s) (l1_find vpn s)) in
  tlb_l2 (tlb_invalidate vpn s) =
    entry_upd (fun _ => mk_entry false false 0 vpn ppn) (tlb_l2 s) j /\
  entry_at (tlb_l2 (tlb_invalidate vpn s)) j =
    mk_entry false false 0 vpn ppn.
Proof.
  intros Hlen Hsz Hf Hd j ppn.
  destruct (find_found_lookup (tlb_l1 s) vpn TLB_L1_SIZE Hf)
    as (i & Hi & _ & _ & _ & Hvpn).
  fold (l1_find vpn s) in Hi. rewrite <- Hi in Hvpn.
  assert (Hs1 : exists m : nat, j = Z.of_nat m /\ (m < TLB_L2_SIZE)%nat /\
    find_loop (insert_array (tlb_l2 s) TLB_L2_SIZE vpn ppn true
                 (wrap64 (lru_tick2 s + 1))) vpn TLB_L2_SIZE 0 = Z.of_nat m /\
    entry_upd reset_entry
      (insert_array (tlb_l2 s) TLB_L2_SIZE vpn ppn true
         (wrap64 (lru_tick2 s + 1))) (Z.of_nat m) =
    entry_upd (fun _ => mk_entry false false 0 vpn ppn) (tlb_l2 s)
      (Z.of_nat m)).
  { subst j. unfold l2_find, l2_choose_victim.
    destruct (Z.le_gt_cases 0 (find_loop (tlb_l2 s) vpn TLB_L2_SIZE 0))
      as [H2|H2].
    - assert (Hle : (0 <=? find_loop (tlb_l2 s) vpn TLB_L2_SIZE 0) = true)
        by (by apply Z.leb_le).
      rewrite Hle.
      destruct (find_found_lookup (tlb_l2 s) vpn TLB_L2_SIZE H2)
        as (m & Hm & Hlt & Hlk & _ & Hv2).
      destruct (insert_array_inplace (tlb_l2 s) TLB_L2_SIZE vpn ppn true
                  (wrap64 (lru_tick2 s + 1)) m Hm) as (Heq & Hfind & _).
      exists m. split; [done|]. split; [done|]. split; [done|].
      rewrite Heq. apply list_eq. intros k.
      rewrite !lookup_entry_upd, Nat2Z.id.
      destruct (decide (m = k)) as [<-|]; [|done].
      rewrite Hlk. simpl. unfold reset_entry, refresh_entry. simpl.
      by rewrite Hv2.
    - assert (Hle : (0 <=? find_loop (tlb_l2 s) vpn TLB_L2_SIZE 0) = false)
        by (by apply Z.leb_gt).
      rewrite Hle.
      assert (Ha : absent vpn (tlb_l2 s)).
      { apply find_loop_none_absent. rewrite Hlen.
        pose proof (find_loop_ge (tlb_l2 s) vpn TLB_L2_SIZE 0) as Hge.
        change (Z.of_nat 0) with 0 in Hge. lia. }
      destruct (insert_array_fresh (tlb_l2 s) TLB_L2_SIZE vpn ppn true
                  (wrap64 (lru_tick2 s + 1)) Hlen Hsz Ha)
        as (m & Hm & Hlt & Heq & _ & Hfind).
      exists m. split; [done|]. split; [done|]. split; [done|].
      rewrite Heq. apply list_eq. intros k.
      rewrite !lookup_entry_upd, Nat2Z.id.
      destruct (decide (m = k)) as [<-|]; [|done].
      by destruct (tlb_l2 s !! m). }
  destruct Hs1 as (m & Hj & Hlt & Hfind & Heq).
  assert (Hl2 : tlb_l2 (tlb_invalidate vpn s) =
                entry_upd (fun _ => mk_entry false false 0 vpn ppn)
                  (tlb_l2 s) j).
  { rewrite tlb_invalidate_eq. cbv zeta.
    set (s0 := increment_time (TLB_L1_LATENCY_NS + TLB_L2_LATENCY_NS) s).
    change (l1_find vpn s0) with (l1_find vpn s).
    assert (Hle : (0 <=? l1_find vpn s) = true) by (by apply Z.leb_le).
    rewrite Hle.
    assert (H1 : tlb_l2 (invalidate_l1_slot (l1_find vpn s) s0) =
                 insert_array (tlb_l2 s) TLB_L2_SIZE vpn ppn true
                   (wrap64 (lru_tick2 s + 1))).
    { unfold invalidate_l1_slot. change (tlb_l1 s0) with (tlb_l1 s).
      rewrite Hd, Hvpn. cbn [tlb_l2 set_l1_invalidations set_tlb_l1].
      by rewrite l2_insert_eq. }
    assert (H2 : l2_find vpn (invalidate_l1_slot (l1_find vpn s) s0) =
                 Z.of_nat m) by (unfold l2_find; by rewrite H1).
    rewrite H2.
    assert (Hm : (0 <=? Z.of_nat m) = true) by (apply Z.leb_le; lia).
    rewrite Hm, tlb_l2_invalidate_l2_slot, H1, Heq. by rewrite Hj. }
  split; [exact Hl2|]. rewrite Hl2, Hj.
  destruct (lookup_lt_is_Some_2 (tlb_l2 s) m) as [e He]; [lia|].
  unfold entry_at. rewrite lookup_entry_upd, !Nat2Z.id.
  destruct (decide (m = m)); [|done]. by rewrite He.
Qed.
(** C5, as the code has it: in every reachable state an invalid slot of
    either level has dirty = false and last_access = 0; an eviction
    leaves in its slot the former entry with valid = false, dirty =
    false and last_access = 0, its VPN and PPN fields as they were; and
    after an invalidation of a VPN every slot of either level whose VPN
    field is that VPN is invalid with dirty = false and last_access = 0.
    The invalidation changes L1 only by that reset of the slot that
    held the VPN, which keeps its VPN and PPN fields.  In L2, when the
    page was absent from L1 or clean there, it changes only the slot
    that held the VPN, by the same reset, VPN and PPN kept; when the
    page was dirty in L1, the L2 slot that the L1 write-back fills (the
    one that held the VPN, else L2's victim) is the one reset, and it
    ends invalid with the invalidated VPN and the PPN of the L1 slot,
    not with the page numbers it had before. *)
Theorem invalid_slots_clean (ops : list operation) :
  let s := run ops initial_state in
  (invalid_clean (tlb_l1 s) /\ invalid_clean (tlb_l2 s)) /\
  (forall idx, 0 <= idx ->
     entry_at (tlb_l1 (l1_evict_entry idx s)) idx =
       reset_entry (entry_at (tlb_l1 s) idx) /\
     entry_at (tlb_l2 (l2_evict_entry idx s)) idx =
       reset_entry (entry_at (tlb_l2 s) idx)) /\
  (forall vpn,
     let s' := tlb_invalidate vpn s in
     (forall a i e, a = tlb_l1 s' \/ a = tlb_l2 s' ->
        a !! i = Some e -> virtual_page_number e = vpn ->
        valid e = false /\ dirty e = false /\ last_access e = 0) /\
     (0 <= l1_find vpn s ->
      entry_at (tlb_l1 s') (l1_find vpn s) =
        reset_entry (entry_at (tlb_l1 s) (l1_find vpn s))) /\
     tlb_l1 s' =
       (if 0 <=? l1_find vpn s
        then entry_upd reset_entry (tlb_l1 s) (l1_find vpn s)
        else tlb_l1 s) /\
     (l1_find vpn s < 0 \/
      dirty (entry_at (tlb_l1 s) (l1_find vpn s)) = false ->
      tlb_l2 s' =
        (if 0 <=? l2_find vpn s
         then entry_upd reset_entry (tlb_l2 s) (l2_find vpn s)
         else tlb_l2 s) /\
      (0 <= l2_find vpn s ->
       entry_at (tlb_l2 s') (l2_find vpn s) =
         reset_entry (entry_at (tlb_l2 s) (l2_find vpn s)))) /\
     (0 <= l1_find vpn s ->
      dirty (entry_at (tlb_l1 s) (l1_find vpn s)) = true ->
      (0 < TLB_L2_SIZE)%nat ->
      let j := if 0 <=? l2_find vpn s then l2_find vpn s
               else l2_choose_victim s in
      let ppn :=
        physical_page_number (entry_at (tlb_l1 s) (l1_find vpn s)) in
      tlb_l2 s' =
        entry_upd (fun _ => mk_entry false false 0 vpn ppn) (tlb_l2 s) j /\
      entry_at (tlb_l2 s') j = mk_entry false false 0 vpn ppn)).
Proof.
  intros s.
  assert (Hok : tlb_ok s) by apply tlb_ok_run, tlb_ok_initial.
  split; [|split].
  - destruct Hok as [(_ & _ & H1) (_ & _ & H2)]. by split.
  - intros idx Hidx. split.
    + unfold l1_evict_entry.
      assert (Hlt : (idx <? 0) = false) by (apply Z.ltb_ge; lia).
      rewrite Hlt.
      destruct (valid (entry_at (tlb_l1 s) idx) &&
                dirty (entry_at (tlb_l1 s) idx)); simpl;
        [rewrite l2_insert_eq; simpl|]; apply entry_at_upd_reset.
    + rewrite l2_evict_entry_eq by done. simpl. apply entry_at_upd_reset.
  - intros vpn s'. split; [|split; [|split; [|split]]].
    + assert (Hok' : tlb_ok s') by (by apply tlb_ok_invalidate).
      destruct (tlb_invalidate_gone vpn s Hok) as [Ha1 Ha2].
      destruct Hok' as [(_ & _ & Hc1) (_ & _ & Hc2)].
      intros a i e [->| ->] Hl Hvpn.
      * assert (Hv : valid e = false).
        { apply Ha1 in Hl as Hh. apply holds_false in Hh.
          destruct (valid e); [|done]. destruct Hh. by split. }
        split; [done|]. by apply (Hc1 i e).
      * assert (Hv : valid e = false).
        { apply Ha2 in Hl as Hh. apply holds_false in Hh.
          destruct (valid e); [|done]. destruct Hh. by split. }
        split; [done|]. by apply (Hc2 i e).
    + intros Hf. subst s'. rewrite tlb_invalidate_l1_slot_reset by done.
      apply entry_at_upd_reset.
    + apply tlb_l1_invalidate.
    + intros Hclean. subst s'.
      rewrite (tlb_l2_invalidate_clean vpn s Hclean).
      split; [done|]. intros Hf2.
      assert (Hle : (0 <=? l2_find vpn s) = true) by (by apply Z.leb_le).
      rewrite Hle. apply entry_at_upd_reset.
    + intros Hf Hd Hsz. destruct Hok as [_ (Hlen2 & _)].
      by apply tlb_l2_invalidate_dirty.
Qed.

(** * Victim selection and the LRU order *)

(** C7: in each level victim selection returns the lowest-index invalid
    slot when there is one, and otherwise the slot whose last_access is
    smallest, the lowest index winning among equals (every slot before
    the victim has a strictly larger last_access).  Consequently, on a
    level of capacity N whose slots are all invalid, inserting N
    distinct VPNs evicts nothing, and inserting one more distinct VPN
    evicts the first-inserted VPN and keeps all the others; the stamps
    of the N insertions are strictly increasing as long as the logical
    clock of the level does not wrap. *)
Theorem victim_selection_lru :
  (0 < TLB_L1_SIZE)%nat -> (0 < TLB_L2_SIZE)%nat ->
  (forall s, exists m1 m2 : nat,
     l1_choose_victim s = Z.of_nat m1 /\ l2_choose_victim s = Z.of_nat m2 /\
     ((exists j : nat, (j < TLB_L1_SIZE)%nat /\
         valid (entry_at (tlb_l1 s) (Z.of_nat j)) = false) ->
      first_free (tlb_l1 s) TLB_L1_SIZE m1) /\
     ((forall j : nat, (j < TLB_L1_SIZE)%nat ->
         valid (entry_at (tlb_l1 s) (Z.of_nat j)) = true) ->
      first_lru (tlb_l1 s) TLB_L1_SIZE m1) /\
     ((exists j : nat, (j < TLB_L2_SIZE)%nat /\
         valid (entry_at (tlb_l2 s) (Z.of_nat j)) = false) ->
      first_free (tlb_l2 s) TLB_L2_SIZE m2) /\
     ((forall j : nat, (j < TLB_L2_SIZE)%nat ->
         valid (entry_at (tlb_l2 s) (Z.of_nat j)) = true) ->
      first_lru (tlb_l2 s) TLB_L2_SIZE m2)) /\
  (forall s xs x,
     length (tlb_l1 s) = TLB_L1_SIZE -> all_invalid (tlb_l1 s) ->
     length xs = TLB_L1_SIZE -> NoDup (map req_vpn (xs ++ [x])) ->
     0 <= lru_tick s -> lru_tick s + Z.of_nat TLB_L1_SIZE < 2 ^ 64 ->
     let sN := l1_insert_all xs s in
     let s' := l1_insert (req_vpn x) (req_ppn x) (req_dirty x) sN in
     (forall y, y ∈ xs -> 0 <= l1_find (req_vpn y) sN) /\
     (exists x0 rest, xs = x0 :: rest /\
        l1_find (req_vpn x0) s' = -1 /\
        forall y, y ∈ rest ++ [x] -> 0 <= l1_find (req_vpn y) s')) /\
  (forall s xs x,
     length (tlb_l2 s) = TLB_L2_SIZE -> all_invalid (tlb_l2 s) ->
     length xs = TLB_L2_SIZE -> NoDup (map req_vpn (xs ++ [x])) ->
     0 <= lru_tick2 s -> lru_tick2 s + Z.of_nat TLB_L2_SIZE < 2 ^ 64 ->
     let sN := l2_insert_all xs s in
     let s' := l2_insert (req_vpn x) (req_ppn x) (req_dirty x) sN in
     (forall y, y ∈ xs -> 0 <= l2_find (req_vpn y) sN) /\
     (exists x0 rest, xs = x0 :: rest /\
        l2_find (req_vpn x0) s' = -1 /\
        forall y, y ∈ rest ++ [x] -> 0 <= l2_find (req_vpn y) s')).
Proof.
  intros Hsz1 Hsz2. split; [|split].
  - intros s.
    destruct (choose_victim_spec (tlb_l1 s) TLB_L1_SIZE Hsz1)
      as (m1 & Hm1 & Hf1 & Hl1).
    destruct (choose_victim_spec (tlb_l2 s) TLB_L2_SIZE Hsz2)
      as (m2 & Hm2 & Hf2 & Hl2).
    exists m1, m2.
    split; [exact Hm1|]. split; [exact Hm2|]. split; [exact Hf1|].
    split; [exact Hl1|]. split; [exact Hf2|exact Hl2].
  - intros s xs x Hlen Hinv Hxs Hnd Ht Hbound sN s'.
    pose proof (first_in_first_out TLB_L1_SIZE (tlb_l1 s) (lru_tick s)
                  (wrap64 (lru_tick sN + 1)) xs x
                  Hsz1 Hlen Hinv Hxs Hnd Ht Hbound) as H.
    cbv zeta in H. unfold l1_find. subst s'.
    rewrite l1_insert_eq. cbn [tlb_l1 set_tlb_l1].
    subst sN. rewrite !l1_insert_all_view. exact H.
  - intros s xs x Hlen Hinv Hxs Hnd Ht Hbound sN s'.
    pose proof (first_in_first_out TLB_L2_SIZE (tlb_l2 s) (lru_tick2 s)
                  (wrap64 (lru_tick2 sN + 1)) xs x
                  Hsz2 Hlen Hinv Hxs Hnd Ht Hbound) as H.
    cbv zeta in H. unfold l2_find. subst s'.
    rewrite l2_insert_eq. cbn [tlb_l2 set_tlb_l2].
    subst sN. rewrite !l2_insert_all_view. exact H.
Qed.

(** * Statistics *)

Lemma run_app (ops1 ops2 : list operation) (s : state) :
  run (ops1 ++ ops2) s = run ops2 (run ops1 s).
Proof. apply foldl_app. Qed.

(** C6, as the code has it.  Every call to tlb_translate increments
    (modulo 2^64) exactly one of the L1 hit and L1 miss counters; with
    the L1 miss counter it increments exactly one of the L2 hit and L2
    miss counters, with the L1 hit counter no L2 counter; it never
    changes an invalidation counter.  Along any sequence of translate
    and invalidate calls, none of the six counters decreases from one
    point of the sequence to a later one, provided the counters are
    non-negative at the start and far enough from 2^64 for the length of
    the sequence (initialize resets them to zero, and an increment at
    2^64 - 1 wraps to zero). *)
Theorem counters_monotone_exclusive :
  (forall va op s,
     let s' := snd (tlb_translate va op s) in
     counters s' =
       [wrap64 (tlb_l1_hits s + 1); tlb_l1_misses s; tlb_l1_invalidations s;
        tlb_l2_hits s; tlb_l2_misses s; tlb_l2_invalidations s] \/
     counters s' =
       [tlb_l1_hits s; wrap64 (tlb_l1_misses s + 1); tlb_l1_invalidations s;
        wrap64 (tlb_l2_hits s + 1); tlb_l2_misses s; tlb_l2_invalidations s] \/
     counters s' =
       [tlb_l1_hits s; wrap64 (tlb_l1_misses s + 1); tlb_l1_invalidations s;
        tlb_l2_hits s; wrap64 (tlb_l2_misses s + 1); tlb_l2_invalidations s]) /\
  (forall ops1 ops2 s,
     Forall (fun o => o <> Initialize) (ops1 ++ ops2) ->
     Forall (fun c => 0 <= c /\
                      c + Z.of_nat (length (ops1 ++ ops2)) < 2 ^ 64)
       (counters s) ->
     counters_rel Z.le (run ops1 s) (run (ops1 ++ ops2) s)).
Proof.
  split.
  - intros va op s s'.
    destruct (tlb_translate_counters va op s) as (Ha & Hb & Hc).
    destruct (Z.le_gt_cases 0 (l1_find (va_to_vpn va) s)) as [H1|H1];
      [left; by apply Ha|right].
    destruct (Z.le_gt_cases 0 (l2_find (va_to_vpn va) s)) as [H2|H2];
      [left; by apply Hb|right; by apply Hc].
  - intros ops1 ops2 s Hops Hb.
    apply Forall_app in Hops as [Hops1 Hops2].
    rewrite length_app, Nat2Z.inj_add in Hb.
    assert (Hb1 : Forall
              (fun c => 0 <= c /\ c + Z.of_nat (length ops1) < 2 ^ 64)
              (counters s)).
    { eapply Forall_impl; [exact Hb|]. simpl. intros c Hc. lia. }
    pose proof (run_counters ops1 s Hops1 Hb1) as H1.
    assert (Hb2 : Forall
              (fun c => 0 <= c /\ c + Z.of_nat (length ops2) < 2 ^ 64)
              (counters (run ops1 s))).
    { unfold counters_rel in H1. revert Hb H1.
      generalize (counters s) (counters (run ops1 s)).
      intros cs cs' Hb H1. induction H1 as [|c c' cs cs' Hc Hrest IHr].
      - constructor.
      - apply Forall_cons in Hb as [Hc0 Hb].
        constructor; [lia|by apply IHr]. }
    rewrite run_app.
    pose proof (run_counters ops2 (run ops1 s) Hops2 Hb2) as H2.
    unfold counters_rel in *.
    eapply Forall2_impl; [exact H2|]. simpl. intros c c' Hc. lia.
Qed.

(** * Further properties of the module *)

(** ** Address composition *)

Lemma small_testbit_high (x b n : Z) :
  0 <= b -> 0 <= x < 2 ^ b -> b <= n -> Z.testbit x n = false.
Proof.
  intros Hb Hx Hn. rewrite <- (Z.mod_small x (2 ^ b)) by lia.
  apply Z.mod_pow2_bits_high. lia.
Qed.

Lemma compose_pa_testbit (ppn off n : Z) :
  0 <= PAGE_SIZE_BITS -> 0 <= off < 2 ^ PAGE_SIZE_BITS -> 0 <= n ->
  Z.testbit (compose_pa ppn off) n =
  if n <? PAGE_SIZE_BITS then Z.testbit off n
  else Z.testbit ppn (n - PAGE_SIZE_BITS) && (n <? 64).
Proof.
  intros Hb Hoff Hn. unfold compose_pa, wrap64.
  rewrite Z.lor_spec, <- Z.land_ones, Z.land_spec, Z.shiftl_spec by lia.
  destruct (n <? PAGE_SIZE_BITS) eqn:Hlt.
  - apply Z.ltb_lt in Hlt. rewrite Z.testbit_neg_r by lia. done.
  - apply Z.ltb_ge in Hlt.
    rewrite (small_testbit_high off PAGE_SIZE_BITS n) by lia.
    rewrite orb_false_r. f_equal.
    destruct (n <? 64) eqn:H64.
    + apply Z.ltb_lt in H64. apply Z.ones_spec_low. lia.
    + apply Z.ltb_ge in H64. apply Z.ones_spec_high. lia.
Qed.

Lemma compose_pa_split (ppn off : Z) :
  0 <= PAGE_SIZE_BITS <= 32 -> 0 <= off < 2 ^ PAGE_SIZE_BITS ->
  va_offset (compose_pa ppn off) = off /\
  pa_to_ppn (compose_pa ppn off) = ppn mod 2 ^ (64 - PAGE_SIZE_BITS) /\
  0 <= compose_pa ppn off < 2 ^ 64.
Proof.
  intros Hb Hoff.
  assert (Hlow : Z.land (compose_pa ppn off) (Z.ones PAGE_SIZE_BITS) = off).
  { apply Z.bits_inj'. intros n Hn.
    rewrite Z.land_spec, compose_pa_testbit by lia.
    destruct (n <? PAGE_SIZE_BITS) eqn:Hlt.
    - apply Z.ltb_lt in Hlt. rewrite Z.ones_spec_low by lia.
      apply andb_true_r.
    - apply Z.ltb_ge in Hlt. rewrite Z.ones_spec_high by lia.
      rewrite (small_testbit_high off PAGE_SIZE_BITS n) by lia.
      apply andb_false_r. }
  split; [|split].
  - unfold va_offset, PAGE_OFFSET_MASK, wrap32. rewrite Hlow.
    apply Z.mod_small.
    assert (2 ^ PAGE_SIZE_BITS <= 2 ^ 32) by (apply Z.pow_le_mono_r; lia).
    lia.
  - unfold pa_to_ppn. apply Z.bits_inj'. intros n Hn.
    rewrite Z.shiftr_spec, compose_pa_testbit by lia.
    assert (Hge : (n + PAGE_SIZE_BITS <? PAGE_SIZE_BITS) = false)
      by (apply Z.ltb_ge; lia).
    rewrite Hge. replace (n + PAGE_SIZE_BITS - PAGE_SIZE_BITS) with n by lia.
    destruct (n + PAGE_SIZE_BITS <? 64) eqn:H64.
    + apply Z.ltb_lt in H64. rewrite Z.mod_pow2_bits_low by lia.
      apply andb_true_r.
    + apply Z.ltb_ge in H64. rewrite Z.mod_pow2_bits_high by lia.
      apply andb_false_r.
  - assert (Hmod : compose_pa ppn off mod 2 ^ 64 = compose_pa ppn off).
    { apply Z.bits_inj'. intros n Hn.
      destruct (Z.lt_ge_cases n 64) as [Hlt|Hge].
      - by rewrite Z.mod_pow2_bits_low by lia.
      - rewrite Z.mod_pow2_bits_high by lia.
        rewrite compose_pa_testbit by lia.
        assert (H1 : (n <? PAGE_SIZE_BITS) = false) by (apply Z.ltb_ge; lia).
        assert (H2 : (n <? 64) = false) by (apply Z.ltb_ge; lia).
        rewrite H1, H2. symmetry. apply andb_false_r. }
    rewrite <- Hmod. apply Z.mod_pos_bound. lia.
Qed.

(** The offset of any address is below the page size. *)
Lemma va_offset_bound (va : Z) :
  0 <= PAGE_SIZE_BITS <= 32 -> 0 <= va_offset va < 2 ^ PAGE_SIZE_BITS.
Proof.
  intros Hb.
  assert (Hp : 0 < 2 ^ PAGE_SIZE_BITS) by (apply Z.pow_pos_nonneg; lia).
  unfold va_offset, PAGE_OFFSET_MASK, wrap32.
  rewrite Z.land_ones by lia.
  pose proof (Z.mod_pos_bound va (2 ^ PAGE_SIZE_BITS) Hp).
  assert (2 ^ PAGE_SIZE_BITS <= 2 ^ 32) by (apply Z.pow_le_mono_r; lia).
  rewrite Z.mod_small; lia.
Qed.

(** X1: taking apart a composed address.  For an offset below the page
    size, the offset of [compose_pa ppn off] is [off], whatever the
    page number; its page number is [ppn] reduced modulo
    2^(64 - PAGE_SIZE_BITS), the bits shifted out of the 64-bit word
    being lost, hence [ppn] itself when it fits; and the composed
    address is a 64-bit value. *)
Theorem compose_pa_parts (ppn off : Z) :
  0 <= PAGE_SIZE_BITS <= 32 -> 0 <= off < 2 ^ PAGE_SIZE_BITS ->
  va_offset (compose_pa ppn off) = off /\
  pa_to_ppn (compose_pa ppn off) = ppn mod 2 ^ (64 - PAGE_SIZE_BITS) /\
  (0 <= ppn < 2 ^ (64 - PAGE_SIZE_BITS) ->
   pa_to_ppn (compose_pa ppn off) = ppn) /\
  0 <= compose_pa ppn off < 2 ^ 64.
Proof.
  intros Hb Hoff.
  destruct (compose_pa_split ppn off Hb Hoff) as (Hlow & Hhigh & Hrange).
  split; [done|]. split; [done|]. split; [|done].
  intros Hppn. rewrite Hhigh. apply Z.mod_small. exact Hppn.
Qed.

(** X2: the parts of a 64-bit address are in range: the offset is below
    the page size and the page number below 2^(64 - PAGE_SIZE_BITS), so
    that composing them loses nothing. *)
Theorem address_parts_range (va : Z) :
  0 <= PAGE_SIZE_BITS <= 32 -> 0 <= va < 2 ^ 64 ->
  0 <= va_offset va < 2 ^ PAGE_SIZE_BITS /\
  0 <= va_to_vpn va < 2 ^ (64 - PAGE_SIZE_BITS) /\
  va = va_to_vpn va * 2 ^ PAGE_SIZE_BITS + va_offset va.
Proof.
  intros Hb Hva.
  assert (Hp : 0 < 2 ^ PAGE_SIZE_BITS) by (apply Z.pow_pos_nonneg; lia).
  assert (Hoff : va_offset va = va mod 2 ^ PAGE_SIZE_BITS).
  { unfold va_offset, PAGE_OFFSET_MASK, wrap32.
    rewrite Z.land_ones by lia. apply Z.mod_small.
    pose proof (Z.mod_pos_bound va (2 ^ PAGE_SIZE_BITS) Hp).
    assert (2 ^ PAGE_SIZE_BITS <= 2 ^ 32) by (apply Z.pow_le_mono_r; lia).
    lia. }
  assert (Hvpn : va_to_vpn va = va / 2 ^ PAGE_SIZE_BITS).
  { unfold va_to_vpn. apply Z.shiftr_div_pow2. lia. }
  rewrite Hoff, Hvpn.
  split; [apply Z.mod_pos_bound; lia|]. split.
  - split; [apply Z.div_pos; lia|].
    apply Z.div_lt_upper_bound; [lia|].
    rewrite <- Z.pow_add_r by lia.
    replace (PAGE_SIZE_BITS + (64 - PAGE_SIZE_BITS)) with 64 by lia. lia.
  - rewrite Z.mul_comm. apply Z.div_mod. lia.
Qed.

(** ** The paths of a translation, one equation each *)

Lemma holds_entry_at_none (a : list tlb_entry_t) (vpn : Z) (j : nat) :
  a !! j = None -> holds vpn (entry_at a (Z.of_nat j)) = false.
Proof. intros H. by rewrite entry_at_nat, H. Qed.

Lemma find_loop_result (a : list tlb_entry_t) (size : nat) (vpn : Z) :
  find_result a size vpn (find_loop a vpn size 0).
Proof.
  destruct (find_loop_spec a vpn size 0)
    as [[Hr Hall]|(m & e & Hr & Hm & Hl & Hh & Hall)];
    change (Z.of_nat 0) with 0 in *.
  - left. split; [done|]. intros j Hj.
    destruct (a !! j) as [e|] eqn:He.
    + rewrite (entry_at_lookup _ _ _ He). apply (Hall j e); [lia|done].
    + by apply holds_entry_at_none.
  - right. exists m. split; [done|]. split; [lia|].
    rewrite (entry_at_lookup _ _ _ Hl). split; [done|]. intros j Hj.
    destruct (a !! j) as [e'|] eqn:He.
    + rewrite (entry_at_lookup _ _ _ He). apply (Hall j e'); [lia|done].
    + by apply holds_entry_at_none.
Qed.

Lemma l2_insert_trace (vpn ppn : Z) (d : bool) (s : state) :
  trace (l2_insert vpn ppn d s) =
  trace s ++ l2_insert_writeback (tlb_l2 s) vpn.
Proof. by rewrite l2_insert_eq. Qed.

Lemma l1_insert_trace (vpn ppn : Z) (d : bool) (s : state) :
  trace (l1_insert vpn ppn d s) = trace s ++ l1_insert_writeback vpn s.
Proof.
  rewrite l1_insert_eq. cbn [trace set_tlb_l1 set_lru_tick].
  unfold l1_insert_spill, l1_insert_writeback.
  destruct (0 <=? l1_find vpn s); [by rewrite app_nil_r|].
  destruct (valid (entry_at (tlb_l1 s) (l1_choose_victim s)) &&
            dirty (entry_at (tlb_l1 s) (l1_choose_victim s)));
    [apply l2_insert_trace|by rewrite app_nil_r].
Qed.

Lemma l1_insert_writeback_sink (vpn : Z) (s : state) :
  Forall is_writeback (l1_insert_writeback vpn s) /\
  (length (l1_insert_writeback vpn s) <= 1)%nat.
Proof.
  unfold l1_insert_writeback. repeat case_match;
    try (split; [constructor|simpl; lia]).
  apply l2_insert_writeback_sink.
Qed.

Lemma touch_keeps_ppn (op : op_t) (t : Z) (a : list tlb_entry_t) (i : Z) :
  physical_page_number (entry_at (entry_upd (touch_entry op t) a i) i) =
  physical_page_number (entry_at a i).
Proof.
  unfold entry_at. rewrite lookup_entry_upd.
  destruct (decide (Z.to_nat i = Z.to_nat i)); [|done].
  by destruct (a !! Z.to_nat i).
Qed.

Lemma tlb_translate_l2_hit_eq (va : Z) (op : op_t) (s : state) :
  l1_find (va_to_vpn va) s < 0 -> 0 <= l2_find (va_to_vpn va) s ->
  tlb_translate va op s =
    (compose_pa
       (physical_page_number
          (entry_at (tlb_l2 s) (l2_find (va_to_vpn va) s)))
       (va_offset va),
     l1_insert (va_to_vpn va)
       (physical_page_number
          (entry_at (tlb_l2 s) (l2_find (va_to_vpn va) s)))
       (op_is_write op)
       (l2_hit_state op (l2_find (va_to_vpn va) s) s)).
Proof.
  intros H1 H2. unfold tlb_translate. cbv zeta.
  change (l1_find (va_to_vpn va) (increment_time TLB_L1_LATENCY_NS s))
    with (l1_find (va_to_vpn va) s).
  assert (E1 : (0 <=? l1_find (va_to_vpn va) s) = false)
    by (apply Z.leb_gt; exact H1).
  rewrite E1.
  match goal with |- context [0 <=? l2_find (va_to_vpn va) ?st] =>
    change (l2_find (va_to_vpn va) st) with (l2_find (va_to_vpn va) s) end.
  assert (E2 : (0 <=? l2_find (va_to_vpn va) s) = true)
    by (apply Z.leb_le; exact H2).
  rewrite E2. cbn [tlb_l2 set_tlb_l2].
  rewrite touch_keeps_ppn. reflexivity.
Qed.

Lemma tlb_translate_miss_eq (va : Z) (op : op_t) (s : state) :
  l1_find (va_to_vpn va) s < 0 -> l2_find (va_to_vpn va) s < 0 ->
  tlb_translate va op s =
    (page_table_translate
       (trace s ++ [EvTime TLB_L1_LATENCY_NS; EvTime TLB_L2_LATENCY_NS])
       va op,
     l2_insert (va_to_vpn va)
       (pa_to_ppn
          (page_table_translate
             (trace s ++
              [EvTime TLB_L1_LATENCY_NS; EvTime TLB_L2_LATENCY_NS])
             va op))
       (op_is_write op)
       (l1_insert (va_to_vpn va)
          (pa_to_ppn
             (page_table_translate
                (trace s ++
                 [EvTime TLB_L1_LATENCY_NS; EvTime TLB_L2_LATENCY_NS])
                va op))
          (op_is_write op) (l2_miss_state va op s))).
Proof.
  intros H1 H2. unfold tlb_translate. cbv zeta.
  change (l1_find (va_to_vpn va) (increment_time TLB_L1_LATENCY_NS s))
    with (l1_find (va_to_vpn va) s).
  assert (E1 : (0 <=? l1_find (va_to_vpn va) s) = false)
    by (apply Z.leb_gt; exact H1).
  rewrite E1.
  match goal with |- context [0 <=? l2_find (va_to_vpn va) ?st] =>
    change (l2_find (va_to_vpn va) st) with (l2_find (va_to_vpn va) s) end.
  assert (E2 : (0 <=? l2_find (va_to_vpn va) s) = false)
    by (apply Z.leb_gt; exact H2).
  rewrite E2.
  cbn [trace set_l2_misses increment_time emit set_l1_misses].
  rewrite <- app_assoc. reflexivity.
Qed.

(** ** Measures of a trace *)

Lemma time_charged_app (tr1 tr2 : list event) :
  time_charged (tr1 ++ tr2) = time_charged tr1 + time_charged tr2.
Proof.
  induction tr1 as [|[ns|pa|va op] tr1 IH]; simpl; rewrite ?IH; lia.
Qed.

Lemma sink_calls_app (tr1 tr2 : list event) :
  sink_calls (tr1 ++ tr2) = sink_calls tr1 ++ sink_calls tr2.
Proof.
  induction tr1 as [|[ns|pa|va op] tr1 IH]; simpl; by rewrite ?IH.
Qed.

Lemma resolver_calls_app (tr1 tr2 : list event) :
  resolver_calls (tr1 ++ tr2) = resolver_calls tr1 ++ resolver_calls tr2.
Proof.
  induction tr1 as [|[ns|pa|va op] tr1 IH]; simpl; by rewrite ?IH.
Qed.

Lemma writebacks_measures (wbs : list event) :
  Forall is_writeback wbs ->
  time_charged wbs = 0 /\ resolver_calls wbs = [] /\
  length (sink_calls wbs) = length wbs.
Proof.
  induction 1 as [|ev wbs [pa ->] _ (IH1 & IH2 & IH3)]; [done|].
  simpl. by rewrite IH3.
Qed.

(** The calls made by one translation, by path. *)
Lemma tlb_translate_calls (va : Z) (op : op_t) (s : state) :
  (0 <= l1_find (va_to_vpn va) s /\
   trace (snd (tlb_translate va op s)) =
     trace s ++ [EvTime TLB_L1_LATENCY_NS]) \/
  (l1_find (va_to_vpn va) s < 0 /\ 0 <= l2_find (va_to_vpn va) s /\
   exists wbs,
     trace (snd (tlb_translate va op s)) =
       trace s ++
       [EvTime TLB_L1_LATENCY_NS; EvTime TLB_L2_LATENCY_NS] ++ wbs /\
     Forall is_writeback wbs /\ (length wbs <= 1)%nat) \/
  (l1_find (va_to_vpn va) s < 0 /\ l2_find (va_to_vpn va) s < 0 /\
   exists wbs,
     trace (snd (tlb_translate va op s)) =
       trace s ++
       [EvTime TLB_L1_LATENCY_NS; EvTime TLB_L2_LATENCY_NS;
        EvPageTable va op] ++ wbs /\
     Forall is_writeback wbs /\ (length wbs <= 2)%nat).
Proof.
  destruct (Z.le_gt_cases 0 (l1_find (va_to_vpn va) s)) as [H1|H1].
  { left. split; [done|]. by rewrite tlb_translate_hit_eq. }
  right.
  destruct (Z.le_gt_cases 0 (l2_find (va_to_vpn va) s)) as [H2|H2].
  - left. split; [done|]. split; [done|].
    rewrite tlb_translate_l2_hit_eq by done. cbn [snd].
    exists (l1_insert_writeback (va_to_vpn va)
              (l2_hit_state op (l2_find (va_to_vpn va) s) s)).
    rewrite l1_insert_trace. split; [|apply l1_insert_writeback_sink].
    cbn [trace l2_hit_state l1_miss_state set_tlb_l2 set_lru_tick2
         set_l2_hits increment_time emit set_l1_misses].
    by rewrite <- !app_assoc.
  - right. split; [done|]. split; [done|].
    rewrite tlb_translate_miss_eq by done. cbn [snd].
    rewrite l2_insert_trace, l1_insert_trace.
    set (w1 := l1_insert_writeback (va_to_vpn va) (l2_miss_state va op s)).
    set (w2 := l2_insert_writeback _ (va_to_vpn va)).
    assert (Hw1 : Forall is_writeback w1 /\ (length w1 <= 1)%nat)
      by apply l1_insert_writeback_sink.
    assert (Hw2 : Forall is_writeback w2 /\ (length w2 <= 1)%nat)
      by apply l2_insert_writeback_sink.
    clearbody w1 w2. exists (w1 ++ w2). split; [|split].
    + cbn [trace l2_miss_state l1_miss_state set_l2_misses
           increment_time emit set_l1_misses].
      rewrite <- !app_assoc. reflexivity.
    + apply Forall_app. split; [apply Hw1|apply Hw2].
    + rewrite length_app. lia.
Qed.

(** ** Lookup *)

(** X3: each of the two find functions returns -1 exactly when none of
    the slots of its level is valid with the requested VPN, and
    otherwise the lowest index of such a slot, an index within the
    level. *)
Theorem find_lowest_slot (vpn : Z) (s : state) :
  find_result (tlb_l1 s) TLB_L1_SIZE vpn (l1_find vpn s) /\
  find_result (tlb_l2 s) TLB_L2_SIZE vpn (l2_find vpn s).
Proof. split; apply find_loop_result. Qed.

(** ** Initialization *)

Lemma absent_replicate (vpn : Z) (n : nat) :
  absent vpn (replicate n zero_entry).
Proof. intros i e H. apply lookup_replicate in H as [-> _]. done. Qed.

(** X4: initialization empties the module without calling any
    collaborator: the trace is unchanged, so entries that were dirty
    are dropped and not written back; the six accessors return 0; no
    lookup finds anything; and the next translation of any address is
    answered by the resolver. *)
Theorem tlb_init_empties (s : state) :
  let s' := tlb_init s in
  trace s' = trace s /\
  [get_total_tlb_l1_hits s'; get_total_tlb_l1_misses s';
   get_total_tlb_l1_invalidations s'; get_total_tlb_l2_hits s';
   get_total_tlb_l2_misses s'; get_total_tlb_l2_invalidations s'] =
    [0; 0; 0; 0; 0; 0] /\
  (forall vpn, l1_find vpn s' = -1 /\ l2_find vpn s' = -1) /\
  (forall va op,
     fst (tlb_translate va op s') =
       page_table_translate
         (trace s ++ [EvTime TLB_L1_LATENCY_NS; EvTime TLB_L2_LATENCY_NS])
         va op /\
     resolver_calls (trace (snd (tlb_translate va op s'))) =
       resolver_calls (trace s) ++ [(va, op)]).
Proof.
  intros s'.
  assert (Hfind : forall vpn, l1_find vpn s' = -1 /\ l2_find vpn s' = -1).
  { intros vpn. split; apply find_absent, absent_replicate. }
  split; [done|]. split; [done|]. split; [exact Hfind|].
  intros va op. destruct (Hfind (va_to_vpn va)) as [H1 H2].
  split; [by rewrite tlb_translate_miss_eq by lia|].
  destruct (tlb_translate_calls va op s')
    as [[Hh _]|[(_ & Hh & _)|(_ & _ & wbs & Htr & Hwb & _)]]; [lia|lia|].
  rewrite Htr. change (trace s') with (trace s).
  rewrite !resolver_calls_app.
  destruct (writebacks_measures wbs Hwb) as (_ & -> & _).
  by rewrite app_nil_r.
Qed.

(** ** Calls made by the two entry points *)

Lemma invalidate_l1_slot_trace (i : Z) (s : state) :
  trace (invalidate_l1_slot i s) =
  trace s ++
  (if dirty (entry_at (tlb_l1 s) i)
   then l2_insert_writeback (tlb_l2 s)
          (virtual_page_number (entry_at (tlb_l1 s) i))
   else []).
Proof.
  unfold invalidate_l1_slot. destruct (dirty (entry_at (tlb_l1 s) i)).
  - cbn [trace set_l1_invalidations set_tlb_l1]. apply l2_insert_trace.
  - cbn [trace set_l1_invalidations set_tlb_l1]. by rewrite app_nil_r.
Qed.

Lemma invalidate_l2_slot_trace (i : Z) (s : state) :
  trace (invalidate_l2_slot i s) =
  trace s ++
  (if dirty (entry_at (tlb_l2 s) i)
   then [EvWriteBack
           (compose_pa (physical_page_number (entry_at (tlb_l2 s) i)) 0)]
   else []).
Proof.
  unfold invalidate_l2_slot. destruct (dirty (entry_at (tlb_l2 s) i)).
  - reflexivity.
  - cbn [trace set_l2_invalidations set_tlb_l2]. by rewrite app_nil_r.
Qed.

(** The calls made by one invalidation. *)
Lemma tlb_invalidate_calls (vpn : Z) (s : state) :
  exists wbs,
    trace (tlb_invalidate vpn s) =
      trace s ++ [EvTime (TLB_L1_LATENCY_NS + TLB_L2_LATENCY_NS)] ++ wbs /\
    Forall is_writeback wbs /\ (length wbs <= 2)%nat.
Proof.
  rewrite tlb_invalidate_eq. cbv zeta.
  set (s0 := increment_time (TLB_L1_LATENCY_NS + TLB_L2_LATENCY_NS) s).
  set (s1 := if 0 <=? l1_find vpn s0
             then invalidate_l1_slot (l1_find vpn s0) s0 else s0).
  assert (H1 : exists w1, trace s1 = trace s0 ++ w1 /\
             Forall is_writeback w1 /\ (length w1 <= 1)%nat).
  { subst s1. destruct (0 <=? l1_find vpn s0).
    - rewrite invalidate_l1_slot_trace. eexists. split; [done|].
      destruct (dirty (entry_at (tlb_l1 s0) (l1_find vpn s0)));
        [apply l2_insert_writeback_sink|].
      split; [constructor|simpl; lia].
    - exists []. rewrite app_nil_r. split; [done|].
      split; [constructor|simpl; lia]. }
  destruct H1 as (w1 & Ht1 & Hw1 & Hl1).
  assert (H2 : exists w2,
             trace (if 0 <=? l2_find vpn s1
                    then invalidate_l2_slot (l2_find vpn s1) s1 else s1) =
               trace s1 ++ w2 /\
             Forall is_writeback w2 /\ (length w2 <= 1)%nat).
  { destruct (0 <=? l2_find vpn s1).
    - rewrite invalidate_l2_slot_trace. eexists. split; [done|].
      destruct (dirty (entry_at (tlb_l2 s1) (l2_find vpn s1))).
      + split; [|simpl; lia]. constructor; [by eexists|constructor].
      + split; [constructor|simpl; lia].
    - exists []. rewrite app_nil_r. split; [done|].
      split; [constructor|simpl; lia]. }
  destruct H2 as (w2 & Ht2 & Hw2 & Hl2).
  exists (w1 ++ w2). rewrite Ht2, Ht1. split; [|split].
  - subst s0. cbn [trace increment_time emit]. by rewrite <- !app_assoc.
  - by apply Forall_app.
  - rewrite length_app. lia.
Qed.

(** X5: what one translation costs and whom it calls, for every state.
    It charges the clock the L1 latency first; on an L1 hit that is its
    only call; on an L1 miss it also charges the L2 latency, so the
    time charged is the L1 latency on an L1 hit and the sum of the two
    latencies otherwise.  The resolver is called once, with the address
    and access kind of the request, exactly when both levels miss.  The
    sink is called at most once on an L2 hit and at most twice on a
    miss in both levels, never on an L1 hit. *)
Theorem translate_call_pattern (va : Z) (op : op_t) (s : state) :
  let vpn := va_to_vpn va in
  exists evs,
    trace (snd (tlb_translate va op s)) =
      trace s ++ EvTime TLB_L1_LATENCY_NS :: evs /\
    time_charged (EvTime TLB_L1_LATENCY_NS :: evs) =
      (if 0 <=? l1_find vpn s then TLB_L1_LATENCY_NS
       else TLB_L1_LATENCY_NS + TLB_L2_LATENCY_NS) /\
    resolver_calls evs =
      (if (0 <=? l1_find vpn s) || (0 <=? l2_find vpn s) then []
       else [(va, op)]) /\
    (length (sink_calls evs) <=
       (if (0 <=? l1_find vpn s)%Z then 0
        else if (0 <=? l2_find vpn s)%Z then 1 else 2))%nat.
Proof.
  intros vpn. subst vpn.
  destruct (tlb_translate_calls va op s)
    as [[H1 Htr]|[(H1 & H2 & wbs & Htr & Hwb & Hlen)
                 |(H1 & H2 & wbs & Htr & Hwb & Hlen)]].
  - exists []. apply Z.leb_le in H1. rewrite H1. simpl.
    split; [done|]. split; [lia|]. split; [done|lia].
  - exists (EvTime TLB_L2_LATENCY_NS :: wbs).
    destruct (writebacks_measures wbs Hwb) as (Ht & Hr & Hs).
    apply Z.leb_gt in H1. apply Z.leb_le in H2. rewrite H1, H2.
    split; [exact Htr|]. cbn [time_charged resolver_calls sink_calls orb].
    rewrite Ht, Hr, Hs. split; [lia|]. split; [done|lia].
  - exists (EvTime TLB_L2_LATENCY_NS :: EvPageTable va op :: wbs).
    destruct (writebacks_measures wbs Hwb) as (Ht & Hr & Hs).
    apply Z.leb_gt in H1. apply Z.leb_gt in H2. rewrite H1, H2.
    split; [exact Htr|]. cbn [time_charged resolver_calls sink_calls orb].
    rewrite Ht, Hr, Hs. split; [lia|]. split; [done|lia].
Qed.

(** X6: what one invalidation costs and whom it calls, for every
    state: it charges the clock once, the sum of the two latencies,
    before anything else; it never calls the resolver; and it calls the
    sink at most twice. *)
Theorem invalidate_call_pattern (vpn : Z) (s : state) :
  exists wbs,
    trace (tlb_invalidate vpn s) =
      trace s ++ EvTime (TLB_L1_LATENCY_NS + TLB_L2_LATENCY_NS) :: wbs /\
    time_charged (EvTime (TLB_L1_LATENCY_NS + TLB_L2_LATENCY_NS) :: wbs) =
      TLB_L1_LATENCY_NS + TLB_L2_LATENCY_NS /\
    resolver_calls wbs = [] /\
    (length (sink_calls wbs) <= 2)%nat.
Proof.
  destruct (tlb_invalidate_calls vpn s) as (wbs & Htr & Hwb & Hlen).
  exists wbs. destruct (writebacks_measures wbs Hwb) as (Ht & Hr & Hs).
  split; [exact Htr|]. cbn [time_charged]. rewrite Ht, Hr, Hs.
  split; [lia|]. split; [done|lia].
Qed.

(** ** Accounting *)

Lemma wrap64_succ (c : Z) : 0 <= c -> c + 1 < 2 ^ 64 -> wrap64 (c + 1) = c + 1.
Proof. intros H0 H1. unfold wrap64. apply Z.mod_small. lia. Qed.

Lemma run_account (ops : list operation) :
  forall s,
  Forall (fun o => o <> Initialize) ops ->
  Forall (fun c => 0 <= c /\ c + Z.of_nat (length ops) < 2 ^ 64)
    (counters s) ->
  tlb_l1_hits (run ops s) + tlb_l1_misses (run ops s) =
    tlb_l1_hits s + tlb_l1_misses s + Z.of_nat (count_translate ops) /\
  tlb_l2_hits (run ops s) + tlb_l2_misses (run ops s)
    - tlb_l1_misses (run ops s) =
    tlb_l2_hits s + tlb_l2_misses s - tlb_l1_misses s /\
  tlb_l1_invalidations s <= tlb_l1_invalidations (run ops s)
    <= tlb_l1_invalidations s + Z.of_nat (count_invalidate ops) /\
  tlb_l2_invalidations s <= tlb_l2_invalidations (run ops s)
    <= tlb_l2_invalidations s + Z.of_nat (count_invalidate ops).
Proof.
  induction ops as [|o ops IH]; intros s Hops Hb.
  - simpl. lia.
  - apply Forall_cons in Hops as [Ho Hops].
    change (run (o :: ops) s) with (run ops (step o s)).
    unfold counters in Hb.
    repeat (apply Forall_cons in Hb as [? Hb]). simpl length in *.
    destruct o as [|va op|vpn]; [done| |].
    + cbn [step count_translate count_invalidate].
      assert (Hc : exists h1 m1 h2 m2,
        counters (snd (tlb_translate va op s)) =
          [h1; m1; tlb_l1_invalidations s; h2; m2; tlb_l2_invalidations s] /\
        h1 + m1 = tlb_l1_hits s + tlb_l1_misses s + 1 /\
        h2 + m2 - m1 = tlb_l2_hits s + tlb_l2_misses s - tlb_l1_misses s /\
        tlb_l1_hits s <= h1 <= tlb_l1_hits s + 1 /\
        tlb_l1_misses s <= m1 <= tlb_l1_misses s + 1 /\
        tlb_l2_hits s <= h2 <= tlb_l2_hits s + 1 /\
        tlb_l2_misses s <= m2 <= tlb_l2_misses s + 1).
      { destruct (tlb_translate_counters va op s) as (Ha & Hb' & Hc).
        destruct (Z.le_gt_cases 0 (l1_find (va_to_vpn va) s)) as [F1|F1].
        - rewrite (Ha F1), wrap64_succ by lia.
          do 4 eexists. split; [reflexivity|]. lia.
        - destruct (Z.le_gt_cases 0 (l2_find (va_to_vpn va) s)) as [F2|F2].
          + rewrite (Hb' F1 F2), !wrap64_succ by lia.
            do 4 eexists. split; [reflexivity|]. lia.
          + rewrite (Hc F1 F2), !wrap64_succ by lia.
            do 4 eexists. split; [reflexivity|]. lia. }
      destruct Hc as (h1 & m1 & h2 & m2 & Hc & E1 & E2 & B1 & B2 & B3 & B4).
      specialize (IH (snd (tlb_translate va op s)) Hops).
      rewrite Hc in IH. unfold counters in Hc.
      injection Hc as <- <- Hi1 <- <- Hi2.
      rewrite Hi1, Hi2 in *.
      destruct IH as (I1 & I2 & I3 & I4);
        [repeat (apply Forall_cons; split); try lia; constructor|].
      lia.
    + cbn [step count_translate count_invalidate].
      destruct (tlb_invalidate_counters vpn s) as (i1 & i2 & Hc & Hi1 & Hi2).
      assert (B1 : tlb_l1_invalidations s <= i1
                   <= tlb_l1_invalidations s + 1).
      { destruct Hi1 as [->| ->]; [lia|]. rewrite wrap64_succ by lia. lia. }
      assert (B2 : tlb_l2_invalidations s <= i2
                   <= tlb_l2_invalidations s + 1).
      { destruct Hi2 as [->| ->]; [lia|]. rewrite wrap64_succ by lia. lia. }
      specialize (IH (tlb_invalidate vpn s) Hops).
      rewrite Hc in IH. unfold counters in Hc.
      injection Hc as Hh1 Hm1 <- Hh2 Hm2 <-.
      rewrite Hh1, Hm1, Hh2, Hm2 in *.
      destruct IH as (I1 & I2 & I3 & I4);
        [repeat (apply Forall_cons; split); try lia; constructor|].
      lia.
Qed.

(** X7: what the six accessors add up to.  After any sequence of fewer
    than 2^64 translate and invalidate calls from the initial state,
    L1 hits plus L1 misses is the number of translate calls, L2 hits
    plus L2 misses is the number of L1 misses, and each invalidation
    count is at most the number of invalidate calls. *)
Theorem statistics_account (ops : list operation) :
  Forall (fun o => o <> Initialize) ops ->
  Z.of_nat (length ops) < 2 ^ 64 ->
  let s := run ops initial_state in
  get_total_tlb_l1_hits s + get_total_tlb_l1_misses s =
    Z.of_nat (count_translate ops) /\
  get_total_tlb_l2_hits s + get_total_tlb_l2_misses s =
    get_total_tlb_l1_misses s /\
  0 <= get_total_tlb_l1_invalidations s <= Z.of_nat (count_invalidate ops) /\
  0 <= get_total_tlb_l2_invalidations s <= Z.of_nat (count_invalidate ops).
Proof.
  intros Hops Hlen s.
  destruct (run_account ops initial_state Hops) as (H1 & H2 & H3 & H4).
  { unfold counters. simpl.
    repeat (apply Forall_cons; split); try lia; constructor. }
  unfold get_total_tlb_l1_hits, get_total_tlb_l1_misses,
    get_total_tlb_l2_hits, get_total_tlb_l2_misses,
    get_total_tlb_l1_invalidations, get_total_tlb_l2_invalidations.
  subst s. simpl in H1, H2, H3, H4. lia.
Qed.

(** ** Translate: the L2 hit path, and what every path leaves in L1 *)

Lemma find_minus_one_absent (a : list tlb_entry_t) (vpn : Z) (size : nat) :
  length a = size -> find_loop a vpn size 0 < 0 -> absent vpn a.
Proof.
  intros Hlen Hf. apply find_loop_none_absent. rewrite Hlen.
  pose proof (find_loop_ge a vpn size 0) as Hge.
  change (Z.of_nat 0) with 0 in Hge. lia.
Qed.

(** X8: the L2 hit path of a translation.  When L1 misses and L2 holds
    the VPN, the call returns the PPN cached in L2 composed with the
    offset of the request, counts one L1 miss and one L2 hit, does not
    call the resolver, and inserts the translation into L1 with the L1
    clock as stamp and dirty exactly for a write; the only calls after
    the two clock charges are at most one sink call, made when the L1
    victim is valid and dirty and its insertion into L2 evicts a dirty
    L2 entry.  When the L1 victim is not valid and dirty, L2 changes
    only in the hit slot, which gets the new L2 clock value and is
    marked dirty on a write. *)
Theorem tlb_translate_l2_hit (va : Z) (op : op_t) (s : state) :
  length (tlb_l1 s) = TLB_L1_SIZE -> (0 < TLB_L1_SIZE)%nat ->
  l1_find (va_to_vpn va) s = -1 -> 0 <= l2_find (va_to_vpn va) s ->
  let vpn := va_to_vpn va in
  let j := l2_find vpn s in
  let e2 := entry_at (tlb_l2 s) j in
  let ppn := physical_page_number e2 in
  let s' := snd (tlb_translate va op s) in
  fst (tlb_translate va op s) = compose_pa ppn (va_offset va) /\
  (valid e2 = true /\ virtual_page_number e2 = vpn) /\
  counters s' =
    [tlb_l1_hits s; wrap64 (tlb_l1_misses s + 1); tlb_l1_invalidations s;
     wrap64 (tlb_l2_hits s + 1); tlb_l2_misses s; tlb_l2_invalidations s] /\
  (exists wbs,
     trace s' =
       trace s ++
       [EvTime TLB_L1_LATENCY_NS; EvTime TLB_L2_LATENCY_NS] ++ wbs /\
     Forall is_writeback wbs /\ (length wbs <= 1)%nat) /\
  lru_tick s' = wrap64 (lru_tick s + 1) /\
  (exists i : nat, l1_find vpn s' = Z.of_nat i /\
     tlb_l1 s' !! i =
       Some (mk_entry true (op_is_write op) (lru_tick s') vpn ppn)) /\
  (valid (entry_at (tlb_l1 s) (l1_choose_victim s)) &&
   dirty (entry_at (tlb_l1 s) (l1_choose_victim s)) = false ->
   tlb_l2 s' =
     entry_upd (touch_entry op (wrap64 (lru_tick2 s + 1))) (tlb_l2 s) j /\
   lru_tick2 s' = wrap64 (lru_tick2 s + 1) /\
   trace s' =
     trace s ++ [EvTime TLB_L1_LATENCY_NS; EvTime TLB_L2_LATENCY_NS]).
Proof.
  intros Hlen Hsz H1 H2 vpn j e2 ppn s'. fold vpn in H1, H2.
  assert (Heq : tlb_translate va op s =
            (compose_pa ppn (va_offset va),
             l1_insert vpn ppn (op_is_write op) (l2_hit_state op j s)))
    by (apply tlb_translate_l2_hit_eq; [fold vpn; lia|done]).
  assert (Ha : absent vpn (tlb_l1 s)).
  { apply (find_minus_one_absent _ _ TLB_L1_SIZE Hlen).
    fold (l1_find vpn s). lia. }
  destruct (find_found_lookup (tlb_l2 s) vpn TLB_L2_SIZE H2)
    as (m2 & Hm2 & _ & _ & Hv2 & Hvpn2).
  fold (l2_find vpn s) in Hm2. fold j in Hm2.
  destruct (insert_array_fresh (tlb_l1 s) TLB_L1_SIZE vpn ppn
              (op_is_write op) (wrap64 (lru_tick s + 1)) Hlen Hsz Ha)
    as (m1 & _ & _ & _ & Hlk1 & Hfind1).
  subst s'. rewrite Heq. cbn [fst snd].
  split; [done|]. split; [subst e2; by rewrite Hm2|]. split.
  { by rewrite counters_l1_insert. }
  split.
  { destruct (tlb_translate_calls va op s)
      as [[Hh _]|[(_ & _ & Hex)|(_ & Hh & _)]];
      [fold vpn in Hh; lia| |fold vpn in Hh; lia].
    by rewrite Heq in Hex. }
  rewrite l1_insert_eq.
  cbn [lru_tick tlb_l1 tlb_l2 lru_tick2 trace set_tlb_l1 set_lru_tick
       l1_find].
  split; [done|]. split.
  { exists m1. unfold l1_find. cbn [tlb_l1 set_tlb_l1]. by split. }
  intros Hclean. unfold l1_insert_spill.
  change (l1_find vpn (l2_hit_state op j s)) with (l1_find vpn s).
  rewrite H1. change (0 <=? -1) with false. cbv iota zeta.
  change (tlb_l1 (l2_hit_state op j s)) with (tlb_l1 s).
  change (l1_choose_victim (l2_hit_state op j s))
    with (l1_choose_victim s).
  rewrite Hclean. split; [reflexivity|]. split; [reflexivity|].
  cbn [trace l2_hit_state l1_miss_state set_tlb_l2 set_lru_tick2
       set_l2_hits increment_time emit set_l1_misses].
  by rewrite <- app_assoc.
Qed.

(** Whatever its path, a translation leaves the page in L1. *)
Lemma translate_leaves_in_l1 (va : Z) (op : op_t) (s : state) :
  length (tlb_l1 s) = TLB_L1_SIZE -> (0 < TLB_L1_SIZE)%nat ->
  exists (i : nat) (e : tlb_entry_t),
    l1_find (va_to_vpn va) (snd (tlb_translate va op s)) = Z.of_nat i /\
    tlb_l1 (snd (tlb_translate va op s)) !! i = Some e /\
    valid e = true /\ virtual_page_number e = va_to_vpn va /\
    (op = OP_WRITE -> dirty e = true) /\
    (fst (tlb_translate va op s) =
       compose_pa (physical_page_number e) (va_offset va) \/
     physical_page_number e = pa_to_ppn (fst (tlb_translate va op s))) /\
    length (tlb_l1 (snd (tlb_translate va op s))) = TLB_L1_SIZE.
Proof.
  intros Hlen Hsz.
  destruct (Z.le_gt_cases 0 (l1_find (va_to_vpn va) s)) as [H1|H1].
  { destruct (find_found_lookup (tlb_l1 s) (va_to_vpn va) TLB_L1_SIZE H1)
      as (m & Hm & _ & Hl & Hv & Hvpn).
    fold (l1_find (va_to_vpn va) s) in Hm.
    exists m, (touch_entry op (wrap64 (lru_tick s + 1))
                 (entry_at (tlb_l1 s) (Z.of_nat m))).
    rewrite (l1_find_after_hit va op s H1).
    rewrite (tlb_translate_hit_eq va op s H1).
    cbn [fst snd tlb_l1]. rewrite Hm.
    split; [done|]. split.
    { rewrite lookup_entry_upd, Nat2Z.id.
      destruct (decide (m = m)); [|done]. by rewrite Hl. }
    split; [done|]. split; [done|]. split; [by intros ->|].
    split; [by left|]. by rewrite length_entry_upd. }
  set (vpn := va_to_vpn va) in *.
  assert (Ha : absent vpn (tlb_l1 s))
    by (by apply (find_minus_one_absent _ _ TLB_L1_SIZE Hlen)).
  assert (Hfresh : forall ppn st,
    tlb_l1 st = tlb_l1 s -> lru_tick st = lru_tick s ->
    exists (i : nat) (e : tlb_entry_t),
      find_loop (tlb_l1 (l1_insert vpn ppn (op_is_write op) st))
        vpn TLB_L1_SIZE 0 = Z.of_nat i /\
      tlb_l1 (l1_insert vpn ppn (op_is_write op) st) !! i = Some e /\
      valid e = true /\ virtual_page_number e = vpn /\
      (op = OP_WRITE -> dirty e = true) /\
      physical_page_number e = ppn /\
      length (tlb_l1 (l1_insert vpn ppn (op_is_write op) st)) =
        TLB_L1_SIZE).
  { intros ppn st Hst Ht. rewrite l1_insert_eq. cbn [tlb_l1 set_tlb_l1].
    rewrite Hst, Ht.
    destruct (insert_array_fresh (tlb_l1 s) TLB_L1_SIZE vpn ppn
                (op_is_write op) (wrap64 (lru_tick s + 1)) Hlen Hsz Ha)
      as (m1 & _ & _ & _ & Hlk1 & Hfind1).
    exists m1, (mk_entry true (op_is_write op)
                  (wrap64 (lru_tick s + 1)) vpn ppn).
    split; [done|]. split; [done|]. split; [done|]. split; [done|].
    split; [by intros ->|]. split; [done|].
    by rewrite length_insert_array. }
  destruct (Z.le_gt_cases 0 (l2_find vpn s)) as [H2|H2].
  - rewrite (tlb_translate_l2_hit_eq va op s H1 H2). fold vpn.
    cbn [fst snd].
    destruct (Hfresh
                (physical_page_number (entry_at (tlb_l2 s) (l2_find vpn s)))
                (l2_hit_state op (l2_find vpn s) s) eq_refl eq_refl)
      as (i & e & Hf & Hl & Hv & Hvpn & Hd & Hp & Hlen').
    exists i, e. rewrite Hp. unfold l1_find. by repeat split; try left.
  - rewrite (tlb_translate_miss_eq va op s H1 H2). fold vpn.
    cbn [fst snd]. rewrite l2_insert_eq.
    cbn [tlb_l1 set_tlb_l2 set_lru_tick2 emits].
    destruct (Hfresh
                (pa_to_ppn (page_table_translate
                   (trace s ++
                    [EvTime TLB_L1_LATENCY_NS; EvTime TLB_L2_LATENCY_NS])
                   va op))
                (l2_miss_state va op s) eq_refl eq_refl)
      as (i & e & Hf & Hl & Hv & Hvpn & Hd & Hp & Hlen').
    exists i, e. unfold l1_find. cbn [tlb_l1].
    split; [done|]. split; [done|]. split; [done|]. split; [done|].
    split; [done|]. split; [by right|done].
Qed.

(** X9: a translation caches its page in L1.  After a translation of an
    address (whatever its path), a translation of any address of the
    same page is an L1 hit: its only call is the charge of the L1
    latency, it counts one L1 hit and nothing else, leaves L2 as it is,
    and returns the offset of the new request composed with the page
    number L1 holds for the page, which is the one of the first result
    (the page number the first result was composed with, or, when the
    first result came from the resolver, the page number of that
    result). *)
Theorem second_translation_hits (va va' : Z) (op op' : op_t) (s : state) :
  length (tlb_l1 s) = TLB_L1_SIZE -> (0 < TLB_L1_SIZE)%nat ->
  va_to_vpn va' = va_to_vpn va ->
  let r1 := tlb_translate va op s in
  let r2 := tlb_translate va' op' (snd r1) in
  exists ppn,
    (fst r1 = compose_pa ppn (va_offset va) \/ ppn = pa_to_ppn (fst r1)) /\
    fst r2 = compose_pa ppn (va_offset va') /\
    trace (snd r2) = trace (snd r1) ++ [EvTime TLB_L1_LATENCY_NS] /\
    counters (snd r2) =
      [wrap64 (tlb_l1_hits (snd r1) + 1); tlb_l1_misses (snd r1);
       tlb_l1_invalidations (snd r1); tlb_l2_hits (snd r1);
       tlb_l2_misses (snd r1); tlb_l2_invalidations (snd r1)] /\
    tlb_l2 (snd r2) = tlb_l2 (snd r1).
Proof.
  intros Hlen Hsz Hsame r1 r2.
  destruct (translate_leaves_in_l1 va op s Hlen Hsz)
    as (i & e & Hf & Hl & Hv & Hvpn & _ & Hp & _).
  fold r1 in Hf, Hl, Hp.
  assert (Hhit : 0 <= l1_find (va_to_vpn va') (snd r1))
    by (rewrite Hsame, Hf; lia).
  exists (physical_page_number e). split; [exact Hp|].
  subst r2. rewrite (tlb_translate_hit_eq va' op' (snd r1) Hhit).
  cbn [fst snd trace counters tlb_l2 tlb_l1_hits tlb_l1_misses
       tlb_l1_invalidations tlb_l2_hits tlb_l2_misses tlb_l2_invalidations].
  rewrite Hsame, Hf, (entry_at_lookup _ _ _ Hl). done.
Qed.

(** ** Insertion into a level that has room *)

Lemma insert_array_keeps (a : list tlb_entry_t) (size : nat)
    (vpn ppn : Z) (d : bool) (t : Z) :
  length a = size -> has_room a size vpn ->
  (forall w, 0 <= find_loop a w size 0 ->
             0 <= find_loop (insert_array a size vpn ppn d t) w size 0) /\
  0 <= find_loop (insert_array a size vpn ppn d t) vpn size 0 /\
  (find_loop a vpn size 0 < 0 ->
   valid (entry_at a (choose_victim a size)) = false).
Proof.
  intros Hlen Hroom.
  destruct (Z.le_gt_cases 0 (find_loop a vpn size 0)) as [Hf|Hf].
  - destruct (find_found_lookup a vpn size Hf)
      as (m & Hm & Hlt & Hl & Hv & Hvpn).
    destruct (insert_array_inplace a size vpn ppn d t m Hm)
      as (Heq & Hfind & _ & _).
    split; [|split; [lia|lia]].
    intros w Hw. rewrite Heq.
    rewrite <- (find_loop_ext a _ w size 0); [done|].
    intros j. unfold entry_at at 2. rewrite lookup_entry_upd, Nat2Z.id.
    destruct (decide (m = Z.to_nat j)) as [Hj|]; [|done].
    unfold entry_at. rewrite <- Hj, Hl. simpl. unfold holds. simpl.
    by rewrite Hv.
  - destruct Hroom as [Hr|(j & Hj & Hinv)]; [lia|].
    assert (Hsz : (0 < size)%nat) by lia.
    assert (Ha : absent vpn a)
      by (by apply (find_minus_one_absent _ _ size Hlen)).
    destruct (choose_victim_spec a size Hsz) as (m & Hm & Hfree & _).
    destruct Hfree as (_ & Hminv & _); [by exists j|].
    destruct (insert_array_fresh a size vpn ppn d t Hlen Hsz Ha)
      as (m' & Hm' & _ & Heq & _ & Hfind).
    assert (m' = m) as -> by lia.
    split; [|split; [lia|by rewrite Hm]].
    intros w Hw.
    destruct (find_found_lookup a w size Hw)
      as (k & Hk & Hklt & Hkl & Hkv & Hkvpn).
    apply (find_present _ _ _ k (entry_at a (Z.of_nat k)) Hklt).
    + rewrite Heq, !lookup_entry_upd, Nat2Z.id.
      destruct (decide (m = k)) as [->|]; [congruence|done].
    + apply holds_true. by split.
Qed.

(** X10: an insertion into a level that has room evicts nothing.  When
    the level already holds the VPN or has an invalid slot, l2_insert
    makes no call (nothing is written back), leaves L1 alone, and every
    VPN that a lookup found before is still found afterwards, as is the
    inserted one; the same holds for l1_insert, which in that case
    leaves L2 and its clock untouched. *)
Theorem insert_with_room (vpn ppn : Z) (d : bool) (s : state) :
  (length (tlb_l2 s) = TLB_L2_SIZE ->
   has_room (tlb_l2 s) TLB_L2_SIZE vpn ->
   let s' := l2_insert vpn ppn d s in
   trace s' = trace s /\ tlb_l1 s' = tlb_l1 s /\
   0 <= l2_find vpn s' /\
   forall w, 0 <= l2_find w s -> 0 <= l2_find w s') /\
  (length (tlb_l1 s) = TLB_L1_SIZE ->
   has_room (tlb_l1 s) TLB_L1_SIZE vpn ->
   let s' := l1_insert vpn ppn d s in
   trace s' = trace s /\ tlb_l2 s' = tlb_l2 s /\
   lru_tick2 s' = lru_tick2 s /\
   0 <= l1_find vpn s' /\
   forall w, 0 <= l1_find w s -> 0 <= l1_find w s').
Proof.
  split.
  - intros Hlen Hroom s'.
    destruct (insert_array_keeps (tlb_l2 s) TLB_L2_SIZE vpn ppn d
                (wrap64 (lru_tick2 s + 1)) Hlen Hroom)
      as (Hkeep & Hin & Hvic).
    subst s'. rewrite l2_insert_eq. unfold l2_find.
    cbn [trace tlb_l1 tlb_l2 set_tlb_l2 set_lru_tick2 emits].
    split; [|by split].
    unfold l2_insert_writeback.
    destruct (0 <=? find_loop (tlb_l2 s) vpn TLB_L2_SIZE 0) eqn:Hf;
      [apply app_nil_r|].
    apply Z.leb_gt in Hf. unfold l2_evict_writeback.
    rewrite (Hvic Hf). apply app_nil_r.
  - intros Hlen Hroom s'.
    destruct (insert_array_keeps (tlb_l1 s) TLB_L1_SIZE vpn ppn d
                (wrap64 (lru_tick s + 1)) Hlen Hroom)
      as (Hkeep & Hin & Hvic).
    assert (Hspill : l1_insert_spill vpn s = s).
    { unfold l1_insert_spill, l1_find, l1_choose_victim.
      destruct (0 <=? find_loop (tlb_l1 s) vpn TLB_L1_SIZE 0) eqn:Hf;
        [done|].
      apply Z.leb_gt in Hf. by rewrite (Hvic Hf). }
    subst s'. rewrite l1_insert_eq, Hspill. unfold l1_find.
    cbn [trace tlb_l1 tlb_l2 lru_tick2 set_tlb_l1 set_lru_tick].
    by repeat split.
Qed.

(** ** Without a write nothing is written back *)

Lemma no_dirty_entry_at (a : list tlb_entry_t) (i : Z) :
  no_dirty a -> dirty (entry_at a i) = false.
Proof.
  intros H. unfold entry_at.
  destruct (a !! Z.to_nat i) as [e|] eqn:He; [by apply (H _ _ He)|done].
Qed.

Lemma no_dirty_upd f (a : list tlb_entry_t) (i : Z) :
  (forall e, dirty e = false -> dirty (f e) = false) ->
  no_dirty a -> no_dirty (entry_upd f a i).
Proof.
  intros Hf Ha j e. rewrite lookup_entry_upd.
  destruct (decide (Z.to_nat i = j)); [|apply Ha].
  destruct (a !! j) as [x|] eqn:He; [|done].
  simpl. intros [= <-]. apply Hf. by apply (Ha j).
Qed.

Lemma no_dirty_insert (a : list tlb_entry_t) (size : nat)
    (vpn ppn t : Z) :
  no_dirty a -> no_dirty (insert_array a size vpn ppn false t).
Proof.
  intros Ha. unfold insert_array. case_match.
  - apply no_dirty_upd; [|done]. intros e He. simpl. by rewrite He.
  - apply no_dirty_upd; [done|]. by apply no_dirty_upd.
Qed.

Lemma no_dirty_replicate (n : nat) : no_dirty (replicate n zero_entry).
Proof. intros i e H. apply lookup_replicate in H as [-> _]. done. Qed.

Lemma l2_insert_writeback_clean (a : list tlb_entry_t) (vpn : Z) :
  no_dirty a -> l2_insert_writeback a vpn = [].
Proof.
  intros Ha. unfold l2_insert_writeback, l2_evict_writeback.
  rewrite (no_dirty_entry_at a _ Ha), andb_false_r. by case_match.
Qed.

Lemma l1_insert_spill_clean (vpn : Z) (s : state) :
  no_dirty (tlb_l1 s) ->
  l1_insert_spill vpn s = s /\ l1_insert_writeback vpn s = [].
Proof.
  intros Ha. unfold l1_insert_spill, l1_insert_writeback.
  rewrite (no_dirty_entry_at _ _ Ha), andb_false_r. by case_match.
Qed.

(** A call that is no write keeps a state without dirty entries as it
    is in that respect, and reaches the sink with nothing. *)
Lemma step_read_clean (o : operation) (s : state) :
  is_read_operation o ->
  no_dirty (tlb_l1 s) -> no_dirty (tlb_l2 s) ->
  no_dirty (tlb_l1 (step o s)) /\ no_dirty (tlb_l2 (step o s)) /\
  sink_calls (trace (step o s)) = sink_calls (trace s).
Proof.
  intros Ho H1 H2. destruct o as [|va op|vpn].
  - cbn [step]. split; [apply no_dirty_replicate|].
    split; [apply no_dirty_replicate|done].
  - destruct op; [|done]. cbn [step].
    assert (Htouch : forall t e, dirty e = false ->
              dirty (touch_entry OP_READ t e) = false) by (by intros).
    destruct (Z.le_gt_cases 0 (l1_find (va_to_vpn va) s)) as [Hf1|Hf1].
    { rewrite (tlb_translate_hit_eq va OP_READ s Hf1).
      cbn [snd tlb_l1 tlb_l2 trace]. split; [by apply no_dirty_upd|].
      split; [done|]. rewrite sink_calls_app. apply app_nil_r. }
    destruct (Z.le_gt_cases 0 (l2_find (va_to_vpn va) s)) as [Hf2|Hf2].
    + rewrite (tlb_translate_l2_hit_eq va OP_READ s Hf1 Hf2). cbn [snd].
      set (sB := l2_hit_state OP_READ (l2_find (va_to_vpn va) s) s).
      assert (HB1 : no_dirty (tlb_l1 sB)) by exact H1.
      assert (HB2 : no_dirty (tlb_l2 sB)) by (by apply no_dirty_upd).
      destruct (l1_insert_spill_clean (va_to_vpn va) sB HB1) as [Hsp Hwb].
      rewrite l1_insert_trace, Hwb, app_nil_r.
      rewrite l1_insert_eq, Hsp. cbn [tlb_l1 tlb_l2 set_tlb_l1 set_lru_tick].
      split; [by apply no_dirty_insert|]. split; [done|].
      subst sB. cbn [trace l2_hit_state l1_miss_state set_tlb_l2
        set_lru_tick2 set_l2_hits increment_time emit set_l1_misses].
      rewrite !sink_calls_app. simpl. by rewrite !app_nil_r.
    + rewrite (tlb_translate_miss_eq va OP_READ s Hf1 Hf2). cbn [snd].
      set (ppn := pa_to_ppn _).
      set (sA := l2_miss_state va OP_READ s).
      assert (HA1 : no_dirty (tlb_l1 sA)) by exact H1.
      assert (HA2 : no_dirty (tlb_l2 sA)) by exact H2.
      destruct (l1_insert_spill_clean (va_to_vpn va) sA HA1) as [Hsp Hwb].
      set (s1 := l1_insert (va_to_vpn va) ppn (op_is_write OP_READ) sA).
      assert (Hs1 : tlb_l2 s1 = tlb_l2 s /\
                    no_dirty (tlb_l1 s1) /\ trace s1 = trace sA).
      { subst s1. rewrite l1_insert_trace, Hwb, app_nil_r.
        rewrite l1_insert_eq, Hsp.
        cbn [tlb_l1 tlb_l2 set_tlb_l1 set_lru_tick].
        split; [done|]. split; [by apply no_dirty_insert|done]. }
      destruct Hs1 as (Hl2 & Hn1 & Htr).
      rewrite l2_insert_trace, l2_insert_eq.
      cbn [tlb_l1 tlb_l2 set_tlb_l2 set_lru_tick2 emits].
      rewrite Hl2, (l2_insert_writeback_clean _ _ H2), app_nil_r, Htr.
      split; [done|]. split; [by apply no_dirty_insert|].
      subst sA. cbn [trace l2_miss_state l1_miss_state emit
        set_l2_misses increment_time set_l1_misses].
      rewrite !sink_calls_app. simpl. by rewrite !app_nil_r.
  - cbn [step]. rewrite tlb_invalidate_eq. cbv zeta.
    set (s0 := increment_time (TLB_L1_LATENCY_NS + TLB_L2_LATENCY_NS) s).
    set (s1 := if 0 <=? l1_find vpn s0
               then invalidate_l1_slot (l1_find vpn s0) s0 else s0).
    assert (Hs1 : no_dirty (tlb_l1 s1) /\ tlb_l2 s1 = tlb_l2 s /\
                  trace s1 = trace s0).
    { subst s1. destruct (0 <=? l1_find vpn s0); [|done].
      rewrite invalidate_l1_slot_trace. unfold invalidate_l1_slot.
      change (tlb_l1 s0) with (tlb_l1 s).
      rewrite (no_dirty_entry_at _ _ H1), app_nil_r.
      cbn [tlb_l1 tlb_l2 set_l1_invalidations set_tlb_l1].
      split; [by apply no_dirty_upd|done]. }
    destruct Hs1 as (Hn1 & Hl2 & Htr).
    assert (Hn2 : no_dirty (tlb_l2 s1)) by (by rewrite Hl2).
    assert (Hend : sink_calls (trace s0) = sink_calls (trace s)).
    { subst s0. cbn [trace increment_time emit].
      rewrite sink_calls_app. apply app_nil_r. }
    destruct (0 <=? l2_find vpn s1).
    + rewrite invalidate_l2_slot_trace. unfold invalidate_l2_slot.
      rewrite (no_dirty_entry_at _ _ Hn2), app_nil_r.
      cbn [tlb_l1 tlb_l2 set_l2_invalidations set_tlb_l2].
      split; [done|]. split; [by apply no_dirty_upd|].
      by rewrite Htr.
    + split; [done|]. split; [done|]. by rewrite Htr.
Qed.

(** X11: without a write access nothing is ever written back.  Along
    any sequence of initialize, read translations and invalidate calls
    from the initial state, no slot of either level becomes dirty and
    the sink is never called. *)
Theorem read_only_never_writes_back (ops : list operation) :
  Forall is_read_operation ops ->
  let s := run ops initial_state in
  no_dirty (tlb_l1 s) /\ no_dirty (tlb_l2 s) /\ sink_calls (trace s) = [].
Proof.
  intros Hops s. subst s.
  assert (Hgen : forall st,
    no_dirty (tlb_l1 st) -> no_dirty (tlb_l2 st) ->
    no_dirty (tlb_l1 (run ops st)) /\ no_dirty (tlb_l2 (run ops st)) /\
    sink_calls (trace (run ops st)) = sink_calls (trace st)).
  { induction Hops as [|o ops Ho _ IH]; intros st H1 H2; [done|].
    change (run (o :: ops) st) with (run ops (step o st)).
    destruct (step_read_clean o st Ho H1 H2) as (S1 & S2 & S3).
    destruct (IH (step o st) S1 S2) as (R1 & R2 & R3).
    split; [done|]. split; [done|]. by rewrite R3. }
  apply (Hgen initial_state); apply no_dirty_replicate.
Qed.

(** ** Invalidation and the write-back of the page *)

Lemma tlb_invalidate_absent_eq (vpn : Z) (s : state) :
  absent vpn (tlb_l1 s) -> absent vpn (tlb_l2 s) ->
  tlb_invalidate vpn s =
  increment_time (TLB_L1_LATENCY_NS + TLB_L2_LATENCY_NS) s.
Proof.
  intros H1 H2. rewrite tlb_invalidate_eq. cbv zeta.
  assert (E1 : l1_find vpn
            (increment_time (TLB_L1_LATENCY_NS + TLB_L2_LATENCY_NS) s) = -1)
    by (apply find_absent; exact H1).
  rewrite E1. change (0 <=? -1) with false. cbv iota.
  assert (E2 : l2_find vpn
            (increment_time (TLB_L1_LATENCY_NS + TLB_L2_LATENCY_NS) s) = -1)
    by (apply find_absent; exact H2).
  by rewrite E2.
Qed.

(** Invalidation of a page whose L1 copy is dirty. *)
Lemma tlb_invalidate_dirty_l1_trace (vpn : Z) (s : state) :
  length (tlb_l2 s) = TLB_L2_SIZE -> (0 < TLB_L2_SIZE)%nat ->
  0 <= l1_find vpn s ->
  dirty (entry_at (tlb_l1 s) (l1_find vpn s)) = true ->
  trace (tlb_invalidate vpn s) =
    trace s ++ [EvTime (TLB_L1_LATENCY_NS + TLB_L2_LATENCY_NS)] ++
    l2_insert_writeback (tlb_l2 s) vpn ++
    [EvWriteBack
       (compose_pa
          (physical_page_number (entry_at (tlb_l1 s) (l1_find vpn s))) 0)] /\
  counters (tlb_invalidate vpn s) =
    [tlb_l1_hits s; tlb_l1_misses s; wrap64 (tlb_l1_invalidations s + 1);
     tlb_l2_hits s; tlb_l2_misses s; wrap64 (tlb_l2_invalidations s + 1)].
Proof.
  intros Hlen Hsz Hf Hd.
  set (i := l1_find vpn s) in *.
  set (ppn := physical_page_number (entry_at (tlb_l1 s) i)).
  destruct (find_found_lookup (tlb_l1 s) vpn TLB_L1_SIZE Hf)
    as (m & Hm & _ & Hl & Hv & Hvpn).
  fold (l1_find vpn s) in Hm. fold i in Hm.
  set (s0 := increment_time (TLB_L1_LATENCY_NS + TLB_L2_LATENCY_NS) s).
  set (s1 := invalidate_l1_slot i s0).
  assert (Hs1 : s1 =
    set_l1_invalidations (wrap64 (tlb_l1_invalidations s + 1))
      (set_tlb_l1 (entry_upd reset_entry (tlb_l1 s) i)
         (l2_insert vpn ppn true s0))).
  { subst s1. unfold invalidate_l1_slot.
    change (tlb_l1 s0) with (tlb_l1 s). rewrite Hd.
    subst ppn. rewrite Hm, Hvpn. rewrite l2_insert_eq. reflexivity. }
  destruct (insert_array_holds (tlb_l2 s) TLB_L2_SIZE vpn ppn true
              (wrap64 (lru_tick2 s + 1)) Hlen Hsz)
    as (j & e & Hfind & Hlk & _ & _ & Hppn & _ & Hdirty).
  assert (Hl2 : tlb_l2 s1 =
    insert_array (tlb_l2 s) TLB_L2_SIZE vpn ppn true
      (wrap64 (lru_tick2 s + 1)))
    by (rewrite Hs1, l2_insert_eq; reflexivity).
  assert (Hfind1 : l2_find vpn s1 = Z.of_nat j)
    by (unfold l2_find; by rewrite Hl2).
  assert (He : entry_at (tlb_l2 s1) (Z.of_nat j) = e)
    by (rewrite Hl2; by apply entry_at_lookup).
  assert (Htr1 : trace s1 =
    trace s ++ [EvTime (TLB_L1_LATENCY_NS + TLB_L2_LATENCY_NS)] ++
    l2_insert_writeback (tlb_l2 s) vpn).
  { rewrite Hs1. cbn [trace set_l1_invalidations set_tlb_l1].
    rewrite l2_insert_trace. subst s0. cbn [trace tlb_l2 increment_time emit].
    by rewrite <- app_assoc. }
  assert (Hc1 : counters s1 =
    [tlb_l1_hits s; tlb_l1_misses s; wrap64 (tlb_l1_invalidations s + 1);
     tlb_l2_hits s; tlb_l2_misses s; tlb_l2_invalidations s])
    by (rewrite Hs1, l2_insert_eq; reflexivity).
  assert (Hinv : tlb_invalidate vpn s = invalidate_l2_slot (Z.of_nat j) s1).
  { rewrite tlb_invalidate_eq. cbv zeta. fold s0.
    change (l1_find vpn s0) with i.
    assert (Hle : (0 <=? i) = true) by (apply Z.leb_le; done).
    rewrite Hle. fold s1. rewrite Hfind1.
    assert (Hle2 : (0 <=? Z.of_nat j) = true) by (apply Z.leb_le; lia).
    by rewrite Hle2. }
  rewrite Hinv. clearbody s1. split.
  - rewrite invalidate_l2_slot_trace, He, (Hdirty eq_refl), Hppn, Htr1.
    by rewrite <- !app_assoc.
  - unfold counters in Hc1. injection Hc1 as E1 E2 E3 E4 E5 E6.
    unfold invalidate_l2_slot. rewrite He, (Hdirty eq_refl).
    unfold counters. cbn. by rewrite E1, E2, E3, E4, E5, E6.
Qed.

(** X12: no write is lost at invalidation.  When a valid dirty L1 slot
    holds the VPN, the last call of the invalidation hands the page
    number of that L1 slot, at offset 0, to the sink, whether or not L2
    held the VPN (a copy in L2 is overwritten with L1's page number
    before it is written back); between the clock charge and that call
    there is at most one other sink call, for an L2 victim, and none
    when L2 already held the VPN; and both invalidation counters are
    incremented. *)
Theorem invalidate_writes_back_l1_copy (vpn : Z) (s : state) :
  length (tlb_l2 s) = TLB_L2_SIZE -> (0 < TLB_L2_SIZE)%nat ->
  0 <= l1_find vpn s ->
  dirty (entry_at (tlb_l1 s) (l1_find vpn s)) = true ->
  let ppn := physical_page_number (entry_at (tlb_l1 s) (l1_find vpn s)) in
  let s' := tlb_invalidate vpn s in
  exists pre,
    trace s' =
      trace s ++ [EvTime (TLB_L1_LATENCY_NS + TLB_L2_LATENCY_NS)] ++
      pre ++ [EvWriteBack (compose_pa ppn 0)] /\
    Forall is_writeback pre /\ (length pre <= 1)%nat /\
    (0 <= l2_find vpn s -> pre = []) /\
    get_total_tlb_l1_invalidations s' =
      wrap64 (get_total_tlb_l1_invalidations s + 1) /\
    get_total_tlb_l2_invalidations s' =
      wrap64 (get_total_tlb_l2_invalidations s + 1).
Proof.
  intros Hlen Hsz Hf Hd ppn s'.
  destruct (tlb_invalidate_dirty_l1_trace vpn s Hlen Hsz Hf Hd) as [Htr Hc].
  exists (l2_insert_writeback (tlb_l2 s) vpn).
  split; [exact Htr|].
  destruct (l2_insert_writeback_sink (tlb_l2 s) vpn) as [Hwb Hl].
  split; [done|]. split; [done|]. split.
  - intros Hf2. unfold l2_insert_writeback.
    apply Z.leb_le in Hf2. unfold l2_find in Hf2. by rewrite Hf2.
  - unfold counters in Hc. fold s' in Hc.
    injection Hc as _ _ E3 _ _ E6. by split.
Qed.

(** X13: a page that is not dirty in L1 is written back only if it is
    dirty in L2.  When L1 does not hold the VPN, or holds it in a slot
    that is not dirty, the invalidation leaves L2's clock alone and
    makes, after the clock charge, exactly one sink call, with L2's
    page number at offset 0, when L2 holds the VPN in a dirty slot, and
    no call at all otherwise; L2 changes only by the reset of the slot
    found. *)
Theorem invalidate_clean_in_l1 (vpn : Z) (s : state) :
  l1_find vpn s < 0 \/
  dirty (entry_at (tlb_l1 s) (l1_find vpn s)) = false ->
  let j := l2_find vpn s in
  let s' := tlb_invalidate vpn s in
  trace s' =
    trace s ++ [EvTime (TLB_L1_LATENCY_NS + TLB_L2_LATENCY_NS)] ++
    (if (0 <=? j) && dirty (entry_at (tlb_l2 s) j)
     then [EvWriteBack
             (compose_pa (physical_page_number (entry_at (tlb_l2 s) j)) 0)]
     else []) /\
  tlb_l2 s' =
    (if 0 <=? j then entry_upd reset_entry (tlb_l2 s) j else tlb_l2 s) /\
  lru_tick2 s' = lru_tick2 s /\ lru_tick s' = lru_tick s.
Proof.
  intros Hl1 j s'. subst s'. rewrite tlb_invalidate_eq. cbv zeta.
  set (s0 := increment_time (TLB_L1_LATENCY_NS + TLB_L2_LATENCY_NS) s).
  set (s1 := if 0 <=? l1_find vpn s0
             then invalidate_l1_slot (l1_find vpn s0) s0 else s0).
  assert (Hs1 : tlb_l2 s1 = tlb_l2 s /\ trace s1 = trace s0 /\
                lru_tick2 s1 = lru_tick2 s /\ lru_tick s1 = lru_tick s).
  { subst s1. change (l1_find vpn s0) with (l1_find vpn s).
    destruct (0 <=? l1_find vpn s) eqn:Hf; [|done].
    apply Z.leb_le in Hf. destruct Hl1 as [Hl1|Hl1]; [lia|].
    unfold invalidate_l1_slot. change (tlb_l1 s0) with (tlb_l1 s).
    by rewrite Hl1. }
  destruct Hs1 as (Hl2 & Htr & Ht2 & Ht1).
  assert (Hj : l2_find vpn s1 = j) by (unfold l2_find; by rewrite Hl2).
  rewrite Hj. destruct (0 <=? j) eqn:Hfj.
  - rewrite invalidate_l2_slot_trace. unfold invalidate_l2_slot.
    rewrite Hl2, Htr. cbn [andb].
    destruct (dirty (entry_at (tlb_l2 s) j));
      cbn [tlb_l2 lru_tick lru_tick2 set_l2_invalidations set_tlb_l2
           write_back_tlb_entry emit];
      subst s0; cbn [trace increment_time emit];
      rewrite <- ?app_assoc; by rewrite ?Hl2.
  - cbn [andb]. rewrite Htr. subst s0. cbn [trace increment_time emit].
    by rewrite app_nil_r.
Qed.

(** X14: an invalidation removes the page, and repeating it does
    nothing more.  In every state reached from the initial state, after
    invalidating a VPN both lookups miss it, and a second invalidation
    of the same VPN only charges the clock: counters, arrays and
    logical clocks are as the first one left them and the sink is not
    called. *)
Theorem invalidate_twice (ops : list operation) (vpn : Z) :
  let s1 := tlb_invalidate vpn (run ops initial_state) in
  l1_find vpn s1 = -1 /\ l2_find vpn s1 = -1 /\
  tlb_invalidate vpn s1 =
    increment_time (TLB_L1_LATENCY_NS + TLB_L2_LATENCY_NS) s1.
Proof.
  intros s1.
  assert (Hok : tlb_ok (run ops initial_state))
    by apply tlb_ok_run, tlb_ok_initial.
  destruct (tlb_invalidate_gone vpn _ Hok) as [H1 H2]. fold s1 in H1, H2.
  split; [by apply find_absent|]. split; [by apply find_absent|].
  by apply tlb_invalidate_absent_eq.
Qed.

Lemma translate_lengths (va : Z) (op : op_t) (s : state) :
  length (tlb_l1 (snd (tlb_translate va op s))) = length (tlb_l1 s) /\
  length (tlb_l2 (snd (tlb_translate va op s))) = length (tlb_l2 s).
Proof.
  assert (Hspill : forall vpn st,
            length (tlb_l2 (l1_insert_spill vpn st)) = length (tlb_l2 st)).
  { intros vpn st. unfold l1_insert_spill. repeat case_match; try done.
    rewrite l2_insert_eq. apply length_insert_array. }
  destruct (Z.le_gt_cases 0 (l1_find (va_to_vpn va) s)) as [H1|H1].
  { rewrite tlb_translate_hit_eq by done. cbn [snd tlb_l1 tlb_l2].
    by rewrite length_entry_upd. }
  destruct (Z.le_gt_cases 0 (l2_find (va_to_vpn va) s)) as [H2|H2].
  - rewrite tlb_translate_l2_hit_eq by done. cbn [snd].
    rewrite l1_insert_eq. cbn [tlb_l1 tlb_l2 set_tlb_l1 set_lru_tick].
    rewrite length_insert_array, Hspill.
    cbn [tlb_l1 tlb_l2 l2_hit_state set_tlb_l2].
    by rewrite length_entry_upd.
  - rewrite tlb_translate_miss_eq by done. cbn [snd].
    rewrite l2_insert_eq. cbn [tlb_l1 tlb_l2 set_tlb_l2 set_lru_tick2 emits].
    rewrite length_insert_array, l1_insert_eq.
    cbn [tlb_l1 tlb_l2 set_tlb_l1 set_lru_tick].
    by rewrite length_insert_array, Hspill.
Qed.

(** X15: a written page is written back when it is invalidated.  After
    a write translation of an address, invalidating its page ends with
    a sink call for the page number L1 holds for the page (the one of
    the result of the translation), at offset 0; the only calls before
    it are the clock charge and at most one sink call for an L2
    victim. *)
Theorem written_page_is_written_back (va : Z) (s : state) :
  length (tlb_l1 s) = TLB_L1_SIZE -> (0 < TLB_L1_SIZE)%nat ->
  length (tlb_l2 s) = TLB_L2_SIZE -> (0 < TLB_L2_SIZE)%nat ->
  let r := tlb_translate va OP_WRITE s in
  let s2 := tlb_invalidate (va_to_vpn va) (snd r) in
  exists ppn pre,
    (fst r = compose_pa ppn (va_offset va) \/ ppn = pa_to_ppn (fst r)) /\
    trace s2 =
      trace (snd r) ++ [EvTime (TLB_L1_LATENCY_NS + TLB_L2_LATENCY_NS)] ++
      pre ++ [EvWriteBack (compose_pa ppn 0)] /\
    Forall is_writeback pre /\ (length pre <= 1)%nat.
Proof.
  intros Hlen1 Hsz1 Hlen2 Hsz2 r s2.
  destruct (translate_leaves_in_l1 va OP_WRITE s Hlen1 Hsz1)
    as (i & e & Hf & Hl & Hv & Hvpn & Hd & Hp & _).
  fold r in Hf, Hl, Hp.
  destruct (translate_lengths va OP_WRITE s) as [_ Hlen2'].
  fold r in Hlen2'. rewrite Hlen2 in Hlen2'.
  assert (He : entry_at (tlb_l1 (snd r)) (l1_find (va_to_vpn va) (snd r))
               = e) by (rewrite Hf; by apply entry_at_lookup).
  destruct (tlb_invalidate_dirty_l1_trace (va_to_vpn va) (snd r)
              Hlen2' Hsz2) as [Htr _].
  { rewrite Hf. lia. }
  { rewrite He. by apply Hd. }
  rewrite He in Htr.
  exists (physical_page_number e),
         (l2_insert_writeback (tlb_l2 (snd r)) (va_to_vpn va)).
  split; [exact Hp|]. split; [exact Htr|].
  apply l2_insert_writeback_sink.
Qed.

(** ** The stamps of the valid slots *)

Lemma stamps_ok_reset (a : list tlb_entry_t) (t : Z) (i : Z) :
  stamps_ok a t -> stamps_ok (entry_upd reset_entry a i) t.
Proof.
  intros [Hr Hd]. split.
  - intros k e. rewrite lookup_entry_upd.
    destruct (decide (Z.to_nat i = k)); [|apply Hr].
    destruct (a !! k); [|done]. simpl. by intros [= <-].
  - intros k l e1 e2. rewrite !lookup_entry_upd.
    destruct (decide (Z.to_nat i = k)).
    { destruct (a !! k); [|done]. simpl. by intros [= <-]. }
    destruct (decide (Z.to_nat i = l)); [|apply Hd].
    destruct (a !! l); [|done]. simpl. by intros _ [= <-].
Qed.

(** Stamping one slot with the next clock value. *)
Lemma stamps_ok_stamp f (a : list tlb_entry_t) (t : Z) (i : Z) :
  (forall e, last_access (f e) = t + 1) -> 0 <= t ->
  stamps_ok a t -> stamps_ok (entry_upd f a i) (t + 1).
Proof.
  intros Hf Ht [Hr Hd]. split.
  - intros k e. rewrite lookup_entry_upd.
    destruct (decide (Z.to_nat i = k)).
    + destruct (a !! k); [|done]. simpl. intros [= <-] _. rewrite Hf. lia.
    + intros Hl Hv. specialize (Hr k e Hl Hv). lia.
  - intros k l e1 e2. rewrite !lookup_entry_upd.
    destruct (decide (Z.to_nat i = k)) as [Hk|Hk];
      destruct (decide (Z.to_nat i = l)) as [Hl|Hl].
    + congruence.
    + destruct (a !! k); [|done]. simpl. intros [= <-] H2 _ V2.
      rewrite Hf. specialize (Hr l e2 H2 V2). lia.
    + destruct (a !! l); [|done]. simpl. intros H1 [= <-] V1 _.
      rewrite Hf. specialize (Hr k e1 H1 V1). lia.
    + apply Hd.
Qed.

Lemma stamps_ok_insert (a : list tlb_entry_t) (size : nat)
    (vpn ppn : Z) (d : bool) (t : Z) :
  0 <= t -> stamps_ok a t ->
  stamps_ok (insert_array a size vpn ppn d (t + 1)) (t + 1).
Proof.
  intros Ht Hs. unfold insert_array. case_match.
  - by apply stamps_ok_stamp.
  - apply stamps_ok_stamp; [done|done|]. by apply stamps_ok_reset.
Qed.

Lemma stamps_ok_replicate (n : nat) (t : Z) :
  stamps_ok (replicate n zero_entry) t.
Proof.
  split.
  - intros i e H. apply lookup_replicate in H as [-> _]. done.
  - intros i j e1 e2 H. apply lookup_replicate in H as [-> _]. done.
Qed.

Lemma stamps_ok_le (a : list tlb_entry_t) (t t' : Z) :
  t <= t' -> stamps_ok a t -> stamps_ok a t'.
Proof.
  intros Hle [Hr Hd]. split; [|done].
  intros i e Hl Hv. specialize (Hr i e Hl Hv). lia.
Qed.

(** The L2 side of a state, under one insertion. *)
Lemma stamps_l2_insert (vpn ppn : Z) (d : bool) (s : state) :
  0 <= lru_tick2 s -> lru_tick2 s + 1 < 2 ^ 64 ->
  stamps_ok (tlb_l2 s) (lru_tick2 s) ->
  stamps_ok (tlb_l2 (l2_insert vpn ppn d s))
    (lru_tick2 (l2_insert vpn ppn d s)) /\
  lru_tick2 (l2_insert vpn ppn d s) = lru_tick2 s + 1.
Proof.
  intros H0 H1 Hs. rewrite l2_insert_eq.
  cbn [tlb_l2 lru_tick2 set_tlb_l2 set_lru_tick2].
  rewrite wrap64_succ by lia. split; [|done]. by apply stamps_ok_insert.
Qed.

Lemma stamps_l1_insert_spill (vpn : Z) (s : state) :
  0 <= lru_tick2 s -> lru_tick2 s + 1 < 2 ^ 64 ->
  stamps_ok (tlb_l2 s) (lru_tick2 s) ->
  stamps_ok (tlb_l2 (l1_insert_spill vpn s))
    (lru_tick2 (l1_insert_spill vpn s)) /\
  lru_tick2 s <= lru_tick2 (l1_insert_spill vpn s) <= lru_tick2 s + 1.
Proof.
  intros H0 H1 Hs. unfold l1_insert_spill.
  repeat case_match; try (split; [done|lia]).
  destruct (stamps_l2_insert
              (virtual_page_number
                 (entry_at (tlb_l1 s) (l1_choose_victim s)))
              (physical_page_number
                 (entry_at (tlb_l1 s) (l1_choose_victim s)))
              true s H0 H1 Hs) as [Hok Ht].
  split; [done|lia].
Qed.

(** Both sides of a state, under one insertion into L1. *)
Lemma stamps_l1_insert (vpn ppn : Z) (d : bool) (s : state) :
  0 <= lru_tick s -> lru_tick s + 1 < 2 ^ 64 ->
  0 <= lru_tick2 s -> lru_tick2 s + 1 < 2 ^ 64 ->
  stamps_ok (tlb_l1 s) (lru_tick s) -> stamps_ok (tlb_l2 s) (lru_tick2 s) ->
  let s' := l1_insert vpn ppn d s in
  stamps_ok (tlb_l1 s') (lru_tick s') /\ lru_tick s' = lru_tick s + 1 /\
  stamps_ok (tlb_l2 s') (lru_tick2 s') /\
  lru_tick2 s <= lru_tick2 s' <= lru_tick2 s + 1.
Proof.
  intros A0 A1 B0 B1 Hs1 Hs2 s'. subst s'. rewrite l1_insert_eq.
  cbn [tlb_l1 tlb_l2 lru_tick lru_tick2 set_tlb_l1 set_lru_tick].
  rewrite wrap64_succ by lia.
  destruct (stamps_l1_insert_spill vpn s B0 B1 Hs2) as [Hok Ht].
  split; [by apply stamps_ok_insert|]. by split.
Qed.

(** One operation keeps the stamps in order and advances the L1 clock
    by at most one and the L2 clock by at most two. *)
Lemma stamps_step (o : operation) (s : state) :
  0 <= lru_tick s -> lru_tick s + 1 < 2 ^ 64 ->
  0 <= lru_tick2 s -> lru_tick2 s + 2 < 2 ^ 64 ->
  stamps_ok (tlb_l1 s) (lru_tick s) -> stamps_ok (tlb_l2 s) (lru_tick2 s) ->
  stamps_ok (tlb_l1 (step o s)) (lru_tick (step o s)) /\
  stamps_ok (tlb_l2 (step o s)) (lru_tick2 (step o s)) /\
  0 <= lru_tick (step o s) <= lru_tick s + 1 /\
  0 <= lru_tick2 (step o s) <= lru_tick2 s + 2.
Proof.
  intros A0 A1 B0 B1 Hs1 Hs2. destruct o as [|va op|vpn].
  - cbn [step tlb_init tlb_l1 tlb_l2 lru_tick lru_tick2].
    split; [apply stamps_ok_replicate|].
    split; [apply stamps_ok_replicate|]. lia.
  - cbn [step].
    destruct (Z.le_gt_cases 0 (l1_find (va_to_vpn va) s)) as [H1|H1].
    { rewrite tlb_translate_hit_eq by done.
      cbn [snd tlb_l1 tlb_l2 lru_tick lru_tick2].
      rewrite wrap64_succ by lia.
      split; [by apply stamps_ok_stamp|]. split; [done|lia]. }
    destruct (Z.le_gt_cases 0 (l2_find (va_to_vpn va) s)) as [H2|H2].
    + rewrite tlb_translate_l2_hit_eq by done. cbn [snd].
      set (sB := l2_hit_state op (l2_find (va_to_vpn va) s) s).
      assert (HB : stamps_ok (tlb_l2 sB) (lru_tick2 sB) /\
                   lru_tick2 sB = lru_tick2 s + 1).
      { subst sB. cbn [tlb_l2 lru_tick2 l2_hit_state l1_miss_state
          set_tlb_l2 set_lru_tick2 set_l2_hits increment_time emit
          set_l1_misses].
        rewrite wrap64_succ by lia. split; [|done].
        by apply stamps_ok_stamp. }
      destruct HB as [HB HtB].
      destruct (stamps_l1_insert (va_to_vpn va)
                  (physical_page_number
                     (entry_at (tlb_l2 s) (l2_find (va_to_vpn va) s)))
                  (op_is_write op) sB) as (R1 & R2 & R3 & R4);
        try done; try (rewrite HtB; lia).
      change (lru_tick sB) with (lru_tick s) in R2.
      split; [done|]. split; [done|]. lia.
    + rewrite tlb_translate_miss_eq by done. cbn [snd].
      set (ppn := pa_to_ppn _). set (sA := l2_miss_state va op s).
      destruct (stamps_l1_insert (va_to_vpn va) ppn (op_is_write op) sA)
        as (R1 & R2 & R3 & R4); try done; try (simpl; lia).
      change (lru_tick sA) with (lru_tick s) in R2.
      change (lru_tick2 sA) with (lru_tick2 s) in R4.
      set (s1 := l1_insert (va_to_vpn va) ppn (op_is_write op) sA) in *.
      destruct (stamps_l2_insert (va_to_vpn va) ppn (op_is_write op) s1)
        as [Q1 Q2]; [lia|lia|done|].
      rewrite l2_insert_eq in *.
      cbn [tlb_l1 tlb_l2 lru_tick lru_tick2 set_tlb_l2 set_lru_tick2 emits]
        in *.
      split; [done|]. split; [done|]. lia.
  - cbn [step]. rewrite tlb_invalidate_eq. cbv zeta.
    set (s0 := increment_time (TLB_L1_LATENCY_NS + TLB_L2_LATENCY_NS) s).
    set (s1 := if 0 <=? l1_find vpn s0
               then invalidate_l1_slot (l1_find vpn s0) s0 else s0).
    assert (Hs : stamps_ok (tlb_l1 s1) (lru_tick s1) /\
                 stamps_ok (tlb_l2 s1) (lru_tick2 s1) /\
                 lru_tick s1 = lru_tick s /\
                 lru_tick2 s <= lru_tick2 s1 <= lru_tick2 s + 1).
    { subst s1. destruct (0 <=? l1_find vpn s0).
      - unfold invalidate_l1_slot.
        destruct (dirty (entry_at (tlb_l1 s0) (l1_find vpn s0))).
        + destruct (stamps_l2_insert
                      (virtual_page_number
                         (entry_at (tlb_l1 s0) (l1_find vpn s0)))
                      (physical_page_number
                         (entry_at (tlb_l1 s0) (l1_find vpn s0)))
                      true s0) as [Q1 Q2]; [done|simpl; lia|done|].
          rewrite l2_insert_eq in *.
          cbn [tlb_l1 tlb_l2 lru_tick lru_tick2 set_l1_invalidations
               set_tlb_l1 set_tlb_l2 set_lru_tick2 emits] in *.
          split; [by apply stamps_ok_reset|]. split; [done|].
          split; [done|].
          change (lru_tick2 s0) with (lru_tick2 s) in *. lia.
        + cbn [tlb_l1 tlb_l2 lru_tick lru_tick2 set_l1_invalidations
               set_tlb_l1].
          split; [by apply stamps_ok_reset|]. split; [done|].
          split; [done|]. subst s0. simpl. lia.
      - split; [done|]. split; [done|]. split; [done|]. subst s0. simpl.
        lia. }
    destruct Hs as (Q1 & Q2 & Q3 & Q4).
    destruct (0 <=? l2_find vpn s1).
    + unfold invalidate_l2_slot.
      destruct (dirty (entry_at (tlb_l2 s1) (l2_find vpn s1)));
        cbn [tlb_l1 tlb_l2 lru_tick lru_tick2 set_l2_invalidations
             set_tlb_l2 write_back_tlb_entry emit];
        (split; [done|]); (split; [by apply stamps_ok_reset|]); lia.
    + split; [done|]. split; [done|]. lia.
Qed.

Lemma stamps_run (ops : list operation) :
  forall s,
  0 <= lru_tick s -> lru_tick s + Z.of_nat (length ops) < 2 ^ 64 ->
  0 <= lru_tick2 s -> lru_tick2 s + 2 * Z.of_nat (length ops) < 2 ^ 64 ->
  stamps_ok (tlb_l1 s) (lru_tick s) -> stamps_ok (tlb_l2 s) (lru_tick2 s) ->
  stamps_ok (tlb_l1 (run ops s)) (lru_tick (run ops s)) /\
  stamps_ok (tlb_l2 (run ops s)) (lru_tick2 (run ops s)) /\
  0 <= lru_tick (run ops s) <= lru_tick s + Z.of_nat (length ops) /\
  0 <= lru_tick2 (run ops s) <= lru_tick2 s + 2 * Z.of_nat (length ops).
Proof.
  induction ops as [|o ops IH]; intros s A0 A1 B0 B1 Hs1 Hs2.
  - simpl. split; [done|]. split; [done|]. lia.
  - simpl length in *.
    change (run (o :: ops) s) with (run ops (step o s)).
    destruct (stamps_step o s) as (S1 & S2 & S3 & S4); try done; try lia.
    destruct (IH (step o s)) as (R1 & R2 & R3 & R4); try done; try lia.
    split; [done|]. split; [done|]. lia.
Qed.

(** X16: the stamps order the valid slots strictly.  In every state
    reached from the initial state by fewer than 2^63 operations, the
    valid slots of each level have pairwise distinct last_access values,
    all positive and at most the logical clock of the level; so a full
    level has exactly one least recently used slot, and the clocks have
    advanced by at most one (L1) and two (L2) per operation. *)
Theorem stamps_distinct (ops : list operation) :
  2 * Z.of_nat (length ops) < 2 ^ 64 ->
  let s := run ops initial_state in
  stamps_ok (tlb_l1 s) (lru_tick s) /\
  stamps_ok (tlb_l2 s) (lru_tick2 s) /\
  0 <= lru_tick s <= Z.of_nat (length ops) /\
  0 <= lru_tick2 s <= 2 * Z.of_nat (length ops).
Proof.
  intros Hlen s.
  destruct (stamps_run ops initial_state) as (R1 & R2 & R3 & R4);
    try (simpl; lia); try apply stamps_ok_replicate.
  subst s. simpl in R3, R4. split; [done|]. split; [done|]. lia.
Qed.

(** ** The page translated last is not the next victim *)

(** With at least two slots, the victim is never the slot that carries
    the current clock value. *)
Lemma victim_not_newest (a : list tlb_entry_t) (size : nat) (t : Z)
    (i : nat) (e : tlb_entry_t) :
  length a = size -> (2 <= size)%nat -> stamps_ok a t ->
  a !! i = Some e -> valid e = true -> last_access e = t ->
  choose_victim a size <> Z.of_nat i.
Proof.
  intros Hlen Hsz [Hr Hd] Hi Hv Ht Hm.
  destruct (choose_victim_spec a size) as (m & Hm' & Hfree & Hlru); [lia|].
  assert (m = i) as -> by lia.
  destruct (free_or_full a size) as [Hex|Hall].
  - destruct (Hfree Hex) as (_ & Hinv & _).
    rewrite (entry_at_lookup _ _ _ Hi) in Hinv. congruence.
  - destruct (Hlru Hall) as [Hlt Hmin].
    set (j := if decide (i = 0)%nat then 1%nat else 0%nat).
    assert (Hj : (j < size)%nat /\ j <> i)
      by (subst j; destruct (decide (i = 0)%nat); lia).
    destruct Hj as [Hj Hne].
    destruct (lookup_lt_is_Some_2 a j) as [ej Hej]; [lia|].
    specialize (Hall j Hj). destruct (Hmin j Hj) as [Hle _].
    rewrite (entry_at_lookup _ _ _ Hi) in Hle.
    rewrite (entry_at_lookup _ _ _ Hej) in Hle, Hall.
    pose proof (Hr j ej Hej Hall) as Hb.
    assert (last_access ej <> last_access e).
    { intros Heq. apply Hne. by apply (Hd j i ej e). }
    lia.
Qed.

Lemma insert_array_spares_newest (a : list tlb_entry_t) (size : nat)
    (vpn ppn : Z) (d : bool) (t t' : Z) (i : nat) (e : tlb_entry_t) :
  length a = size -> (2 <= size)%nat -> stamps_ok a t ->
  a !! i = Some e -> valid e = true -> last_access e = t ->
  absent vpn a ->
  insert_array a size vpn ppn d t' !! i = Some e.
Proof.
  intros Hlen Hsz Hs Hi Hv Ht Ha.
  destruct (insert_array_fresh a size vpn ppn d t' Hlen) as
    (m & Hm & _ & Heq & _); [lia|done|].
  assert (Hne : m <> i).
  { intros ->. by apply (victim_not_newest a size t i e). }
  rewrite Heq, !lookup_entry_upd, Nat2Z.id.
  by destruct (decide (m = i)).
Qed.

(** After a translation the slot of its page carries the L1 clock. *)
Lemma translate_newest (va : Z) (op : op_t) (s : state) :
  length (tlb_l1 s) = TLB_L1_SIZE -> (0 < TLB_L1_SIZE)%nat ->
  exists (i : nat) (e : tlb_entry_t),
    tlb_l1 (snd (tlb_translate va op s)) !! i = Some e /\
    valid e = true /\ virtual_page_number e = va_to_vpn va /\
    last_access e = lru_tick (snd (tlb_translate va op s)).
Proof.
  intros Hlen Hsz.
  destruct (Z.le_gt_cases 0 (l1_find (va_to_vpn va) s)) as [H1|H1].
  { destruct (find_found_lookup (tlb_l1 s) (va_to_vpn va) TLB_L1_SIZE H1)
      as (m & Hm & _ & Hl & Hv & Hvpn).
    fold (l1_find (va_to_vpn va) s) in Hm.
    exists m, (touch_entry op (wrap64 (lru_tick s + 1))
                 (entry_at (tlb_l1 s) (Z.of_nat m))).
    rewrite (tlb_translate_hit_eq va op s H1).
    cbn [snd tlb_l1 lru_tick]. rewrite Hm. split; [|done].
    rewrite lookup_entry_upd, Nat2Z.id.
    destruct (decide (m = m)); [|done]. by rewrite Hl. }
  assert (Ha : absent (va_to_vpn va) (tlb_l1 s))
    by (by apply (find_minus_one_absent _ _ TLB_L1_SIZE Hlen)).
  assert (Hfresh : forall ppn,
    exists (i : nat) (e : tlb_entry_t),
      insert_array (tlb_l1 s) TLB_L1_SIZE (va_to_vpn va) ppn
        (op_is_write op) (wrap64 (lru_tick s + 1)) !! i = Some e /\
      valid e = true /\ virtual_page_number e = va_to_vpn va /\
      last_access e = wrap64 (lru_tick s + 1)).
  { intros ppn.
    destruct (insert_array_fresh (tlb_l1 s) TLB_L1_SIZE (va_to_vpn va)
                ppn (op_is_write op) (wrap64 (lru_tick s + 1))
                Hlen Hsz Ha) as (m & _ & _ & _ & Hlk & _).
    by exists m, (mk_entry true (op_is_write op)
                    (wrap64 (lru_tick s + 1)) (va_to_vpn va) ppn). }
  destruct (Z.le_gt_cases 0 (l2_find (va_to_vpn va) s)) as [H2|H2].
  - rewrite (tlb_translate_l2_hit_eq va op s H1 H2). cbn [snd].
    rewrite l1_insert_eq. cbn [tlb_l1 lru_tick set_tlb_l1 set_lru_tick].
    apply Hfresh.
  - rewrite (tlb_translate_miss_eq va op s H1 H2). cbn [snd].
    rewrite l2_insert_eq, l1_insert_eq.
    cbn [tlb_l1 lru_tick set_tlb_l1 set_lru_tick set_tlb_l2 set_lru_tick2
         emits].
    apply Hfresh.
Qed.

(** A translation of another page leaves that slot as it is. *)
Lemma translate_spares_newest (vb : Z) (op : op_t) (s : state)
    (i : nat) (e : tlb_entry_t) :
  length (tlb_l1 s) = TLB_L1_SIZE -> (2 <= TLB_L1_SIZE)%nat ->
  stamps_ok (tlb_l1 s) (lru_tick s) ->
  tlb_l1 s !! i = Some e -> valid e = true ->
  last_access e = lru_tick s -> virtual_page_number e <> va_to_vpn vb ->
  tlb_l1 (snd (tlb_translate vb op s)) !! i = Some e.
Proof.
  intros Hlen Hsz Hs Hi Hv Ht Hne.
  destruct (Z.le_gt_cases 0 (l1_find (va_to_vpn vb) s)) as [H1|H1].
  { destruct (find_found_lookup (tlb_l1 s) (va_to_vpn vb) TLB_L1_SIZE H1)
      as (m & Hm & _ & Hl & _ & Hvpn).
    fold (l1_find (va_to_vpn vb) s) in Hm.
    rewrite (tlb_translate_hit_eq vb op s H1). cbn [snd tlb_l1].
    rewrite Hm, lookup_entry_upd, Nat2Z.id.
    destruct (decide (m = i)) as [->|]; [|done].
    rewrite Hi in Hl. injection Hl as Hl. rewrite <- Hl in Hvpn. done. }
  assert (Ha : absent (va_to_vpn vb) (tlb_l1 s))
    by (by apply (find_minus_one_absent _ _ TLB_L1_SIZE Hlen)).
  destruct (Z.le_gt_cases 0 (l2_find (va_to_vpn vb) s)) as [H2|H2].
  - rewrite (tlb_translate_l2_hit_eq vb op s H1 H2). cbn [snd].
    rewrite l1_insert_eq. cbn [tlb_l1 set_tlb_l1].
    by apply (insert_array_spares_newest _ _ _ _ _ (lru_tick s)).
  - rewrite (tlb_translate_miss_eq vb op s H1 H2). cbn [snd].
    rewrite l2_insert_eq, l1_insert_eq.
    cbn [tlb_l1 set_tlb_l1 set_tlb_l2 set_lru_tick2 emits].
    by apply (insert_array_spares_newest _ _ _ _ _ (lru_tick s)).
Qed.

Lemma lookup_holds_found (a : list tlb_entry_t) (size : nat) (vpn : Z)
    (i : nat) (e : tlb_entry_t) :
  length a = size -> a !! i = Some e -> valid e = true ->
  virtual_page_number e = vpn -> 0 <= find_loop a vpn size 0.
Proof.
  intros Hlen Hi Hv Hvpn.
  destruct (find_loop_result a size vpn) as [[_ Hnone]|(m & -> & _)];
    [|lia].
  assert (Hlt : (i < size)%nat).
  { rewrite <- Hlen. apply lookup_lt_is_Some. by exists e. }
  specialize (Hnone i Hlt). rewrite (entry_at_lookup _ _ _ Hi) in Hnone.
  unfold holds in Hnone. rewrite Hv, Hvpn, Z.eqb_refl in Hnone. done.
Qed.

(** X17: the page translated last survives the next translation.  With
    at least two L1 slots, after any sequence of operations from the
    initial state (short enough for the 64-bit clocks not to wrap), a
    translation of a page followed by a translation of any address
    leaves the first page in L1: the replacement never picks the most
    recently used slot. *)
Theorem recent_page_survives (ops : list operation) (va vb : Z)
    (op op' : op_t) :
  (2 <= TLB_L1_SIZE)%nat -> 2 * (Z.of_nat (length ops) + 1) < 2 ^ 64 ->
  0 <= l1_find (va_to_vpn va)
         (run (ops ++ [Translate va op; Translate vb op']) initial_state).
Proof.
  intros Hsz Hlen.
  change [Translate va op; Translate vb op']
    with ([Translate va op] ++ [Translate vb op']).
  rewrite app_assoc, run_app.
  set (s1 := run (ops ++ [Translate va op]) initial_state).
  change (run [Translate vb op'] s1)
    with (snd (tlb_translate vb op' s1)).
  assert (Hok0 : tlb_ok (run ops initial_state))
    by apply tlb_ok_run, tlb_ok_initial.
  assert (Hok1 : tlb_ok s1) by apply tlb_ok_run, tlb_ok_initial.
  destruct Hok0 as [[Hl0 _] _]. destruct Hok1 as [[Hl1 _] _].
  destruct (stamps_run (ops ++ [Translate va op]) initial_state)
    as (Hs1 & _); try (rewrite ?length_app; simpl; lia);
    try apply stamps_ok_replicate.
  fold s1 in Hs1.
  assert (Hs1eq : s1 = snd (tlb_translate va op (run ops initial_state)))
    by (subst s1; by rewrite run_app).
  destruct (translate_newest va op (run ops initial_state) Hl0)
    as (i & e & Hi & Hv & Hvpn & Ht); [lia|].
  rewrite <- Hs1eq in Hi, Ht.
  destruct (decide (va_to_vpn vb = va_to_vpn va)) as [Heq|Hne].
  - rewrite <- Heq.
    destruct (translate_leaves_in_l1 vb op' s1 Hl1) as (k & _ & -> & _);
      lia.
  - assert (Hi2 : tlb_l1 (snd (tlb_translate vb op' s1)) !! i = Some e).
    { apply translate_spares_newest; try done. congruence. }
    unfold l1_find.
    apply (lookup_holds_found _ TLB_L1_SIZE _ i e); try done.
    destruct (translate_lengths vb op' s1) as [-> _]. done.
Qed.

(** X18: the address returned by a hit.  When either level holds the
    page, the returned address has the offset of the request and the
    page number cached in the slot that hit (reduced to the
    64 - PAGE_SIZE_BITS bits that fit the 64-bit address), and it is a
    64-bit value; the slot that hit is the L1 slot when L1 holds the
    page and the L2 slot otherwise. *)
Theorem hit_address_parts (va : Z) (op : op_t) (s : state) :
  0 <= PAGE_SIZE_BITS <= 32 ->
  0 <= l1_find (va_to_vpn va) s \/ 0 <= l2_find (va_to_vpn va) s ->
  let pa := fst (tlb_translate va op s) in
  let e := if 0 <=? l1_find (va_to_vpn va) s
           then entry_at (tlb_l1 s) (l1_find (va_to_vpn va) s)
           else entry_at (tlb_l2 s) (l2_find (va_to_vpn va) s) in
  va_offset pa = va_offset va /\
  pa_to_ppn pa = physical_page_number e mod 2 ^ (64 - PAGE_SIZE_BITS) /\
  0 <= pa < 2 ^ 64 /\
  valid e = true /\ virtual_page_number e = va_to_vpn va.
Proof.
  intros Hb Hhit pa e. subst pa e.
  pose proof (va_offset_bound va Hb) as Hoff.
  destruct (Z.le_gt_cases 0 (l1_find (va_to_vpn va) s)) as [H1|H1].
  - rewrite (tlb_translate_hit_eq va op s H1). cbn [fst].
    assert (Hle : (0 <=? l1_find (va_to_vpn va) s) = true)
      by (apply Z.leb_le; exact H1).
    rewrite Hle.
    destruct (compose_pa_split
                (physical_page_number
                   (entry_at (tlb_l1 s) (l1_find (va_to_vpn va) s)))
                (va_offset va) Hb Hoff) as (Q1 & Q2 & Q3).
    destruct (find_found_lookup (tlb_l1 s) (va_to_vpn va) TLB_L1_SIZE H1)
      as (m & Hm & _ & _ & Hv & Hvpn).
    fold (l1_find (va_to_vpn va) s) in Hm. rewrite <- Hm in Hv, Hvpn.
    done.
  - destruct Hhit as [H|H2]; [lia|].
    rewrite (tlb_translate_l2_hit_eq va op s H1 H2). cbn [fst].
    assert (Hle : (0 <=? l1_find (va_to_vpn va) s) = false)
      by (apply Z.leb_gt; exact H1).
    rewrite Hle.
    destruct (compose_pa_split
                (physical_page_number
                   (entry_at (tlb_l2 s) (l2_find (va_to_vpn va) s)))
                (va_offset va) Hb Hoff) as (Q1 & Q2 & Q3).
    destruct (find_found_lookup (tlb_l2 s) (va_to_vpn va) TLB_L2_SIZE H2)
      as (m & Hm & _ & _ & Hv & Hvpn).
    fold (l2_find (va_to_vpn va) s) in Hm. rewrite <- Hm in Hv, Hvpn.
    done.
Qed.

End TLB.

(** * Worked scenarios

    Page size 2^12, two slots per level, latencies 1 and 10. *)

Local Abbreviation ex_run := (run 12 2 2 1 10 example_resolver).
Local Abbreviation ex_init := (initial_state 2 2).
Local Abbreviation ex_translate :=
  (tlb_translate 12 2 2 1 10 example_resolver).
Local Abbreviation ex_invalidate := (tlb_invalidate 12 2 2 1 10).

(** An address and its parts. *)
Lemma compose_pa_va_roundtrip_witness :
  0 <= 12 <= 32 /\ 0 <= 74565 < 2 ^ 64 /\
  compose_pa 12 (va_to_vpn 12 74565) (va_offset 12 74565) = 74565.
Proof.
  split; [lia|]. split; [lia|].
  apply (compose_pa_va_roundtrip 12 74565); lia.
Defined.

(** C1 as stated fails: a translation that hits in L1 still charges the
    clock, an external collaborator, so the trace of calls grows. *)
Lemma l1_hit_charges_clock :
  let s := ex_run [Translate 4096 OP_READ] ex_init in
  0 <= l1_find 2 (va_to_vpn 12 4096) s /\
  trace (snd (ex_translate 4096 OP_READ s)) = trace s ++ [EvTime 1] /\
  trace (snd (ex_translate 4096 OP_READ s)) <> trace s.
Proof.
  cbv zeta. split; [vm_compute; discriminate|].
  split; [vm_compute; reflexivity|]. vm_compute. discriminate.
Qed.

(** A write that hits in L1, right after the read that loaded the
    page. *)
Lemma tlb_translate_l1_hit_witness :
  let s := ex_run [Translate 4096 OP_READ] ex_init in
  0 <= l1_find 2 (va_to_vpn 12 4100) s /\
  ex_translate 4100 OP_WRITE s =
    (413700,
     mk_state [mk_entry true true 2 1 101; zero_entry]
       [mk_entry true false 1 1 101; zero_entry]
       1 1 0 0 1 0 2 1
       [EvTime 1; EvTime 10; EvPageTable 4096 OP_READ; EvTime 1]).
Proof.
  cbv zeta.
  assert (H : 0 <= l1_find 2 (va_to_vpn 12 4100)
                     (ex_run [Translate 4096 OP_READ] ex_init))
    by (vm_compute; discriminate).
  split; [exact H|].
  destruct (tlb_translate_l1_hit 12 2 2 1 10 example_resolver 4100 OP_WRITE
              _ H) as [Heq _].
  rewrite Heq. vm_compute. reflexivity.
Defined.

(** The first translation after initialization misses in both levels:
    the resolver answers 413696, and both levels cache page 1 with the
    page number 101 = 413696 / 4096 of that address. *)
Lemma tlb_translate_full_miss_witness :
  let s' := snd (ex_translate 4096 OP_WRITE ex_init) in
  l1_find 2 (va_to_vpn 12 4096) ex_init = -1 /\
  l2_find 2 (va_to_vpn 12 4096) ex_init = -1 /\
  fst (ex_translate 4096 OP_WRITE ex_init) = 413696 /\
  pa_to_ppn 12 413696 = 413696 / 2 ^ 12 /\ 413696 / 2 ^ 12 = 101 /\
  tlb_l1 s' !! 0%nat = Some (mk_entry true true 1 1 101) /\
  tlb_l2 s' !! 0%nat = Some (mk_entry true true 1 1 101).
Proof.
  cbv zeta.
  split; [vm_compute; reflexivity|]. split; [vm_compute; reflexivity|].
  destruct (tlb_translate_full_miss 12 2 2 1 10 example_resolver
              4096 OP_WRITE ex_init)
    as (Hpa & _ & _ & (i & Hi & Hl1) & (j & Hj & Hl2) & _ & Hdiv);
    [vm_compute; reflexivity | vm_compute; reflexivity | lia | lia
    | vm_compute; reflexivity | vm_compute; reflexivity |].
  assert (Hi0 : l1_find 2 (va_to_vpn 12 4096)
                  (snd (ex_translate 4096 OP_WRITE ex_init)) = 0)
    by (vm_compute; reflexivity).
  assert (Hj0 : l2_find 2 (va_to_vpn 12 4096)
                  (snd (ex_translate 4096 OP_WRITE ex_init)) = 0)
    by (vm_compute; reflexivity).
  assert (i = 0%nat) as -> by lia. assert (j = 0%nat) as -> by lia.
  split; [rewrite Hpa; vm_compute; reflexivity|].
  split; [apply Hdiv; lia|]. split; [vm_compute; reflexivity|].
  split; [rewrite Hl1|rewrite Hl2]; vm_compute; reflexivity.
Defined.

(** C3 as stated fails: in this reachable state the L1 slot 0 is valid
    and dirty with a VPN that L2 no longer holds, L2 is full and its LRU
    victim is dirty, so evicting the L1 slot ends in a call to the
    sink, for the frame of the L2 victim. *)
Lemma l1_eviction_reaches_sink :
  let s := ex_run [Translate 4096 OP_WRITE; Translate 8192 OP_WRITE;
                   Translate 4096 OP_READ; Translate 12288 OP_WRITE]
             ex_init in
  valid (entry_at (tlb_l1 s) 0) && dirty (entry_at (tlb_l1 s) 0) = true /\
  trace (l1_evict_entry 12 2 0 s) = trace s ++ [EvWriteBack 417792] /\
  trace (l1_evict_entry 12 2 0 s) <> trace s.
Proof.
  cbv zeta. split; [vm_compute; reflexivity|].
  split; [vm_compute; reflexivity|]. vm_compute. discriminate.
Qed.

(** In the same state, evicting the valid dirty L2 slot 0 hands its
    frame to the sink. *)
Lemma eviction_routing_witness :
  let s := ex_run [Translate 4096 OP_WRITE; Translate 8192 OP_WRITE;
                   Translate 4096 OP_READ; Translate 12288 OP_WRITE]
             ex_init in
  0 <= 0 /\
  valid (entry_at (tlb_l2 s) 0) && dirty (entry_at (tlb_l2 s) 0) = true /\
  trace (l2_evict_entry 12 0 s) = trace s ++ [EvWriteBack 421888].
Proof.
  cbv zeta. split; [lia|]. split; [vm_compute; reflexivity|].
  destruct (eviction_routing 12 2 0
              (ex_run [Translate 4096 OP_WRITE; Translate 8192 OP_WRITE;
                       Translate 4096 OP_READ; Translate 12288 OP_WRITE]
                 ex_init)) as (_ & H2 & _); [lia|].
  rewrite H2; vm_compute; reflexivity.
Defined.

(** Invalidating a page that was never translated. *)
Lemma tlb_invalidate_absent_witness :
  let s := ex_run [Translate 4096 OP_WRITE] ex_init in
  absent 7 (tlb_l1 s) /\ absent 7 (tlb_l2 s) /\
  trace (ex_invalidate 7 s) = trace s ++ [EvTime 11] /\
  counters (ex_invalidate 7 s) = counters s.
Proof.
  cbv zeta.
  assert (H1 : absent 7 (tlb_l1 (ex_run [Translate 4096 OP_WRITE] ex_init)))
    by (apply absent_forallb; vm_compute; reflexivity).
  assert (H2 : absent 7 (tlb_l2 (ex_run [Translate 4096 OP_WRITE] ex_init)))
    by (apply absent_forallb; vm_compute; reflexivity).
  split; [exact H1|]. split; [exact H2|].
  destruct (tlb_invalidate_absent 12 2 2 1 10 7 _ H1 H2) as (Ht & Hc & _).
  split; [exact Ht|exact Hc].
Defined.

(** Page 1 is dirty in L1 and gone from L2, whose LRU victim (page 2)
    is dirty: invalidating page 1 writes back the victim, then page 1. *)
Lemma tlb_invalidate_dirty_l1_only_witness :
  let s := ex_run [Translate 4096 OP_WRITE; Translate 8192 OP_WRITE;
                   Translate 4096 OP_READ; Translate 12288 OP_WRITE]
             ex_init in
  0 <= l1_find 2 1 s /\ dirty (entry_at (tlb_l1 s) (l1_find 2 1 s)) = true /\
  absent 1 (tlb_l2 s) /\
  trace (ex_invalidate 1 s) =
    trace s ++ [EvTime 11; EvWriteBack 417792; EvWriteBack 413696] /\
  tlb_l1_invalidations (ex_invalidate 1 s) = 1 /\
  tlb_l2_invalidations (ex_invalidate 1 s) = 1.
Proof.
  cbv zeta.
  set (s := ex_run [Translate 4096 OP_WRITE; Translate 8192 OP_WRITE;
                    Translate 4096 OP_READ; Translate 12288 OP_WRITE]
              ex_init).
  assert (Hf : 0 <= l1_find 2 1 s) by (vm_compute; discriminate).
  assert (Hd : dirty (entry_at (tlb_l1 s) (l1_find 2 1 s)) = true)
    by (vm_compute; reflexivity).
  assert (Ha : absent 1 (tlb_l2 s))
    by (apply absent_forallb; vm_compute; reflexivity).
  split; [exact Hf|]. split; [exact Hd|]. split; [exact Ha|].
  destruct (tlb_invalidate_dirty_l1_only 12 2 2 1 10 1 s)
    as ((_ & _ & _ & Htr1) & (_ & Htr & _ & _ & Hi1 & Hi2));
    [vm_compute; reflexivity|lia|exact Hf|exact Hd|exact Ha|].
  split; [|split; [exact Hi1|exact Hi2]].
  rewrite Htr, Htr1. vm_compute; reflexivity.
Defined.

(** C5 as stated fails: after this invalidation slot 0 of L1 is invalid
    and still carries VPN 1 and PPN 101. *)
Lemma invalid_slot_keeps_page_numbers :
  let s := ex_run [Translate 4096 OP_READ; Invalidate 1] ex_init in
  reachable 12 2 2 1 10 example_resolver s /\
  tlb_l1 s !! 0%nat = Some (mk_entry false false 0 1 101) /\
  ~ invalid_zeroed (tlb_l1 s).
Proof.
  cbv zeta. split; [eexists; exact eq_refl|].
  split; [vm_compute; reflexivity|]. intros H.
  specialize (H 0%nat (mk_entry false false 0 1 101)).
  assert (Hz : mk_entry false false 0 1 101 = zero_entry)
    by (apply H; vm_compute; reflexivity).
  discriminate Hz.
Qed.

(** Page 1 is dirty in L1 and absent from L2, whose victim, slot 1,
    holds page 2: after the invalidation of page 1 the L1 slot is the
    former entry with its three state fields reset, and L2 slot 1 is
    invalid with VPN 1 and PPN 101 in place of VPN 2 and PPN 102. *)
Lemma invalid_slots_clean_witness :
  let s := ex_run [Translate 4096 OP_WRITE; Translate 8192 OP_WRITE;
                   Translate 4096 OP_READ; Translate 12288 OP_WRITE]
             ex_init in
  0 <= l1_find 2 1 s /\
  dirty (entry_at (tlb_l1 s) (l1_find 2 1 s)) = true /\ (0 < 2)%nat /\
  entry_at (tlb_l1 s) 0 = mk_entry true true 3 1 101 /\
  entry_at (tlb_l1 (ex_invalidate 1 s)) 0 = mk_entry false false 0 1 101 /\
  entry_at (tlb_l2 s) 1 = mk_entry true true 3 2 102 /\
  entry_at (tlb_l2 (ex_invalidate 1 s)) 1 = mk_entry false false 0 1 101.
Proof.
  cbv zeta.
  set (s := ex_run [Translate 4096 OP_WRITE; Translate 8192 OP_WRITE;
                    Translate 4096 OP_READ; Translate 12288 OP_WRITE]
              ex_init).
  assert (Hf : 0 <= l1_find 2 1 s) by (vm_compute; discriminate).
  assert (Hd : dirty (entry_at (tlb_l1 s) (l1_find 2 1 s)) = true)
    by (vm_compute; reflexivity).
  split; [exact Hf|]. split; [exact Hd|]. split; [lia|].
  destruct (invalid_slots_clean 12 2 2 1 10 example_resolver
              [Translate 4096 OP_WRITE; Translate 8192 OP_WRITE;
               Translate 4096 OP_READ; Translate 12288 OP_WRITE])
    as (_ & _ & H).
  destruct (H 1) as (_ & Hslot & _ & _ & Hl2).
  fold s in Hslot, Hl2.
  cbv zeta in Hl2. destruct (Hl2 Hf Hd ltac:(lia)) as [_ Hj].
  pose proof (Hslot Hf) as Hi.
  assert (Hiv : l1_find 2 1 s = 0) by (vm_compute; reflexivity).
  assert (Hjv : (if 0 <=? l2_find 2 1 s then l2_find 2 1 s
                 else l2_choose_victim 2 s) = 1)
    by (vm_compute; reflexivity).
  rewrite Hjv, Hiv in Hj. rewrite Hiv in Hi.
  split; [vm_compute; reflexivity|].
  split; [rewrite Hi; vm_compute; reflexivity|].
  split; [vm_compute; reflexivity|].
  rewrite Hj. vm_compute. reflexivity.
Defined.

(** C6 as stated fails: initialize puts the counters back to zero; and
    without any initialize, 2^64 translations of one address bring the
    L1 hit counter to 2^64 - 1, from where the next hit wraps it to
    zero. *)
Lemma counters_reset_and_wrap :
  (let s1 := ex_run [Translate 4096 OP_READ] ex_init in
   let s2 := ex_run [Translate 4096 OP_READ; Initialize] ex_init in
   tlb_l1_misses s1 = 1 /\ tlb_l1_misses s2 = 0) /\
  (exists ops,
     Forall (fun o => o <> Initialize) ops /\
     tlb_l1_hits (ex_run ops ex_init) = 2 ^ 64 - 1 /\
     tlb_l1_hits (ex_run (ops ++ [Translate 4096 OP_READ]) ex_init) = 0).
Proof.
  cbv zeta. split; [split; vm_compute; reflexivity|].
  assert (Hn : exists n : nat, Z.of_nat n = 2 ^ 64 - 1).
  { exists (Z.to_nat (2 ^ 64 - 1)). apply Z2Nat.id. lia. }
  destruct Hn as [n Hn].
  exists ([Translate 4096 OP_READ] ++ replicate n (Translate 4096 OP_READ)).
  split.
  { apply Forall_app. split; [by repeat constructor|].
    by apply Forall_replicate. }
  set (s1 := ex_run [Translate 4096 OP_READ] ex_init).
  assert (Hf : 0 <= l1_find 2 (va_to_vpn 12 4096) s1)
    by (vm_compute; discriminate).
  assert (Hh : tlb_l1_hits s1 = 0) by (vm_compute; reflexivity).
  destruct (hits_wrap_reachable 12 2 2 1 10 example_resolver
              4096 OP_READ n s1 Hf) as [H1 H2]; [lia|lia|].
  rewrite <- app_assoc, !run_app. fold s1.
  rewrite <- run_app. split; [exact H1|exact H2].
Qed.

(** The counters at two points of one run. *)
Lemma counters_monotone_exclusive_witness :
  let ops1 := [Translate 4096 OP_WRITE; Invalidate 1] in
  let ops2 := [Translate 4096 OP_READ; Translate 4100 OP_READ] in
  counters (ex_run ops1 ex_init) = [0; 1; 1; 0; 1; 1] /\
  counters (ex_run (ops1 ++ ops2) ex_init) = [1; 2; 1; 0; 2; 1] /\
  counters_rel Z.le (ex_run ops1 ex_init) (ex_run (ops1 ++ ops2) ex_init).
Proof.
  cbv zeta. split; [vm_compute; reflexivity|].
  split; [vm_compute; reflexivity|].
  apply (proj2 (counters_monotone_exclusive 12 2 2 1 10 example_resolver)).
  - repeat constructor; discriminate.
  - repeat constructor; simpl; lia.
Defined.

(** Three distinct pages inserted into the empty two-slot L2: the first
    one is the one evicted. *)
Lemma victim_selection_lru_witness :
  let xs := [mk_req 1 101 false; mk_req 2 102 true] in
  let x := mk_req 3 103 false in
  (0 < 2)%nat /\ all_invalid (tlb_l2 ex_init) /\
  NoDup (map req_vpn (xs ++ [x])) /\
  l2_find 2 1 (l2_insert 12 2 3 103 false (l2_insert_all 12 2 xs ex_init))
    = -1.
Proof.
  cbv zeta.
  assert (Hinv : all_invalid (tlb_l2 ex_init))
    by (apply all_invalid_forallb; vm_compute; reflexivity).
  assert (Hnd : NoDup (map req_vpn
            ([mk_req 1 101 false; mk_req 2 102 true] ++
             [mk_req 3 103 false]))).
  { apply (bool_decide_unpack _). vm_compute. exact I. }
  split; [lia|]. split; [exact Hinv|]. split; [exact Hnd|].
  destruct (victim_selection_lru 12 2 2) as (_ & _ & H); [lia|lia|].
  destruct (H ex_init [mk_req 1 101 false; mk_req 2 102 true]
              (mk_req 3 103 false))
    as (_ & x0 & rest & Hxs & Hgone & _);
    [vm_compute; reflexivity | exact Hinv | vm_compute; reflexivity
    | exact Hnd | simpl; lia | simpl; lia |].
  injection Hxs as <- <-. exact Hgone.
Defined.

(** ** Scenarios for the further properties *)

(** Page number 101 and offset 5, composed and taken apart. *)
Lemma compose_pa_parts_witness :
  0 <= 12 <= 32 /\ 0 <= 5 < 2 ^ 12 /\
  va_offset 12 (compose_pa 12 101 5) = 5 /\
  pa_to_ppn 12 (compose_pa 12 101 5) = 101.
Proof.
  split; [lia|]. split; [lia|].
  destruct (compose_pa_parts 12 101 5) as (Hoff & _ & Hppn & _);
    [lia|lia|].
  split; [exact Hoff|]. apply Hppn. lia.
Defined.

Lemma address_parts_range_witness :
  0 <= 12 <= 32 /\ 0 <= 74565 < 2 ^ 64 /\
  74565 = va_to_vpn 12 74565 * 2 ^ 12 + va_offset 12 74565.
Proof.
  split; [lia|]. split; [lia|].
  destruct (address_parts_range 12 74565) as (_ & _ & H); [lia|lia|].
  exact H.
Defined.

(** Three translations and one invalidation: hits and misses of L1 add
    up to three. *)
Lemma statistics_account_witness :
  let ops := [Translate 4096 OP_READ; Translate 4100 OP_WRITE;
              Invalidate 1; Translate 8192 OP_READ] in
  Forall (fun o => o <> Initialize) ops /\
  Z.of_nat (length ops) < 2 ^ 64 /\
  get_total_tlb_l1_hits (ex_run ops ex_init) +
  get_total_tlb_l1_misses (ex_run ops ex_init) = 3.
Proof.
  cbv zeta.
  assert (HF : Forall (fun o => o <> Initialize)
                 [Translate 4096 OP_READ; Translate 4100 OP_WRITE;
                  Invalidate 1; Translate 8192 OP_READ])
    by (repeat constructor; discriminate).
  split; [exact HF|]. split; [vm_compute; reflexivity|].
  destruct (statistics_account 12 2 2 1 10 example_resolver _ HF)
    as (H & _); [vm_compute; reflexivity|].
  exact H.
Defined.

(** Page 2 has left L1 and is still in L2: its next translation is an
    L2 hit. *)
Lemma tlb_translate_l2_hit_witness :
  let s := ex_run [Translate 4096 OP_WRITE; Translate 8192 OP_WRITE;
                   Translate 4096 OP_READ; Translate 12288 OP_WRITE]
             ex_init in
  length (tlb_l1 s) = 2%nat /\ (0 < 2)%nat /\
  l1_find 2 (va_to_vpn 12 8192) s = -1 /\
  0 <= l2_find 2 (va_to_vpn 12 8192) s /\
  fst (ex_translate 8192 OP_READ s) = 417792.
Proof.
  cbv zeta. split; [vm_compute; reflexivity|]. split; [lia|].
  split; [vm_compute; reflexivity|]. split; [vm_compute; discriminate|].
  destruct (tlb_translate_l2_hit 12 2 2 1 10 example_resolver 8192 OP_READ
              (ex_run [Translate 4096 OP_WRITE; Translate 8192 OP_WRITE;
                       Translate 4096 OP_READ; Translate 12288 OP_WRITE]
                 ex_init)) as (Hpa & _);
    [vm_compute; reflexivity | lia | vm_compute; reflexivity
    | vm_compute; discriminate |].
  rewrite Hpa. vm_compute. reflexivity.
Defined.

(** Two addresses of page 1, one after the other. *)
Lemma second_translation_hits_witness :
  length (tlb_l1 ex_init) = 2%nat /\ (0 < 2)%nat /\
  va_to_vpn 12 4100 = va_to_vpn 12 4096 /\
  trace (snd (ex_translate 4100 OP_WRITE
                (snd (ex_translate 4096 OP_READ ex_init)))) =
  trace (snd (ex_translate 4096 OP_READ ex_init)) ++ [EvTime 1].
Proof.
  split; [vm_compute; reflexivity|]. split; [lia|].
  split; [vm_compute; reflexivity|].
  destruct (second_translation_hits 12 2 2 1 10 example_resolver
              4096 4100 OP_READ OP_WRITE ex_init)
    as (ppn & _ & _ & Htr & _);
    [vm_compute; reflexivity | lia | vm_compute; reflexivity |].
  exact Htr.
Defined.

(** An insertion into the empty L2. *)
Lemma insert_with_room_witness :
  length (tlb_l2 ex_init) = 2%nat /\ has_room (tlb_l2 ex_init) 2 1 /\
  trace (l2_insert 12 2 1 101 true ex_init) = trace ex_init.
Proof.
  assert (Hroom : has_room (tlb_l2 ex_init) 2 1).
  { right. exists 0%nat. split; [lia|]. vm_compute. reflexivity. }
  split; [vm_compute; reflexivity|]. split; [exact Hroom|].
  destruct (insert_with_room 12 2 2 1 101 true ex_init) as [H2 _].
  destruct (H2 eq_refl Hroom) as (Htr & _). exact Htr.
Defined.

(** Reads of four pages and an invalidation. *)
Lemma read_only_never_writes_back_witness :
  let ops := [Translate 4096 OP_READ; Translate 8192 OP_READ;
              Translate 12288 OP_READ; Invalidate 1;
              Translate 16384 OP_READ] in
  Forall is_read_operation ops /\
  sink_calls (trace (ex_run ops ex_init)) = [].
Proof.
  cbv zeta.
  assert (HF : Forall is_read_operation
                 [Translate 4096 OP_READ; Translate 8192 OP_READ;
                  Translate 12288 OP_READ; Invalidate 1;
                  Translate 16384 OP_READ])
    by (repeat constructor).
  split; [exact HF|].
  destruct (read_only_never_writes_back 12 2 2 1 10 example_resolver _ HF)
    as (_ & _ & H).
  exact H.
Defined.

(** Page 1 written once, then invalidated: one write-back, of its
    frame. *)
Lemma invalidate_writes_back_l1_copy_witness :
  let s := ex_run [Translate 4096 OP_WRITE] ex_init in
  length (tlb_l2 s) = 2%nat /\ (0 < 2)%nat /\ 0 <= l1_find 2 1 s /\
  dirty (entry_at (tlb_l1 s) (l1_find 2 1 s)) = true /\
  trace (ex_invalidate 1 s) = trace s ++ [EvTime 11; EvWriteBack 413696].
Proof.
  cbv zeta. split; [vm_compute; reflexivity|]. split; [lia|].
  split; [vm_compute; discriminate|]. split; [vm_compute; reflexivity|].
  destruct (invalidate_writes_back_l1_copy 12 2 2 1 10 1
              (ex_run [Translate 4096 OP_WRITE] ex_init))
    as (pre & Htr & _ & _ & Hpre & _);
    [vm_compute; reflexivity | lia | vm_compute; discriminate
    | vm_compute; reflexivity |].
  rewrite Htr, Hpre by (vm_compute; discriminate).
  vm_compute. reflexivity.
Defined.

(** Page 1 read once, then invalidated: no write-back. *)
Lemma invalidate_clean_in_l1_witness :
  let s := ex_run [Translate 4096 OP_READ] ex_init in
  (l1_find 2 1 s < 0 \/
   dirty (entry_at (tlb_l1 s) (l1_find 2 1 s)) = false) /\
  trace (ex_invalidate 1 s) = trace s ++ [EvTime 11].
Proof.
  cbv zeta.
  assert (H : l1_find 2 1 (ex_run [Translate 4096 OP_READ] ex_init) < 0 \/
              dirty (entry_at
                       (tlb_l1 (ex_run [Translate 4096 OP_READ] ex_init))
                       (l1_find 2 1
                          (ex_run [Translate 4096 OP_READ] ex_init))) =
              false)
    by (right; vm_compute; reflexivity).
  split; [exact H|].
  destruct (invalidate_clean_in_l1 12 2 2 1 10 1 _ H) as (Htr & _).
  rewrite Htr. vm_compute. reflexivity.
Defined.

(** A write to page 1 of the empty module, then its invalidation. *)
Lemma written_page_is_written_back_witness :
  length (tlb_l1 ex_init) = 2%nat /\ (0 < 2)%nat /\
  length (tlb_l2 ex_init) = 2%nat /\
  exists (ppn : Z) (pre : list event),
    trace (ex_invalidate (va_to_vpn 12 4096)
             (snd (ex_translate 4096 OP_WRITE ex_init))) =
    trace (snd (ex_translate 4096 OP_WRITE ex_init)) ++
    [EvTime (1 + 10)] ++ pre ++ [EvWriteBack (compose_pa 12 ppn 0)] /\
    (length pre <= 1)%nat.
Proof.
  split; [vm_compute; reflexivity|]. split; [lia|].
  split; [vm_compute; reflexivity|].
  destruct (written_page_is_written_back 12 2 2 1 10 example_resolver
              4096 ex_init) as (ppn & pre & _ & Htr & _ & Hl);
    [vm_compute; reflexivity | lia | vm_compute; reflexivity | lia |].
  exists ppn, pre. split; [exact Htr|exact Hl].
Defined.

(** The stamps after four translations. *)
Lemma stamps_distinct_witness :
  let ops := [Translate 4096 OP_WRITE; Translate 8192 OP_WRITE;
              Translate 4096 OP_READ; Translate 12288 OP_WRITE] in
  2 * Z.of_nat (length ops) < 2 ^ 64 /\
  stamps_ok (tlb_l1 (ex_run ops ex_init)) (lru_tick (ex_run ops ex_init)).
Proof.
  cbv zeta. split; [vm_compute; reflexivity|].
  destruct (stamps_distinct 12 2 2 1 10 example_resolver
              [Translate 4096 OP_WRITE; Translate 8192 OP_WRITE;
               Translate 4096 OP_READ; Translate 12288 OP_WRITE])
    as (H & _); [vm_compute; reflexivity|].
  exact H.
Defined.

(** With both L1 slots in use, page 3 is loaded and page 4 after it:
    page 3 stays. *)
Lemma recent_page_survives_witness :
  let ops := [Translate 4096 OP_READ; Translate 8192 OP_READ] in
  (2 <= 2)%nat /\ 2 * (Z.of_nat (length ops) + 1) < 2 ^ 64 /\
  0 <= l1_find 2 (va_to_vpn 12 12288)
         (ex_run (ops ++ [Translate 12288 OP_READ; Translate 16384 OP_READ])
            ex_init).
Proof.
  cbv zeta. split; [lia|]. split; [vm_compute; reflexivity|].
  apply (recent_page_survives 12 2 2 1 10 example_resolver
           [Translate 4096 OP_READ; Translate 8192 OP_READ]);
    [lia | vm_compute; reflexivity].
Defined.

(** An L1 hit at offset 4 of page 1. *)
Lemma hit_address_parts_witness :
  let s := ex_run [Translate 4096 OP_READ] ex_init in
  0 <= 12 <= 32 /\
  (0 <= l1_find 2 (va_to_vpn 12 4100) s \/
   0 <= l2_find 2 (va_to_vpn 12 4100) s) /\
  va_offset 12 (fst (ex_translate 4100 OP_READ s)) = 4.
Proof.
  cbv zeta.
  assert (H : 0 <= l1_find 2 (va_to_vpn 12 4100)
                     (ex_run [Translate 4096 OP_READ] ex_init) \/
              0 <= l2_find 2 (va_to_vpn 12 4100)
                     (ex_run [Translate 4096 OP_READ] ex_init))
    by (left; vm_compute; discriminate).
  split; [lia|]. split; [exact H|].
  destruct (hit_address_parts 12 2 2 1 10 example_resolver 4100 OP_READ
              _ ltac:(lia) H) as (Hoff & _).
  rewrite Hoff. vm_compute. reflexivity.
Defined.
